(** * x402 client helpers: payment-payload codec, JSON-safety sanitizer,
      facilitator [verify] response handling

    A shallow embedding of [src/app/utils/paymentUtils.js] and
    [src/app/facilitator.js].  JavaScript values are embedded as data,
    exceptions as an explicit completion type, and the object graph the
    sanitizer walks as a heap of objects addressed by reference.

    Modelling conventions:
    - a string is a sequence of code units below 256 ([string]);
    - a number is an IEEE-754 value ([spec_float]); a [bigint] is a [Z];
    - an object is the list of its own enumerable string-keyed properties in
      the order [Object.entries] lists them; keys are plain data keys (the
      prototype chain and accessor properties are not modelled, so no property
      is named [__proto__], which an assignment would hand to the prototype
      setter);
    - what the engine supplies and the repository does not define (the base64
      pair of [./base64.js], the text layer of [JSON.stringify]/[JSON.parse],
      number formatting) is a field of an [Engine] record. *)

From Stdlib Require Import ZArith String Ascii List Bool Lia.
From Stdlib Require Import DecimalString DecimalZ DecimalN DecimalPos SpecFloat.
From Stdlib Require DecimalFacts.
From stdpp Require Import gmap strings list.

Set Warnings "-register-all".

Open Scope string_scope.
Open Scope Z_scope.

(** ** Completions: a value is returned or an error is thrown *)

Inductive error :=
| TypeError
| RangeError
| SyntaxError
| Error (message : string).

Inductive completion (A : Type) :=
| Normal (a : A)
| Throw (e : error).

Arguments Normal {A} a.
Arguments Throw {A} e.

Definition cbind {A B : Type} (m : completion A) (k : A -> completion B) : completion B :=
  match m with
  | Normal a => k a
  | Throw e => Throw e
  end.

Notation "'do' x <- m ; k" := (cbind m (fun x => k))
  (at level 10, x name, m at level 100, k at level 200).

(** [error.message] as the sanitizer's [catch] clause reads it.  The texts of
    the built-in errors are the engine's; only [RangeError] is thrown inside
    the sanitizer ([Date.prototype.toISOString] on an invalid date). *)
Definition error_message (e : error) : string :=
  match e with
  | TypeError => "TypeError"
  | RangeError => "Invalid time value"
  | SyntaxError => "SyntaxError"
  | Error m => m
  end.

(** ** Numbers, big integers and their strings *)

Definition number := spec_float.

(** The number that is the integer [z]. *)
Definition number_of_Z (z : Z) : number :=
  match z with
  | Z0 => S754_zero false
  | Zpos p => S754_finite false p 0
  | Zneg p => S754_finite true p 0
  end.

(** [ToBoolean] on a number: zero and NaN are falsy. *)
Definition number_truthy (n : number) : bool :=
  match n with
  | S754_zero _ | S754_nan => false
  | _ => true
  end.

(** [NumberToBigInt]: the integer a number denotes; [None] (a [RangeError])
    for NaN, the infinities and numbers with a fractional part. *)
Definition NumberToBigInt (n : number) : option Z :=
  match n with
  | S754_zero _ => Some 0
  | S754_finite s m e =>
      let magnitude :=
        if 0 <=? e then Some (Z.pos m * 2 ^ e)
        else if Z.pos m mod 2 ^ (- e) =? 0 then Some (Z.pos m / 2 ^ (- e))
        else None in
      option_map (fun v => if s then - v else v) magnitude
  | _ => None
  end.

(** [BigInt.prototype.toString()], radix 10. *)
Definition BigInt_toString (z : Z) : string :=
  NilEmpty.string_of_int (Z.to_int z).

(** [StrWhiteSpaceChar] among the code units below 256: TAB, LF, VT, FF, CR,
    SP and NBSP. *)
Definition is_whitespace (c : ascii) : bool :=
  let n := nat_of_ascii c in
  ((9 <=? n) && (n <=? 13))%nat || (n =? 32)%nat || (n =? 160)%nat.

Fixpoint trim_left (s : string) : string :=
  match s with
  | String c rest => if is_whitespace c then trim_left rest else s
  | EmptyString => EmptyString
  end.

Fixpoint string_rev_onto (s acc : string) : string :=
  match s with
  | EmptyString => acc
  | String c rest => string_rev_onto rest (String c acc)
  end.

Definition string_rev (s : string) : string := string_rev_onto s EmptyString.

Definition trim (s : string) : string :=
  string_rev (trim_left (string_rev (trim_left s))).

Fixpoint no_whitespace (s : string) : bool :=
  match s with
  | EmptyString => true
  | String c rest => negb (is_whitespace c) && no_whitespace rest
  end.

Definition is_decimal_digit (c : ascii) : bool :=
  let n := nat_of_ascii c in ((48 <=? n) && (n <=? 57))%nat.

Fixpoint all_decimal_digits (s : string) : bool :=
  match s with
  | EmptyString => true
  | String c rest => is_decimal_digit c && all_decimal_digits rest
  end.

(** The value of a digit in radix up to 16, letters in either case. *)
Definition digit_value (c : ascii) : option Z :=
  let n := Z.of_nat (nat_of_ascii c) in
  if (48 <=? n) && (n <=? 57) then Some (n - 48)
  else if (97 <=? n) && (n <=? 102) then Some (n - 87)
  else if (65 <=? n) && (n <=? 70) then Some (n - 55)
  else None.

Fixpoint digits_in_radix (radix acc : Z) (s : string) : option Z :=
  match s with
  | EmptyString => Some acc
  | String c rest =>
      match digit_value c with
      | Some d => if d <? radix then digits_in_radix radix (acc * radix + d) rest else None
      | None => None
      end
  end.

(** One or more digits of the radix. *)
Definition radix_literal (radix : Z) (s : string) : option Z :=
  match s with
  | EmptyString => None
  | _ => digits_in_radix radix 0 s
  end.

(** [DecimalDigits]: one or more decimal digits. *)
Definition decimal_digits (s : string) : option Z :=
  match s with
  | EmptyString => None
  | _ => option_map Z.of_uint (NilEmpty.uint_of_string s)
  end.

(** [StrIntegerLiteral]: an optionally signed run of decimal digits, or an
    unsigned binary, octal or hexadecimal literal. *)
Definition StrIntegerLiteral (s : string) : option Z :=
  match s with
  | String "0" (String ("x" | "X") digits) => radix_literal 16 digits
  | String "0" (String ("o" | "O") digits) => radix_literal 8 digits
  | String "0" (String ("b" | "B") digits) => radix_literal 2 digits
  | String "+" digits => decimal_digits digits
  | String "-" digits => option_map Z.opp (decimal_digits digits)
  | _ => decimal_digits s
  end%char.

(** [StringToBigInt]: surrounding white space is dropped; the empty string
    is [0n]; [None] when the text is no [StringIntegerLiteral]. *)
Definition StringToBigInt (s : string) : option Z :=
  match trim s with
  | EmptyString => Some 0
  | t => StrIntegerLiteral t
  end.

(** ** Property lists

    The own enumerable string-keyed properties of an object, in the order
    [Object.entries] lists them: array indices ascending, then the other keys
    in creation order. *)

Section PropertyList.

Context {V : Type}.

Fixpoint get (k : string) (ps : list (string * V)) : option V :=
  match ps with
  | [] => None
  | (k', v) :: rest => if String.eqb k' k then Some v else get k rest
  end.

Definition has (k : string) (ps : list (string * V)) : bool :=
  match get k ps with
  | Some _ => true
  | None => false
  end.

Definition keys (ps : list (string * V)) : list string := map fst ps.

(** Overwrite the value of an existing property; its position stays. *)
Fixpoint replace (k : string) (v : V) (ps : list (string * V)) : list (string * V) :=
  match ps with
  | [] => []
  | (k', v') :: rest =>
      if String.eqb k' k then (k, v) :: rest else (k', v') :: replace k v rest
  end.

(** An array index is the canonical decimal numeral of an integer below
    [2^32 - 1]. *)
Definition array_index (k : string) : option N :=
  match k with
  | EmptyString => None
  | _ =>
      match NilEmpty.uint_of_string k with
      | Some u =>
          let n := N.of_uint u in
          if String.eqb (NilEmpty.string_of_uint (N.to_uint n)) k && (n <? 4294967295)%N
          then Some n else None
      | None => None
      end
  end.

(** A new array-index key goes before the first key that is no array index or
    a larger one. *)
Fixpoint insert_index (i : N) (k : string) (v : V) (ps : list (string * V)) : list (string * V) :=
  match ps with
  | [] => [(k, v)]
  | (k', v') :: rest =>
      match array_index k' with
      | Some j => if (j <? i)%N then (k', v') :: insert_index i k v rest else (k, v) :: ps
      | None => (k, v) :: ps
      end
  end.

Definition insert_new (k : string) (v : V) (ps : list (string * V)) : list (string * V) :=
  match array_index k with
  | Some i => insert_index i k v ps
  | None => ps ++ [(k, v)]
  end.

(** [obj[k] = v] and [CreateDataProperty] on an ordinary object. *)
Definition define (k : string) (v : V) (ps : list (string * V)) : list (string * V) :=
  if has k ps then replace k v ps else insert_new k v ps.

(** Copy a sequence of entries into an object under construction; a later
    entry with the same key overwrites the earlier one. *)
Definition define_all (entries : list (string * V)) (ps : list (string * V)) : list (string * V) :=
  fold_left (fun acc kv => define (fst kv) (snd kv) acc) entries ps.

(** [Object.fromEntries]. *)
Definition from_entries (entries : list (string * V)) : list (string * V) :=
  define_all entries [].

(** The list is what an object holding these properties enumerates: no key
    twice, keys in own-property order. *)
Definition own_property_order (ps : list (string * V)) : Prop :=
  from_entries ps = ps.

End PropertyList.

(** The key of the [i]-th element of an array. *)
Definition index_key (i : nat) : string :=
  NilEmpty.string_of_uint (N.to_uint (N.of_nat i)).

Fixpoint index_entries_from {V : Type} (i : nat) (items : list V) : list (string * V) :=
  match items with
  | [] => []
  | x :: rest => (index_key i, x) :: index_entries_from (S i) rest
  end.

(** [Object.entries] of a dense array. *)
Definition index_entries {V : Type} (items : list V) : list (string * V) :=
  index_entries_from 0 items.

(** ** The types [typeof] reports *)

Inductive jstype :=
| TUndefined | TObject | TBoolean | TNumber | TString | TBigint | TSymbol | TFunction.

Definition jstype_eqb (a b : jstype) : bool :=
  match a, b with
  | TUndefined, TUndefined | TObject, TObject | TBoolean, TBoolean
  | TNumber, TNumber | TString, TString | TBigint, TBigint
  | TSymbol, TSymbol | TFunction, TFunction => true
  | _, _ => false
  end.

(** * The payment-payload codec ([src/app/utils/paymentUtils.js]) *)

Module Codec.

(** Values the codec handles: what [JSON.parse] builds, big integers, and
    [undefined] for a property that is not there.  The codec only reads its
    input and builds new objects, so objects are embedded by content. *)
Inductive value :=
| VUndefined
| VNull
| VBool (b : bool)
| VNumber (n : number)
| VString (s : string)
| VBigInt (z : Z)
| VArray (items : list value)
| VObject (props : list (string * value)).

Definition typeof (v : value) : jstype :=
  match v with
  | VUndefined => TUndefined
  | VNull | VArray _ | VObject _ => TObject
  | VBool _ => TBoolean
  | VNumber _ => TNumber
  | VString _ => TString
  | VBigInt _ => TBigint
  end.

Definition ToBoolean (v : value) : bool :=
  match v with
  | VUndefined | VNull => false
  | VBool b => b
  | VNumber n => number_truthy n
  | VString s => negb (String.eqb s "")
  | VBigInt z => negb (z =? 0)
  | VArray _ | VObject _ => true
  end.

Fixpoint string_chars (s : string) : list value :=
  match s with
  | EmptyString => []
  | String c rest => VString (String c EmptyString) :: string_chars rest
  end.

(** The own enumerable properties an object spread [{...v}] copies. *)
Definition own_entries (v : value) : list (string * value) :=
  match v with
  | VObject props => props
  | VArray items => index_entries items
  | VString s => index_entries (string_chars s)
  | _ => []
  end.

(** The value of the own property [k] of [v], [undefined] when there is
    none. *)
Definition read (v : value) (k : string) : value :=
  default VUndefined (get k (own_entries v)).

(** [v.k] for a data key [k]: a [TypeError] on [undefined] and [null]. *)
Definition get_prop (v : value) (k : string) : completion value :=
  match v with
  | VUndefined | VNull => Throw TypeError
  | _ => Normal (read v k)
  end.

(** What the codec calls and does not define: the base64 pair it imports from
    [./base64.js], which is not among the sources, and the engine's
    [JSON.stringify], [JSON.parse] and [Number.prototype.toString]. *)
Record Engine := {
  safeBase64Encode : string -> completion string;
  safeBase64Decode : string -> completion string;
  JSON_stringify : value -> completion string;
  JSON_parse : string -> completion value;
  Number_toString : number -> string
}.

Section WithEngine.

Variable E : Engine.

Definition join_with (sep : string) (parts : list string) : string :=
  match parts with
  | [] => ""
  | p :: rest => fold_left (fun acc q => acc ++ sep ++ q) rest p
  end.

Definition sequence {A : Type} (ms : list (completion A)) : completion (list A) :=
  fold_right (fun m acc => do x <- m; do xs <- acc; Normal (x :: xs)) (Normal []) ms.

(** [v.toString()]: a [TypeError] on [undefined] and [null], and on an object
    whose own [toString] property shadows the method (no property of a value
    of this model is callable); an array joins its elements, empty for
    [undefined] and [null]. *)
Fixpoint toString (v : value) : completion string :=
  match v with
  | VUndefined | VNull => Throw TypeError
  | VBool b => Normal (if b then "true" else "false")
  | VNumber n => Normal (Number_toString E n)
  | VString s => Normal s
  | VBigInt z => Normal (BigInt_toString z)
  | VArray items =>
      do parts <- sequence (map (fun item =>
                     match item with
                     | VUndefined | VNull => Normal ""
                     | _ => toString item
                     end) items);
      Normal (join_with "," parts)
  | VObject props => if has "toString" props then Throw TypeError else Normal "[object Object]"
  end.

(** [BigInt(v)]. *)
Definition BigInt (v : value) : completion value :=
  match v with
  | VUndefined | VNull => Throw TypeError
  | VBool b => Normal (VBigInt (if b then 1 else 0))
  | VNumber n =>
      match NumberToBigInt n with
      | Some z => Normal (VBigInt z)
      | None => Throw RangeError
      end
  | VBigInt z => Normal (VBigInt z)
  | VString s =>
      match StringToBigInt s with
      | Some z => Normal (VBigInt z)
      | None => Throw SyntaxError
      end
  | VArray _ | VObject _ =>
      do s <- toString v;
      match StringToBigInt s with
      | Some z => Normal (VBigInt z)
      | None => Throw SyntaxError
      end
  end.

Definition strict_equal_string (v : value) (s : string) : bool :=
  match v with
  | VString t => String.eqb t s
  | _ => false
  end.

Definition is_authorization_type (type : value) : bool :=
  strict_equal_string type "authorization" || strict_equal_string type "authorizationEip3009".

(** The object literal both directions build:
    [{...payment, payload: {...payment.payload,
        ...(authorization-like && {authorization: {...payment.payload.authorization,
               value: f(..value), validAfter: f(..validAfter), validBefore: f(..validBefore)}})}}]
    with [f] the conversion of the three numeric fields. *)
Definition convert_payment (f : value -> completion value) (payment : value) : completion value :=
  let top := from_entries (own_entries payment) in
  do payload <- get_prop payment "payload";
  let inner := from_entries (own_entries payload) in
  do type <- get_prop payload "type";
  do inner' <-
    (if is_authorization_type type then
       do authorization <- get_prop payload "authorization";
       let fields := from_entries (own_entries authorization) in
       do value <- get_prop authorization "value";
       do value' <- f value;
       do validAfter <- get_prop authorization "validAfter";
       do validAfter' <- f validAfter;
       do validBefore <- get_prop authorization "validBefore";
       do validBefore' <- f validBefore;
       let fields' :=
         define "validBefore" validBefore'
           (define "validAfter" validAfter'
              (define "value" value' fields)) in
       Normal (define "authorization" (VObject fields') inner)
     else Normal inner);
  Normal (VObject (define "payload" (VObject inner') top)).

Definition value_toString (v : value) : completion value :=
  do s <- toString v; Normal (VString s).

Definition encodePaymentPayload (payment : value) : completion string :=
  do safe <- convert_payment value_toString payment;
  do text <- JSON_stringify E safe;
  safeBase64Encode E text.

Definition startsWith (v : value) (prefix : string) : completion bool :=
  match v with
  | VString s => Normal (String.prefix prefix s)
  | _ => Throw TypeError
  end.

Definition structure_error : error := Error "Invalid payment payload structure".
Definition authorization_error : error := Error "Invalid authorization payload values".
Definition payload_type_error : error := Error "Invalid payload type".

Definition is_type (v : value) (t : jstype) : bool := jstype_eqb (typeof v) t.

Definition validatePaymentPayload (obj : value) : completion value :=
  if negb (ToBoolean obj) || negb (is_type obj TObject) then Throw structure_error else
  do payload <- get_prop obj "payload";
  if negb (ToBoolean payload) || negb (is_type payload TObject) then Throw structure_error else
  do type <- get_prop payload "type";
  if negb (ToBoolean type) then Throw structure_error else
  if is_authorization_type type then
    do authorization <- get_prop payload "authorization";
    if negb (ToBoolean authorization) then Throw authorization_error else
    do value <- get_prop authorization "value";
    if negb (is_type value TBigint) then Throw authorization_error else
    do validAfter <- get_prop authorization "validAfter";
    if negb (is_type validAfter TBigint) then Throw authorization_error else
    do validBefore <- get_prop authorization "validBefore";
    if negb (is_type validBefore TBigint) then Throw authorization_error else
    do nonce <- get_prop authorization "nonce";
    if negb (is_type nonce TString) then Throw authorization_error else
    do version <- get_prop authorization "version";
    if negb (is_type version TString) then Throw authorization_error else
    do signature <- get_prop payload "signature";
    if negb (ToBoolean signature) then Throw authorization_error else
    do starts <- startsWith signature "0x";
    if negb starts then Throw authorization_error else
    Normal obj
  else Throw payload_type_error.

Definition decodePaymentPayload (payment : string) : completion value :=
  do decoded <- safeBase64Decode E payment;
  do parsed <- JSON_parse E decoded;
  do obj <- convert_payment BigInt parsed;
  validatePaymentPayload obj.

End WithEngine.

(** A payload of one of the two authorization-like variants, as a signer
    builds it: the three numeric fields are non-negative big integers, [nonce]
    and [version] are strings, the signature is a string that starts with
    [0x]; every object lists its properties in own-property order. *)
Inductive well_formed_authorization : value -> Prop :=
| well_formed_payment top inner fields type value validAfter validBefore nonce version signature :
    own_property_order top ->
    get "payload" top = Some (VObject inner) ->
    own_property_order inner ->
    get "type" inner = Some (VString type) ->
    type = "authorization" \/ type = "authorizationEip3009" ->
    get "authorization" inner = Some (VObject fields) ->
    own_property_order fields ->
    get "value" fields = Some (VBigInt value) -> 0 <= value ->
    get "validAfter" fields = Some (VBigInt validAfter) -> 0 <= validAfter ->
    get "validBefore" fields = Some (VBigInt validBefore) -> 0 <= validBefore ->
    get "nonce" fields = Some (VString nonce) ->
    get "version" fields = Some (VString version) ->
    get "signature" inner = Some (VString signature) ->
    String.prefix "0x" signature = true ->
    well_formed_authorization (VObject top).

(** What makes the authorization branch of the validator throw its own
    error: a missing authorization, a numeric field that is no big integer, a
    [nonce] or [version] that is no string, a missing signature, or a
    signature string without the [0x] prefix. *)
Inductive authorization_defect (payload : value) : Prop :=
| authorization_missing :
    ToBoolean (read payload "authorization") = false -> authorization_defect payload
| value_not_bigint :
    typeof (read (read payload "authorization") "value") <> TBigint ->
    authorization_defect payload
| validAfter_not_bigint :
    typeof (read (read payload "authorization") "validAfter") <> TBigint ->
    authorization_defect payload
| validBefore_not_bigint :
    typeof (read (read payload "authorization") "validBefore") <> TBigint ->
    authorization_defect payload
| nonce_not_string :
    typeof (read (read payload "authorization") "nonce") <> TString ->
    authorization_defect payload
| version_not_string :
    typeof (read (read payload "authorization") "version") <> TString ->
    authorization_defect payload
| signature_missing :
    ToBoolean (read payload "signature") = false -> authorization_defect payload
| signature_without_prefix s :
    read payload "signature" = VString s -> String.prefix "0x" s = false ->
    authorization_defect payload.

(** One of the three numeric fields holds a string that [BigInt] does not
    read as an integer literal. *)
Definition unreadable_numeral (fields : list (string * value)) : Prop :=
  exists k s,
    (k = "value" \/ k = "validAfter" \/ k = "validBefore") /\
    get k fields = Some (VString s) /\ StringToBigInt s = None.

(** What the validator lets through: an object whose [payload] is an object
    of an authorization-like type, with an authorization whose three numeric
    fields are big integers and whose [nonce] and [version] are strings, and
    with a signature string that starts with [0x]. *)
Definition accepted (obj : value) : Prop :=
  let payload := read obj "payload" in
  let authorization := read payload "authorization" in
  ToBoolean obj = true /\ typeof obj = TObject
  /\ ToBoolean payload = true /\ typeof payload = TObject
  /\ is_authorization_type (read payload "type") = true
  /\ ToBoolean authorization = true
  /\ typeof (read authorization "value") = TBigint
  /\ typeof (read authorization "validAfter") = TBigint
  /\ typeof (read authorization "validBefore") = TBigint
  /\ typeof (read authorization "nonce") = TString
  /\ typeof (read authorization "version") = TString
  /\ exists s, read payload "signature" = VString s /\ String.prefix "0x" s = true.

Definition is_nullish (v : value) : bool :=
  match v with
  | VUndefined | VNull => true
  | _ => false
  end.

(** A payment the encoder cannot read through: the payment or its [payload]
    is [undefined] or [null], or the type is authorization-like and the
    authorization or one of its three numeric fields is. *)
Inductive unreadable_payment (payment : value) : Prop :=
| payment_nullish :
    is_nullish payment = true -> unreadable_payment payment
| payload_nullish :
    is_nullish (read payment "payload") = true -> unreadable_payment payment
| authorization_nullish :
    is_authorization_type (read (read payment "payload") "type") = true ->
    is_nullish (read (read payment "payload") "authorization") = true ->
    unreadable_payment payment
| amount_nullish k :
    is_authorization_type (read (read payment "payload") "type") = true ->
    k = "value" \/ k = "validAfter" \/ k = "validBefore" ->
    is_nullish (read (read (read payment "payload") "authorization") k) = true ->
    unreadable_payment payment.

(** [ToString(v)], as a template literal applies it: [undefined] and [null]
    have a text. *)
Definition ToString (E : Engine) (v : value) : completion string :=
  match v with
  | VUndefined => Normal "undefined"
  | VNull => Normal "null"
  | _ => toString E v
  end.

End Codec.

(** * A reference engine

    One engine to run the codec on: RFC 4648 base64, and a JSON text layer
    for documents whose numbers are safe integers (the numbers an x402
    payload carries).  The reader refuses every other numeral (a fraction, an
    exponent, an integer beyond [2^53 - 1]) and the writer has no numeral for
    any other finite number and prints [NaN] for it; an engine reads and
    prints those too. *)

Module Reference.

Import Codec.

Definition base64_alphabet : string :=
  "ABCDEFGHIJKLMNOPQRSTUVWXYZabcdefghijklmnopqrstuvwxyz0123456789+/".

Definition sextet_char (n : N) : ascii :=
  match String.get (N.to_nat n) base64_alphabet with
  | Some c => c
  | None => "="%char
  end.

Fixpoint find_char (c : ascii) (s : string) (i : N) : option N :=
  match s with
  | EmptyString => None
  | String c' rest => if Ascii.eqb c' c then Some i else find_char c rest (N.succ i)
  end.

Definition char_sextet (c : ascii) : option N := find_char c base64_alphabet 0.

(** Three bytes as one 24-bit group, four sextets as one. *)
Definition group_of_bytes (a b c : ascii) : N :=
  (N_of_ascii a * 65536 + N_of_ascii b * 256 + N_of_ascii c)%N.

Definition group_of_sextets (n1 n2 n3 n4 : N) : N :=
  (((n1 * 64 + n2) * 64 + n3) * 64 + n4)%N.

Definition sextet (n : N) (i : N) : N := ((n / 64 ^ (3 - i)) mod 64)%N.

Definition byte (n : N) (i : N) : ascii := ascii_of_N ((n / 256 ^ (2 - i)) mod 256).

Definition zero_byte : ascii := ascii_of_N 0.

Fixpoint base64_encode (s : string) : string :=
  match s with
  | String a (String b (String c rest)) =>
      let n := group_of_bytes a b c in
      String (sextet_char (sextet n 0)) (String (sextet_char (sextet n 1))
        (String (sextet_char (sextet n 2)) (String (sextet_char (sextet n 3))
           (base64_encode rest))))
  | String a (String b EmptyString) =>
      let n := group_of_bytes a b zero_byte in
      String (sextet_char (sextet n 0)) (String (sextet_char (sextet n 1))
        (String (sextet_char (sextet n 2)) "="))
  | String a EmptyString =>
      let n := group_of_bytes a zero_byte zero_byte in
      String (sextet_char (sextet n 0)) (String (sextet_char (sextet n 1)) "==")
  | EmptyString => EmptyString
  end.

Definition is_pad (c : ascii) : bool := Ascii.eqb c "="%char.

Fixpoint base64_decode (s : string) : option string :=
  match s with
  | EmptyString => Some EmptyString
  | String c1 (String c2 (String c3 (String c4 rest))) =>
      match char_sextet c1, char_sextet c2 with
      | Some n1, Some n2 =>
          if is_pad c3 then
            if is_pad c4 && String.eqb rest "" then
              Some (String (byte (group_of_sextets n1 n2 0 0) 0) EmptyString)
            else None
          else
            match char_sextet c3 with
            | Some n3 =>
                if is_pad c4 then
                  if String.eqb rest "" then
                    let n := group_of_sextets n1 n2 n3 0 in
                    Some (String (byte n 0) (String (byte n 1) EmptyString))
                  else None
                else
                  match char_sextet c4, base64_decode rest with
                  | Some n4, Some tail =>
                      let n := group_of_sextets n1 n2 n3 n4 in
                      Some (String (byte n 0) (String (byte n 1) (String (byte n 2) tail)))
                  | _, _ => None
                  end
            | None => None
            end
      | _, _ => None
      end
  | _ => None
  end.

(** ** JSON text *)

Definition quote : ascii := ascii_of_nat 34.
Definition backslash : ascii := ascii_of_nat 92.

Definition hex_digit (n : N) : ascii :=
  match String.get (N.to_nat n) "0123456789abcdef" with
  | Some c => c
  | None => "0"%char
  end.

(** [QuoteJSONString], on code units below 256. *)
Fixpoint escape_json (s : string) : string :=
  match s with
  | EmptyString => EmptyString
  | String c rest =>
      let n := N_of_ascii c in
      if Ascii.eqb c quote then String backslash (String quote (escape_json rest))
      else if Ascii.eqb c backslash then String backslash (String backslash (escape_json rest))
      else if (n =? 8)%N then String backslash (String "b" (escape_json rest))
      else if (n =? 9)%N then String backslash (String "t" (escape_json rest))
      else if (n =? 10)%N then String backslash (String "n" (escape_json rest))
      else if (n =? 12)%N then String backslash (String "f" (escape_json rest))
      else if (n =? 13)%N then String backslash (String "r" (escape_json rest))
      else if (n <? 32)%N then
        String backslash (String "u" (String "0" (String "0"
          (String (hex_digit (n / 16)) (String (hex_digit (n mod 16)) (escape_json rest))))))
      else String c (escape_json rest)
  end.

Definition quote_json (s : string) : string :=
  String quote (escape_json s ++ String quote EmptyString).

Definition is_finite (n : number) : bool :=
  match n with
  | S754_zero _ | S754_finite _ _ _ => true
  | _ => false
  end.

(** [Number.isSafeInteger], on an integer. *)
Definition is_safe_integer (z : Z) : bool := Z.abs z <? 2 ^ 53.

(** [Number::toString] where this engine has it: the shortest numeral that
    reads back as a safe integer is its decimal numeral. *)
Definition Number_toString (n : number) : string :=
  match n with
  | S754_infinity false => "Infinity"
  | S754_infinity true => "-Infinity"
  | _ =>
      match NumberToBigInt n with
      | Some z => if is_safe_integer z then BigInt_toString z else "NaN"
      | None => "NaN"
      end
  end.

(** [SerializeJSONProperty]: [None] for a value that is left out
    ([undefined]); a big integer is a [TypeError]. *)
Fixpoint serialize (v : value) : completion (option string) :=
  match v with
  | VUndefined => Normal None
  | VNull => Normal (Some "null")
  | VBool b => Normal (Some (if b then "true" else "false"))
  | VNumber n => Normal (Some (if is_finite n then Number_toString n else "null"))
  | VString s => Normal (Some (quote_json s))
  | VBigInt _ => Throw TypeError
  | VArray items =>
      do parts <- sequence (map (fun item =>
                     do text <- serialize item;
                     Normal (default "null" text)) items);
      Normal (Some ("[" ++ join_with "," parts ++ "]"))
  | VObject props =>
      do parts <- sequence (map (fun kv =>
                     do text <- serialize (snd kv);
                     Normal (option_map (fun t => quote_json (fst kv) ++ ":" ++ t) text)) props);
      Normal (Some ("{" ++ join_with "," (omap id parts) ++ "}"))
  end.

(** [JSON.stringify(v)] for a [v] that is serialized to a text. *)
Definition stringify (v : value) : completion string :=
  do text <- serialize v;
  match text with
  | Some t => Normal t
  | None => Throw TypeError
  end.

Definition is_json_space (c : ascii) : bool :=
  let n := N_of_ascii c in
  (n =? 32)%N || (n =? 9)%N || (n =? 10)%N || (n =? 13)%N.

Fixpoint skip_space (s : string) : string :=
  match s with
  | String c rest => if is_json_space c then skip_space rest else s
  | EmptyString => EmptyString
  end.

Fixpoint take_digits (s : string) : string * string :=
  match s with
  | String c rest =>
      if is_decimal_digit c then
        let '(digits, rest') := take_digits rest in (String c digits, rest')
      else (EmptyString, s)
  | EmptyString => (EmptyString, EmptyString)
  end.

Definition number_of_integer (negative : bool) (z : Z) : number :=
  match z with
  | Zpos p => S754_finite negative p 0
  | _ => S754_zero negative
  end.

(** The digits of a numeral: one digit at least, no leading zero before
    another digit. *)
Definition canonical_numeral (digits : string) : bool :=
  match digits with
  | EmptyString => false
  | String "0" (String _ _) => false
  | _ => true
  end%char.

(** What follows the digits is a fraction or an exponent. *)
Definition goes_on (rest : string) : bool :=
  match rest with
  | String c _ => Ascii.eqb c "." || Ascii.eqb c "e" || Ascii.eqb c "E"
  | EmptyString => false
  end%char.

(** An integer numeral; one that goes on with a fraction or an exponent, or
    that is no safe integer, is refused. *)
Definition read_number (s : string) : option (value * string) :=
  let '(negative, body) :=
      match s with
      | String "-" rest => (true, rest)
      | _ => (false, s)
      end%char in
  let '(digits, rest) := take_digits body in
  if canonical_numeral digits && negb (goes_on rest) then
    match decimal_digits digits with
    | Some z => if is_safe_integer z then Some (VNumber (number_of_integer negative z), rest) else None
    | None => None
    end
  else None.

Definition hex_value (c : ascii) : option N := option_map Z.to_N (digit_value c).

(** The characters of a string literal after its opening quote, up to the
    closing one. *)
Fixpoint read_string (s : string) : option (string * string) :=
  match s with
  | EmptyString => None
  | String c rest =>
      if Ascii.eqb c quote then Some (EmptyString, rest)
      else if Ascii.eqb c backslash then
        match rest with
        | String e rest' =>
            let plain (x : ascii) :=
              option_map (fun '(text, tail) => (String x text, tail)) (read_string rest') in
            if Ascii.eqb e quote then plain quote
            else if Ascii.eqb e backslash then plain backslash
            else if Ascii.eqb e "/" then plain "/"%char
            else if Ascii.eqb e "b" then plain (ascii_of_nat 8)
            else if Ascii.eqb e "f" then plain (ascii_of_nat 12)
            else if Ascii.eqb e "n" then plain (ascii_of_nat 10)
            else if Ascii.eqb e "r" then plain (ascii_of_nat 13)
            else if Ascii.eqb e "t" then plain (ascii_of_nat 9)
            else if Ascii.eqb e "u" then
              match rest' with
              | String h1 (String h2 (String h3 (String h4 rest''))) =>
                  match hex_value h1, hex_value h2, hex_value h3, hex_value h4 with
                  | Some 0%N, Some 0%N, Some d3, Some d4 =>
                      option_map (fun '(text, tail) => (String (ascii_of_N (d3 * 16 + d4)) text, tail))
                                 (read_string rest'')
                  | _, _, _, _ => None
                  end
              | _ => None
              end
            else None
        | EmptyString => None
        end
      else if (N_of_ascii c <? 32)%N then None
      else option_map (fun '(text, tail) => (String c text, tail)) (read_string rest)
  end.

Definition read_literal (literal : string) (v : value) (s : string) : option (value * string) :=
  if String.prefix literal s
  then Some (v, String.substring (String.length literal) (String.length s - String.length literal) s)
  else None.

Fixpoint read_value (fuel : nat) (s : string) : option (value * string) :=
  match fuel with
  | O => None
  | S fuel' =>
      match skip_space s with
      | EmptyString => None
      | String c rest =>
          if Ascii.eqb c "{" then
            match skip_space rest with
            | String c' rest' =>
                if Ascii.eqb c' "}" then Some (VObject [], rest')
                else read_members fuel' (skip_space rest) []
            | EmptyString => None
            end
          else if Ascii.eqb c "[" then
            match skip_space rest with
            | String c' rest' =>
                if Ascii.eqb c' "]" then Some (VArray [], rest')
                else read_elements fuel' rest []
            | EmptyString => None
            end
          else if Ascii.eqb c quote then
            option_map (fun '(text, tail) => (VString text, tail)) (read_string rest)
          else if Ascii.eqb c "n" then read_literal "null" VNull (String c rest)
          else if Ascii.eqb c "t" then read_literal "true" (VBool true) (String c rest)
          else if Ascii.eqb c "f" then read_literal "false" (VBool false) (String c rest)
          else read_number (String c rest)
      end
  end
with read_elements (fuel : nat) (s : string) (before : list value) : option (value * string) :=
  match fuel with
  | O => None
  | S fuel' =>
      match read_value fuel' s with
      | Some (v, rest) =>
          match skip_space rest with
          | String c rest' =>
              if Ascii.eqb c "," then read_elements fuel' rest' (v :: before)
              else if Ascii.eqb c "]" then Some (VArray (rev (v :: before)), rest')
              else None
          | EmptyString => None
          end
      | None => None
      end
  end
with read_members (fuel : nat) (s : string) (before : list (string * value))
    : option (value * string) :=
  match fuel with
  | O => None
  | S fuel' =>
      match skip_space s with
      | String c rest =>
          if Ascii.eqb c quote then
            match read_string rest with
            | Some (key, rest1) =>
                match skip_space rest1 with
                | String c1 rest2 =>
                    if Ascii.eqb c1 ":" then
                      match read_value fuel' rest2 with
                      | Some (v, rest3) =>
                          match skip_space rest3 with
                          | String c3 rest4 =>
                              if Ascii.eqb c3 "," then read_members fuel' rest4 ((key, v) :: before)
                              else if Ascii.eqb c3 "}"
                              then Some (VObject (from_entries (rev ((key, v) :: before))), rest4)
                              else None
                          | EmptyString => None
                          end
                      | None => None
                      end
                    else None
                | EmptyString => None
                end
            | None => None
            end
          else None
      | EmptyString => None
      end
  end.

(** [JSON.parse]: one value, white space around it, nothing else. *)
Definition parse (s : string) : completion value :=
  match read_value (2 * String.length s + 2) s with
  | Some (v, rest) =>
      match skip_space rest with
      | EmptyString => Normal v
      | _ => Throw SyntaxError
      end
  | None => Throw SyntaxError
  end.

(** The engine around a base64 pair. *)
Definition engine_with (encode decode : string -> completion string) : Engine := {|
  safeBase64Encode := encode;
  safeBase64Decode := decode;
  JSON_stringify := stringify;
  JSON_parse := parse;
  Codec.Number_toString := Number_toString
|}.

Definition engine : Engine :=
  engine_with
    (fun text => Normal (base64_encode text))
    (fun encoded =>
       match base64_decode encoded with
       | Some text => Normal text
       | None => Throw (Error "The string to be decoded is not correctly encoded.")
       end).

(** ** What the JSON text carries

    The values that come back from the text as they went in: [null],
    booleans, strings, safe integers, and arrays and objects of such values
    ([undefined] is left out or written as [null], a big integer is
    refused). *)
Fixpoint transportable (v : value) : Prop :=
  match v with
  | VNull | VBool _ | VString _ => True
  | VNumber n => exists z, is_safe_integer z = true /\ n = number_of_Z z
  | VArray items => fold_right (fun item rest => transportable item /\ rest) True items
  | VObject props =>
      own_property_order props
      /\ fold_right (fun kv rest => transportable (snd kv) /\ rest) True props
  | VUndefined | VBigInt _ => False
  end.

(** The fuel [read_value] takes to read the text of a value. *)
Fixpoint fuel_needed (v : value) : nat :=
  match v with
  | VArray items => S (fold_right (fun item rest => S (fuel_needed item + rest)) O items)
  | VObject props => S (fold_right (fun kv rest => S (fuel_needed (snd kv) + rest)) O props)
  | _ => 1
  end.

Definition elements_needed (items : list value) : nat :=
  fold_right (fun item rest => S (fuel_needed item + rest)) O items.

Definition members_needed (props : list (string * value)) : nat :=
  fold_right (fun kv rest => S (fuel_needed (snd kv) + rest)) O props.

(** What may follow a value in a text: nothing, or the comma or bracket that
    ends it. *)
Definition delimited (rest : string) : bool :=
  match rest with
  | EmptyString => true
  | String c _ => (Ascii.eqb c "," || Ascii.eqb c "]" || Ascii.eqb c "}")%char
  end.

(** The text of a value reads back as the value: within the fuel the value
    needs, and up to a delimiter. *)
Definition reads_back (v : value) (text : string) : Prop :=
  (fuel_needed v <= String.length text)%nat
  /\ (exists c tail, text = String c tail /\ is_json_space c = false
                     /\ Ascii.eqb c "]" = false /\ Ascii.eqb c "}" = false)
  /\ forall rest fuel, delimited rest = true -> (fuel_needed v <= fuel)%nat ->
       read_value fuel (text ++ rest) = Some (v, rest).

Definition member_reads_back (kv : string * value) (member : string) : Prop :=
  exists text, member = (quote_json (fst kv) ++ ":" ++ text)%string
               /\ reads_back (snd kv) text.

End Reference.

(** * The JSON-safety sanitizer ([toJsonSafe], [src/app/facilitator.js]) *)

Module Sanitizer.

(** The sanitizer walks an object graph that may share and cycle, and tells
    objects apart by identity: objects live in a heap and values refer to
    them. *)
Abbreviation loc := nat (only parsing).

Inductive value :=
| VUndefined
| VNull
| VBool (b : bool)
| VNumber (n : number)
| VString (s : string)
| VBigInt (z : Z)
| VSymbol (description : string)
| VFunction
| VRef (l : loc).

(** A [Date] is kept as what [toISOString] returns for it ([None]: an invalid
    date, on which it throws a [RangeError]); a [Map] as its entries with each
    key as the property key [Object.fromEntries] coerces it to. *)
Inductive object :=
| OPlain (props : list (string * value))
| OArray (items : list value)
| ODate (iso : option string)
| OSet (elements : list value)
| OMap (entries : list (string * value)).

(** What [toJsonSafe] returns: arrays and objects it has newly built, around
    values it stored as they are. *)
Inductive tree :=
| Stored (v : value)
| NewArray (items : list tree)
| NewObject (props : list (string * tree)).

Definition typeof (v : value) : jstype :=
  match v with
  | VUndefined => TUndefined
  | VNull | VRef _ => TObject
  | VBool _ => TBoolean
  | VNumber _ => TNumber
  | VString _ => TString
  | VBigInt _ => TBigint
  | VSymbol _ => TSymbol
  | VFunction => TFunction
  end.

Definition ToBoolean (v : value) : bool :=
  match v with
  | VUndefined | VNull => false
  | VBool b => b
  | VNumber n => number_truthy n
  | VString s => negb (String.eqb s "")
  | VBigInt z => negb (z =? 0)
  | VSymbol _ | VFunction | VRef _ => true
  end.

Definition is_type (v : value) (t : jstype) : bool := jstype_eqb (typeof v) t.

Definition is_null (v : value) : bool :=
  match v with
  | VNull => true
  | _ => false
  end.

(** The store: the heap of objects and the [seen] set the traversal shares. *)
Record state := State { heap : list object; seen : gset loc }.

(** A computation threads the store and may throw; [None] stands for a run
    that did not finish within its fuel (or met a reference outside the heap). *)
Definition M (A : Type) : Type := state -> option (completion A * state).

Definition ret {A : Type} (a : A) : M A := fun s => Some (Normal a, s).

Definition throw {A : Type} (e : error) : M A := fun s => Some (Throw e, s).

Definition bind {A B : Type} (m : M A) (k : A -> M B) : M B :=
  fun s =>
    match m s with
    | Some (Normal a, s') => k a s'
    | Some (Throw e, s') => Some (Throw e, s')
    | None => None
    end.

Definition try_catch {A : Type} (m : M A) (handler : error -> M A) : M A :=
  fun s =>
    match m s with
    | Some (Throw e, s') => handler e s'
    | r => r
    end.

Definition unfinished {A : Type} : M A := fun _ => None.

Notation "'let*' x := m 'in' k" := (bind m (fun x => k))
  (at level 10, x name, m at level 100, k at level 200).

Definition deref (l : loc) : M object :=
  fun s =>
    match heap s !! l with
    | Some o => Some (Normal o, s)
    | None => None
    end.

Definition alloc (o : object) : M loc :=
  fun s => Some (Normal (length (heap s)), State (heap s ++ [o]) (seen s)).

Definition seen_has (l : loc) : M bool :=
  fun s => Some (Normal (bool_decide (l ∈ seen s)), s).

Definition seen_add (l : loc) : M unit :=
  fun s => Some (Normal tt, State (heap s) ({[ l ]} ∪ seen s)).

Definition toISOString (iso : option string) : M string :=
  match iso with
  | Some text => ret text
  | None => throw RangeError
  end.

Definition circular_marker : tree := NewObject [("[Circular]", Stored (VBool true))].

Definition input_error : error := Error "Input must be a valid object or array".

Definition conversion_error (cause : error) : error :=
  Error ("Failed to convert to JSON-safe format: " ++ error_message cause).

Fixpoint map_items (f : value -> M tree) (items : list value) : M (list tree) :=
  match items with
  | [] => ret []
  | item :: rest =>
      let* t := f item in
      let* ts := map_items f rest in
      ret (t :: ts)
  end.

(** [Array.prototype.reduce] over the entries, from the initial result. *)
Fixpoint reduce (f : list (string * tree) -> string -> value -> M (list (string * tree)))
    (entries : list (string * value)) (result : list (string * tree)) : M (list (string * tree)) :=
  match entries with
  | [] => ret result
  | (key, value) :: rest =>
      let* result' := f result key value in
      reduce f rest result'
  end.

Definition raw_entries (entries : list (string * value)) : list (string * tree) :=
  map (fun kv => (fst kv, Stored (snd kv))) entries.

Section Step.

(** The recursive calls [toJsonSafe(_, seen)]. *)
Variable self : value -> M tree.

(** [typeof item === "object" && item !== null ? toJsonSafe(item, seen) : item] *)
Definition convert_item (item : value) : M tree :=
  if is_type item TObject && negb (is_null item)
  then self item
  else ret (Stored item).

(** The callback of the [reduce] over [Object.entries(data)]. *)
Definition sanitize_entry (result : list (string * tree)) (key : string) (value : value)
    : M (list (string * tree)) :=
  match value with
  | VUndefined | VNull => ret result
  | VBigInt z => ret (define key (Stored (VString (BigInt_toString z))) result)
  | VSymbol description =>
      ret (define key (Stored (VString ("Symbol(" ++ description ++ ")"))) result)
  | VFunction => ret (define key (Stored (VString "[Function]")) result)
  | VRef l =>
      let* o := deref l in
      match o with
      | ODate iso =>
          let* text := toISOString iso in
          ret (define key (Stored (VString text)) result)
      | OSet elements => ret (define key (NewArray (map Stored elements)) result)
      | OMap entries => ret (define key (NewObject (from_entries (raw_entries entries))) result)
      | OArray items =>
          let* ts := map_items convert_item items in
          ret (define key (NewArray ts) result)
      | OPlain _ =>
          let* t := self value in
          ret (define key t result)
      end
  | VBool _ | VNumber _ | VString _ => ret (define key (Stored value) result)
  end.

(** The [try] block: [data], not seen before, denotes the object [o]. *)
Definition convert_object (o : object) : M tree :=
  match o with
  | ODate iso =>
      let* text := toISOString iso in
      ret (Stored (VString text))
  | OSet elements =>
      let* array := alloc (OArray elements) in
      self (VRef array)
  | OMap entries =>
      let* object := alloc (OPlain (from_entries entries)) in
      self (VRef object)
  | OArray items =>
      let* props := reduce sanitize_entry (index_entries items) [] in
      ret (NewObject props)
  | OPlain own =>
      let* props := reduce sanitize_entry own [] in
      ret (NewObject props)
  end.

Definition rethrow (e : error) : M tree := throw (conversion_error e).

Definition toJsonSafe_body (data : value) : M tree :=
  if negb (ToBoolean data) || negb (is_type data TObject) then throw input_error else
  match data with
  | VRef l =>
      let* visited := seen_has l in
      if visited then ret circular_marker else
      let* _ := seen_add l in
      try_catch (let* o := deref l in convert_object o) rethrow
  | _ => throw input_error
  end.

End Step.

(** [toJsonSafe(data, seen)], the recursion bounded by [fuel] nested calls. *)
Fixpoint toJsonSafe (fuel : nat) (data : value) : M tree :=
  match fuel with
  | O => unfinished
  | S fuel' => toJsonSafe_body (toJsonSafe fuel') data
  end.

(** A top-level call [toJsonSafe(data)]: [seen] defaults to a new set. *)
Definition sanitize (fuel : nat) (h : list object) (data : value) : option (completion tree) :=
  option_map fst (toJsonSafe fuel data (State h ∅)).

(** Every reference stored in the heap, and [data], points into the heap. *)
Definition value_closed (n : nat) (v : value) : Prop :=
  match v with
  | VRef l => (l < n)%nat
  | _ => True
  end.

Definition object_values (o : object) : list value :=
  match o with
  | OPlain props => map snd props
  | OArray items => items
  | ODate _ => []
  | OSet elements => elements
  | OMap entries => map snd entries
  end.

Definition heap_closed (h : list object) : Prop :=
  Forall (fun o => Forall (value_closed (length h)) (object_values o)) h.

(** The store of a run in progress: its heap is closed and [seen] holds
    objects of the heap only. *)
Definition state_closed (s : state) : Prop :=
  heap_closed (heap s) /\ forall l, l ∈ seen s -> (l < length (heap s))%nat.

(** The objects of the heap not yet in [seen]. *)
Definition unseen (s : state) : nat := (length (heap s) - size (seen s))%nat.

(** A run only adds: objects at the end of the heap, members to [seen]. *)
Definition extends (s s' : state) : Prop :=
  heap s `prefix_of` heap s' /\ seen s ⊆ seen s'.

Definition is_nullish (v : value) : bool :=
  match v with
  | VUndefined | VNull => true
  | _ => false
  end.

(** A plain string, number or boolean. *)
Definition is_plain (v : value) : bool :=
  match v with
  | VBool _ | VNumber _ | VString _ => true
  | _ => false
  end.

(** What the walk over an object's entries leaves under the key of the entry
    value [v], in a heap [h] and with [visited] already seen when the walk
    starts: [None] is an absent key. *)
Definition entry_outcome (h : list object) (visited : gset loc) (v : value)
    (t : option tree) : Prop :=
  match v with
  | VUndefined | VNull => t = None
  | VBool _ | VNumber _ | VString _ => t = Some (Stored v)
  | VBigInt z => t = Some (Stored (VString (BigInt_toString z)))
  | VSymbol description => t = Some (Stored (VString ("Symbol(" ++ description ++ ")")))
  | VFunction => t = Some (Stored (VString "[Function]"))
  | VRef a =>
      match h !! a with
      | Some (ODate iso) => exists text, iso = Some text /\ t = Some (Stored (VString text))
      | Some (OSet elements) => t = Some (NewArray (map Stored elements))
      | Some (OMap entries) => t = Some (NewObject (from_entries (raw_entries entries)))
      | Some (OArray items) => exists ts, t = Some (NewArray ts) /\ length ts = length items
      | Some (OPlain _) => is_Some t /\ (a ∈ visited -> t = Some circular_marker)
      | None => True
      end
  end.

(** A computation that calls [toJsonSafe] finishes from [s]: with enough fuel
    it gives one outcome, whatever the fuel beyond; the store it leaves is
    closed, extends [s], and has no more unseen objects than [s]. *)
Definition finishes {A : Type} (run : nat -> M A) (s : state) : Prop :=
  exists n r s',
    (forall fuel, (n <= fuel)%nat -> run fuel s = Some (r, s'))
    /\ state_closed s' /\ extends s s' /\ (unseen s' <= unseen s)%nat.

(** [Object.entries] of a plain object or an array. *)
Definition entries_of (o : object) : option (list (string * value)) :=
  match o with
  | OPlain props => Some props
  | OArray items => Some (index_entries items)
  | _ => None
  end.

(** What a JSON serializer takes without throwing or dropping: the claim's
    objects, arrays, strings, numbers and booleans. *)
Fixpoint json_native (t : tree) : bool :=
  match t with
  | Stored (VBool _ | VNumber _ | VString _) => true
  | Stored _ => false
  | NewArray items => forallb json_native items
  | NewObject props => forallb (fun kv => json_native (snd kv)) props
  end.

(** No [Date] of the heap is invalid. *)
Definition dates_valid (h : list object) : Prop :=
  Forall (fun o => o <> ODate None) h.

(** The error of an invalid [Date] after [n] enclosing calls have caught and
    rethrown it. *)
Definition wrapped (n : nat) : error := Nat.iter n conversion_error RangeError.

Definition is_reference (v : value) : bool :=
  match v with
  | VRef _ => true
  | _ => false
  end.

(** An object that no branch of the walk copies raw: in an array under a
    field every element is plain or an object, and a [Set] or a [Map] holds
    plain values only. *)
Definition tame (o : object) : bool :=
  match o with
  | OPlain _ | ODate _ => true
  | OArray items => forallb (fun item => is_plain item || is_reference item) items
  | OSet elements => forallb is_plain elements
  | OMap entries => forallb (fun kv => is_plain (snd kv)) entries
  end.

Definition heap_tame (h : list object) : Prop := Forall (fun o => tame o = true) h.

End Sanitizer.

(** * [verify]'s handling of the facilitator's response ([src/app/facilitator.js]) *)

Module Facilitator.

Import Codec.

(** The response [fetch] resolved to: its status line, and what [res.json()]
    resolves to (a parsed body) or rejects with. *)
Record response := Response {
  status : Z;
  statusText : string;
  json : completion value
}.

(** The result [{isValid: false, errorMessage}]. *)
Definition verify_failure (errorMessage : value) : value :=
  VObject [("isValid", VBool false); ("errorMessage", errorMessage)].

(** [verify] from [if (res.status !== 200)] on. *)
Definition verify_response (res : response) : completion value :=
  if negb (status res =? 200) then
    let errorMessage := VString ("Failed to verify payment: " ++ statusText res) in
    let errorMessage' :=
      match (do errorData <- json res; get_prop errorData "error") with
      | Normal error_field => if ToBoolean error_field then error_field else errorMessage
      | Throw _ => errorMessage
      end in
    Normal (verify_failure errorMessage')
  else json res.

(** ** The requests of [verify] and [settle]

    [useFacilitator(facilitator)] closes [verify] and [settle] over the
    config.  Of the config: its [url] property ([undefined] when there is
    none), and, when [createAuthHeaders] is there, what awaiting its call
    gives.  [None] is a [facilitator] that is [undefined].  What is written
    to the console is not modelled; what is evaluated to write it is. *)
Record config := Config {
  url : value;
  createAuthHeaders : option (completion value)
}.

(** What [fetch] is called with. *)
Record request := Request {
  endpoint : string;
  method : string;
  headers : list (string * value);
  body : string
}.

Definition DEFAULT_FACILITATOR_URL : string := "https://facilitator.aeon.xyz".

(** [facilitator?.url || DEFAULT_FACILITATOR_URL] *)
Definition facilitator_url (facilitator : option config) : value :=
  match facilitator with
  | Some c => if ToBoolean (url c) then url c else VString DEFAULT_FACILITATOR_URL
  | None => VString DEFAULT_FACILITATOR_URL
  end.

Definition default_headers : list (string * value) :=
  [("Content-Type", VString "application/json")].

(** The headers of a request: [{...headers, ...authHeaders.verify}] (or
    [.settle]) when the config has [createAuthHeaders], the default ones
    otherwise. *)
Definition request_headers (facilitator : option config) (operation : string)
    : completion (list (string * value)) :=
  match facilitator with
  | Some c =>
      match createAuthHeaders c with
      | Some call =>
          do authHeaders <- call;
          do own <- get_prop authHeaders operation;
          Normal (define_all (own_entries own) (from_entries default_headers))
      | None => Normal default_headers
      end
  | None => Normal default_headers
  end.

Definition double_quote : string := String (ascii_of_nat 34) EmptyString.

(** A run of [verify] or [settle]: the requests it sent and how it ended;
    [None] when the sanitizer ran out of fuel. *)
Definition run (A : Type) : Type := option (list request * completion A).

Section Client.

Variable E : Engine.

(** [JSON.stringify({payload, paymentRequirements})] on the sanitized
    requirements, the engine's; the heap is there for the references the
    sanitizer stored as they are. *)
Variable JSON_stringify_request :
  value -> list Sanitizer.object -> Sanitizer.tree -> completion string.

Variable fetch : request -> completion response.

Variable facilitator : option config.

(** One [-H] option of the curl command that [verify] writes to the console. *)
Definition header_option (kv : string * value) : completion string :=
  do text <- ToString E (snd kv);
  Normal ("-H " ++ double_quote ++ fst kv ++ ": " ++ text ++ double_quote).

Definition curl_command (headers : list (string * value)) (requestBody target : string)
    : completion string :=
  do options <- sequence (map header_option headers);
  Normal ("curl -X POST " ++ join_with " " options ++ " -d '" ++ requestBody ++ "' "
          ++ double_quote ++ target ++ "/verify" ++ double_quote).

Definition verify (fuel : nat) (h : list Sanitizer.object)
    (payload : value) (paymentRequirements : Sanitizer.value) : run value :=
  match request_headers facilitator "verify" with
  | Throw e => Some ([], Throw e)
  | Normal headers =>
      match Sanitizer.toJsonSafe fuel paymentRequirements (Sanitizer.State h ∅) with
      | None => None
      | Some (Throw e, _) => Some ([], Throw e)
      | Some (Normal safe, s) =>
          match (do requestBody <- JSON_stringify_request payload (Sanitizer.heap s) safe;
                 do target <- ToString E (facilitator_url facilitator);
                 do _ <- curl_command headers requestBody target;
                 Normal (Request (target ++ "/verify") "POST" headers requestBody)) with
          | Throw e => Some ([], Throw e)
          | Normal req => Some ([req], do res <- fetch req; verify_response res)
          end
      end
  end.

(** [settle] from [if (res.status !== 200)] on.  The body text read for the
    console does not reach the error. *)
Definition settle_response (res : response) : completion value :=
  if negb (status res =? 200) then
    Throw (Error ("Failed to settle payment: "
                  ++ Number_toString E (number_of_Z (status res)) ++ " " ++ statusText res))
  else json res.

Definition settle (fuel : nat) (h : list Sanitizer.object)
    (payload : value) (paymentRequirements : Sanitizer.value) : run value :=
  match request_headers facilitator "settle" with
  | Throw e => Some ([], Throw e)
  | Normal headers =>
      match ToString E (facilitator_url facilitator) with
      | Throw e => Some ([], Throw e)
      | Normal target =>
          match Sanitizer.toJsonSafe fuel paymentRequirements (Sanitizer.State h ∅) with
          | None => None
          | Some (Throw e, _) => Some ([], Throw e)
          | Some (Normal safe, s) =>
              match JSON_stringify_request payload (Sanitizer.heap s) safe with
              | Throw e => Some ([], Throw e)
              | Normal requestBody =>
                  let req := Request (target ++ "/settle") "POST" headers requestBody in
                  Some ([req], do res <- fetch req; settle_response res)
              end
          end
      end
  end.

End Client.

End Facilitator.

(** * The smoke test ([src/unnamed/part_000])

    The async function of the smoke test from [useFacilitator] on: verify,
    then settle.  The payment payload comes from [createPaymentHeader] of the
    x402 package and is taken as given. *)

Module SmokeTest.

Import Codec Facilitator.

Definition facilitatorUrl : string := "https://facilitator.aeon.xyz".

Definition TO_ADDRESS : string := "0x14276B249fC7c640Ee2406F28EF9f26E1069b5e8".

Definition X402BNB_ADDRESS : string := "0xFD8578De9Bf1D6e4E387a02747B3d9F0E2B1757D".

(** [paymentRequirements], its nested objects after it; [amountRequired] is
    the double [0.0001]. *)
Definition requirements_heap : list Sanitizer.object :=
  [Sanitizer.OPlain
     [("scheme", Sanitizer.VString "exact");
      ("namespace", Sanitizer.VString "evm");
      ("tokenAddress", Sanitizer.VString X402BNB_ADDRESS);
      ("amountRequired", Sanitizer.VNumber (S754_finite false 7378697629483821 (-66)));
      ("amountRequiredFormat", Sanitizer.VString "humanReadable");
      ("payToAddress", Sanitizer.VString TO_ADDRESS);
      ("networkId", Sanitizer.VString "56");
      ("description", Sanitizer.VString "Payment of 0.0001 x402BNB");
      ("tokenSymbol", Sanitizer.VString "x402BNB");
      ("tokenDecimals", Sanitizer.VNumber (number_of_Z 18));
      ("outputSchema", Sanitizer.VRef 1);
      ("extra", Sanitizer.VRef 3)];
   Sanitizer.OPlain [("input", Sanitizer.VRef 2)];
   Sanitizer.OPlain
     [("type", Sanitizer.VString "http");
      ("method", Sanitizer.VString "GET");
      ("discoverable", Sanitizer.VBool true)];
   Sanitizer.OPlain
     [("name", Sanitizer.VString "x402 Wrapped BNB");
      ("version", Sanitizer.VString "1")]].

Definition paymentRequirements : Sanitizer.value := Sanitizer.VRef 0.

(** The copy the sanitizer makes of [paymentRequirements]. *)
Definition sanitized_requirements : Sanitizer.tree :=
  Sanitizer.NewObject
    [("scheme", Sanitizer.Stored (Sanitizer.VString "exact"));
     ("namespace", Sanitizer.Stored (Sanitizer.VString "evm"));
     ("tokenAddress", Sanitizer.Stored (Sanitizer.VString X402BNB_ADDRESS));
     ("amountRequired",
      Sanitizer.Stored (Sanitizer.VNumber (S754_finite false 7378697629483821 (-66))));
     ("amountRequiredFormat", Sanitizer.Stored (Sanitizer.VString "humanReadable"));
     ("payToAddress", Sanitizer.Stored (Sanitizer.VString TO_ADDRESS));
     ("networkId", Sanitizer.Stored (Sanitizer.VString "56"));
     ("description", Sanitizer.Stored (Sanitizer.VString "Payment of 0.0001 x402BNB"));
     ("tokenSymbol", Sanitizer.Stored (Sanitizer.VString "x402BNB"));
     ("tokenDecimals", Sanitizer.Stored (Sanitizer.VNumber (number_of_Z 18)));
     ("outputSchema",
      Sanitizer.NewObject
        [("input",
          Sanitizer.NewObject
            [("type", Sanitizer.Stored (Sanitizer.VString "http"));
             ("method", Sanitizer.Stored (Sanitizer.VString "GET"));
             ("discoverable", Sanitizer.Stored (Sanitizer.VBool true))])]);
     ("extra",
      Sanitizer.NewObject
        [("name", Sanitizer.Stored (Sanitizer.VString "x402 Wrapped BNB"));
         ("version", Sanitizer.Stored (Sanitizer.VString "1"))])].

Section Flow.

Variable E : Engine.

Variable JSON_stringify_request :
  value -> list Sanitizer.object -> Sanitizer.tree -> completion string.

Variable fetch : request -> completion response.

Definition facilitator : option config := Some (Config (VString facilitatorUrl) None).

(** [if (!verifyResp.isValid) throw new Error(...)] *)
Definition check_verified (verifyResp : value) : completion unit :=
  do isValid <- get_prop verifyResp "isValid";
  if negb (ToBoolean isValid) then
    do errorMessage <- get_prop verifyResp "errorMessage";
    do text <- ToString E errorMessage;
    Throw (Error ("Failed to verify payment on facilitator: " ++ text))
  else Normal tt.

(** Steps 2 and 3: what was sent, and how the function ended (its result is
    [undefined]). *)
Definition verify_then_settle (fuel : nat) (paymentPayload : value) : run value :=
  match verify E JSON_stringify_request fetch facilitator fuel requirements_heap
               paymentPayload paymentRequirements with
  | None => None
  | Some (sent, Throw e) => Some (sent, Throw e)
  | Some (sent, Normal verifyResp) =>
      match check_verified verifyResp with
      | Throw e => Some (sent, Throw e)
      | Normal _ =>
          match settle E JSON_stringify_request fetch facilitator fuel requirements_heap
                       paymentPayload paymentRequirements with
          | None => None
          | Some (sent', outcome) =>
              Some ((sent ++ sent')%list, do settleResp <- outcome; Normal VUndefined)
          end
      end
  end.

End Flow.

End SmokeTest.

(** * Sample data *)

Module Samples.

(** A signed authorization of [2^200] token units. *)
Definition authorization_fields : list (string * Codec.value) :=
  [("from", Codec.VString "0x857b06519E91e3A54538791bDbb0E22373e36b66");
   ("to", Codec.VString "0x14276B249fC7c640Ee2406F28EF9f26E1069b5e8");
   ("value", Codec.VBigInt (2 ^ 200));
   ("validAfter", Codec.VBigInt 0);
   ("validBefore", Codec.VBigInt 1893456000);
   ("nonce", Codec.VString "0xf3746613c2d920b5fdabc0856f2aeb2d4f88ee6037b8cc5d04a71a4462f13480");
   ("version", Codec.VString "1")].

Definition signature : string :=
  "0x2d6a7588d6acca505cbf0d9a4a227e0c52c6c34008c8e8986a1283259764173608a2ce6496642e377d6da8dbbf5836e9bd15092f9ecab05ded3d6293af148b571c".

Definition payload_fields : list (string * Codec.value) :=
  [("type", Codec.VString "authorization");
   ("signature", Codec.VString signature);
   ("authorization", Codec.VObject authorization_fields)].

Definition payment_fields : list (string * Codec.value) :=
  [("x402Version", Codec.VNumber (number_of_Z 1));
   ("scheme", Codec.VString "exact");
   ("networkId", Codec.VString "56");
   ("payload", Codec.VObject payload_fields)].

Definition payment : Codec.value := Codec.VObject payment_fields.

(** What the reference engine encodes [payment] to. *)
Definition payment_encoded : string :=
  "eyJ4NDAyVmVyc2lvbiI6MSwic2NoZW1lIjoiZXhhY3QiLCJuZXR3b3JrSWQiOiI1NiIsInBheWxvYWQiOnsidHlwZSI6ImF1dGhvcml6YXRpb24iLCJzaWduYXR1cmUiOiIweDJkNmE3NTg4ZDZhY2NhNTA1Y2JmMGQ5YTRhMjI3ZTBjNTJjNmMzNDAwOGM4ZTg5ODZhMTI4MzI1OTc2NDE3MzYwOGEyY2U2NDk2NjQyZTM3N2Q2ZGE4ZGJiZjU4MzZlOWJkMTUwOTJmOWVjYWIwNWRlZDNkNjI5M2FmMTQ4YjU3MWMiLCJhdXRob3JpemF0aW9uIjp7ImZyb20iOiIweDg1N2IwNjUxOUU5MWUzQTU0NTM4NzkxYkRiYjBFMjIzNzNlMzZiNjYiLCJ0byI6IjB4MTQyNzZCMjQ5ZkM3YzY0MEVlMjQwNkYyOEVGOWYyNkUxMDY5YjVlOCIsInZhbHVlIjoiMTYwNjkzODA0NDI1ODk5MDI3NTU0MTk2MjA5MjM0MTE2MjYwMjUyMjIwMjk5Mzc4Mjc5MjgzNTMwMTM3NiIsInZhbGlkQWZ0ZXIiOiIwIiwidmFsaWRCZWZvcmUiOiIxODkzNDU2MDAwIiwibm9uY2UiOiIweGYzNzQ2NjEzYzJkOTIwYjVmZGFiYzA4NTZmMmFlYjJkNGY4OGVlNjAzN2I4Y2M1ZDA0YTcxYTQ0NjJmMTM0ODAiLCJ2ZXJzaW9uIjoiMSJ9fX0=".

(** An authorization payload as a JSON tree, its numeric fields as given. *)
Definition received (value validAfter validBefore : string) (signature : Codec.value)
    : list (string * Codec.value) :=
  [("type", Codec.VString "authorization");
   ("signature", signature);
   ("authorization",
    Codec.VObject [("value", Codec.VString value);
                   ("validAfter", Codec.VString validAfter);
                   ("validBefore", Codec.VString validBefore);
                   ("nonce", Codec.VString "n");
                   ("version", Codec.VString "1")])].

(** base64 of the JSON text of [{payload: received "" "0x10" "2" "0xabc"}]:
    an empty [value] and a hexadecimal [validAfter]. *)
Definition lenient_encoded : string :=
  "eyJwYXlsb2FkIjp7InR5cGUiOiJhdXRob3JpemF0aW9uIiwic2lnbmF0dXJlIjoiMHhhYmMiLCJhdXRob3JpemF0aW9uIjp7InZhbHVlIjoiIiwidmFsaWRBZnRlciI6IjB4MTAiLCJ2YWxpZEJlZm9yZSI6IjIiLCJub25jZSI6Im4iLCJ2ZXJzaW9uIjoiMSJ9fX0=".

(** base64 of the JSON text of [{payload: received "1.5" "1" "2" "0xabc"}]. *)
Definition fractional_encoded : string :=
  "eyJwYXlsb2FkIjp7InR5cGUiOiJhdXRob3JpemF0aW9uIiwic2lnbmF0dXJlIjoiMHhhYmMiLCJhdXRob3JpemF0aW9uIjp7InZhbHVlIjoiMS41IiwidmFsaWRBZnRlciI6IjEiLCJ2YWxpZEJlZm9yZSI6IjIiLCJub25jZSI6Im4iLCJ2ZXJzaW9uIjoiMSJ9fX0=".

(** [{a: undefined, b: null, c: 1}] *)
Definition sparse_heap : list Sanitizer.object :=
  [Sanitizer.OPlain [("a", Sanitizer.VUndefined); ("b", Sanitizer.VNull);
                     ("c", Sanitizer.VNumber (number_of_Z 1))]].

(** [x = {}; x.self = x] *)
Definition self_heap : list Sanitizer.object :=
  [Sanitizer.OPlain [("self", Sanitizer.VRef 0)]].

(** [[1, 2, 3]] *)
Definition array_heap : list Sanitizer.object :=
  [Sanitizer.OArray [Sanitizer.VNumber (number_of_Z 1); Sanitizer.VNumber (number_of_Z 2);
                     Sanitizer.VNumber (number_of_Z 3)]].

(** [{s: new Set([123456789012345678901234567890n])}] *)
Definition nested_set_heap : list Sanitizer.object :=
  [Sanitizer.OPlain [("s", Sanitizer.VRef 1)];
   Sanitizer.OSet [Sanitizer.VBigInt 123456789012345678901234567890]].

(** [{m: new Map([["k", 1n]])}] and [{xs: [1n]}] *)
Definition nested_map_heap : list Sanitizer.object :=
  [Sanitizer.OPlain [("m", Sanitizer.VRef 1)];
   Sanitizer.OMap [("k", Sanitizer.VBigInt 1)]].

Definition bigint_array_heap : list Sanitizer.object :=
  [Sanitizer.OPlain [("xs", Sanitizer.VRef 1)];
   Sanitizer.OArray [Sanitizer.VBigInt 1]].

(** [y = {k: 1}; {a: y, b: y}]: [y] is shared, nothing is cyclic. *)
Definition shared_heap : list Sanitizer.object :=
  [Sanitizer.OPlain [("a", Sanitizer.VRef 1); ("b", Sanitizer.VRef 1)];
   Sanitizer.OPlain [("k", Sanitizer.VNumber (number_of_Z 1))]].

(** A 402 response with body [{"error": "insufficient funds"}], and a 500
    response with body [{"error": ""}]. *)
Definition payment_required : Facilitator.response :=
  Facilitator.Response 402 "Payment Required"
    (Normal (Codec.VObject [("error", Codec.VString "insufficient funds")])).

Definition empty_error : Facilitator.response :=
  Facilitator.Response 500 "Internal Server Error"
    (Normal (Codec.VObject [("error", Codec.VString "")])).

(** A payment of a type the codec does not know, and a payment whose
    signature lacks the [0x] prefix. *)
Definition other_type_fields : list (string * Codec.value) :=
  [("x402Version", Codec.VNumber (number_of_Z 1));
   ("payload", Codec.VObject [("type", Codec.VString "foo")])].

Definition unsigned_payload_fields : list (string * Codec.value) :=
  [("type", Codec.VString "authorization");
   ("signature", Codec.VString "abc");
   ("authorization", Codec.VObject authorization_fields)].

Definition unsigned_fields : list (string * Codec.value) :=
  [("x402Version", Codec.VNumber (number_of_Z 1));
   ("payload", Codec.VObject unsigned_payload_fields)].

(** base64 of the JSON text of an authorization payload whose [value] is the
    number [5] and whose [validAfter] is [true]. *)
Definition coerced_encoded : string :=
  "eyJwYXlsb2FkIjp7InR5cGUiOiJhdXRob3JpemF0aW9uIiwic2lnbmF0dXJlIjoiMHhhYmMiLCJhdXRob3JpemF0aW9uIjp7InZhbHVlIjo1LCJ2YWxpZEFmdGVyIjp0cnVlLCJ2YWxpZEJlZm9yZSI6IjIiLCJub25jZSI6Im4iLCJ2ZXJzaW9uIjoiMSJ9fX0=".

(** What [JSON.parse] makes of it. *)
Definition coerced_payload : list (string * Codec.value) :=
  [("type", Codec.VString "authorization");
   ("signature", Codec.VString "0xabc");
   ("authorization",
    Codec.VObject [("value", Codec.VNumber (number_of_Z 5));
                   ("validAfter", Codec.VBool true);
                   ("validBefore", Codec.VString "2");
                   ("nonce", Codec.VString "n");
                   ("version", Codec.VString "1")])].

(** [new Date(0)] *)
Definition date_heap : list Sanitizer.object :=
  [Sanitizer.ODate (Some "1970-01-01T00:00:00.000Z")].

(** [{n: 10n, s: Symbol("id"), f: function () {}, d: new Date(0)}] *)
Definition non_native_heap : list Sanitizer.object :=
  [Sanitizer.OPlain [("n", Sanitizer.VBigInt 10); ("s", Sanitizer.VSymbol "id");
                     ("f", Sanitizer.VFunction); ("d", Sanitizer.VRef 1)];
   Sanitizer.ODate (Some "1970-01-01T00:00:00.000Z")].

(** [new Map([["a", null], ["b", 1], ["c", 10n]])] *)
Definition map_heap : list Sanitizer.object :=
  [Sanitizer.OMap [("a", Sanitizer.VNull); ("b", Sanitizer.VNumber (number_of_Z 1));
                   ("c", Sanitizer.VBigInt 10)]].

(** [{xs: [1n, null, "a"]}] *)
Definition mixed_array_heap : list Sanitizer.object :=
  [Sanitizer.OPlain [("xs", Sanitizer.VRef 1)];
   Sanitizer.OArray [Sanitizer.VBigInt 1; Sanitizer.VNull; Sanitizer.VString "a"]].

(** An engine that writes the text [{}] for every request body, and a
    facilitator that answers every request with the 402 response. *)
Definition empty_body (payload : Codec.value) (h : list Sanitizer.object)
    (safe : Sanitizer.tree) : completion string :=
  Normal "{}".

Definition answer_payment_required (req : Facilitator.request)
    : completion Facilitator.response :=
  Normal payment_required.

End Samples.

(** * Properties *)

(** ** Property lists *)

Section PropertyListFacts.

Context {V : Type}.
Implicit Types (k : string) (v : V) (ps : list (string * V)).

Lemma get_None_keys k ps : get k ps = None <-> ~ In k (keys ps).
Proof.
  induction ps as [|[k' v'] ps IH]; simpl.
  - tauto.
  - destruct (String.eqb_spec k' k) as [->|Hne].
    + split; [discriminate | intros H; exfalso; apply H; now left].
    + rewrite IH. split; [intros H [?|?]; [congruence | tauto] | tauto].
Qed.

Lemma has_true_keys k ps : has k ps = true <-> In k (keys ps).
Proof.
  unfold has. destruct (get k ps) eqn:Hg.
  - split; [intros _ | reflexivity].
    destruct (in_dec string_dec k (keys ps)) as [?|Hn]; [assumption|].
    apply get_None_keys in Hn. congruence.
  - apply get_None_keys in Hg. split; [discriminate | tauto].
Qed.

Lemma has_false_keys k ps : has k ps = false <-> ~ In k (keys ps).
Proof.
  rewrite <- has_true_keys. destruct (has k ps); split; congruence.
Qed.

Lemma keys_replace k v ps : keys (replace k v ps) = keys ps.
Proof.
  induction ps as [|[k' v'] ps IH]; simpl; [reflexivity|].
  destruct (String.eqb_spec k' k) as [->|Hne]; simpl; [reflexivity | now rewrite IH].
Qed.

Lemma get_replace k v k' ps :
  get k' (replace k v ps) = if String.eqb k k' then option_map (fun _ => v) (get k ps) else get k' ps.
Proof.
  induction ps as [|[k0 v0] ps IH]; simpl.
  - now destruct (String.eqb k k').
  - destruct (String.eqb_spec k0 k) as [->|Hne]; simpl.
    + now destruct (String.eqb k k').
    + destruct (String.eqb_spec k0 k') as [->|Hne'].
      * destruct (String.eqb_spec k k'); [congruence | reflexivity].
      * rewrite IH. destruct (String.eqb_spec k0 k); [congruence | reflexivity].
Qed.

Lemma get_replace_same k v ps : has k ps = true -> get k (replace k v ps) = Some v.
Proof.
  intros H. rewrite get_replace, String.eqb_refl.
  unfold has in H. now destruct (get k ps).
Qed.

Lemma get_replace_other k v k' ps : k <> k' -> get k' (replace k v ps) = get k' ps.
Proof.
  intros H. rewrite get_replace. now destruct (String.eqb_spec k k').
Qed.

Lemma replace_same_value k v ps : get k ps = Some v -> replace k v ps = ps.
Proof.
  induction ps as [|[k' v'] ps IH]; simpl; [reflexivity|].
  destruct (String.eqb_spec k' k) as [->|Hne].
  - now intros [= ->].
  - intros H. now rewrite IH.
Qed.

Lemma replace_replace k v v' ps : replace k v (replace k v' ps) = replace k v ps.
Proof.
  induction ps as [|[k' v0] ps IH]; simpl; [reflexivity|].
  destruct (String.eqb_spec k' k) as [->|Hne]; simpl.
  - now rewrite String.eqb_refl.
  - destruct (String.eqb_spec k' k); [congruence | now rewrite IH].
Qed.

Lemma replace_swap k1 v1 k2 v2 ps :
  k1 <> k2 -> replace k1 v1 (replace k2 v2 ps) = replace k2 v2 (replace k1 v1 ps).
Proof.
  intros Hne. induction ps as [|[k' v0] ps IH]; simpl; [reflexivity|].
  destruct (String.eqb_spec k' k2) as [E2|H2], (String.eqb_spec k' k1) as [E1|H1]; simpl.
  - congruence.
  - subst k'. destruct (String.eqb_spec k2 k1); [congruence|].
    now rewrite String.eqb_refl.
  - subst k'. destruct (String.eqb_spec k1 k2); [congruence|].
    now rewrite String.eqb_refl.
  - destruct (String.eqb_spec k' k1); [congruence|].
    destruct (String.eqb_spec k' k2); [congruence|]. now rewrite IH.
Qed.

Lemma get_app k ps qs :
  get k (ps ++ qs) = match get k ps with Some v => Some v | None => get k qs end.
Proof.
  induction ps as [|[k' v'] ps IH]; simpl; [reflexivity|].
  now destruct (String.eqb k' k).
Qed.

Lemma get_insert_index i k v k' ps :
  get k ps = None ->
  get k' (insert_index i k v ps) = if String.eqb k k' then Some v else get k' ps.
Proof.
  induction ps as [|[k0 v0] ps IH]; simpl; [reflexivity|].
  destruct (String.eqb_spec k0 k) as [->|Hne]; [discriminate|]. intros Hk.
  destruct (array_index k0) as [j|]; [destruct (j <? i)%N|]; simpl; try reflexivity.
  rewrite IH by assumption.
  destruct (String.eqb_spec k0 k') as [->|Hne'];
    [destruct (String.eqb_spec k k'); congruence | reflexivity].
Qed.

(** The map law of a property write. *)
Lemma get_define k v k' ps :
  get k' (define k v ps) = if String.eqb k k' then Some v else get k' ps.
Proof.
  unfold define, has. destruct (get k ps) eqn:Hk.
  - rewrite get_replace, Hk. reflexivity.
  - unfold insert_new. destruct (array_index k).
    + now apply get_insert_index.
    + rewrite get_app. simpl.
      destruct (String.eqb_spec k k') as [->|Hne]; [now rewrite Hk | now destruct (get k' ps)].
Qed.

Lemma get_define_same k v ps : get k (define k v ps) = Some v.
Proof. now rewrite get_define, String.eqb_refl. Qed.

Lemma get_define_other k v k' ps : k <> k' -> get k' (define k v ps) = get k' ps.
Proof. intros H. rewrite get_define. now destruct (String.eqb_spec k k'). Qed.

Lemma define_existing k v ps : has k ps = true -> define k v ps = replace k v ps.
Proof. intros H. unfold define. now rewrite H. Qed.

Lemma in_keys_insert_index i k v k' ps :
  In k' (keys (insert_index i k v ps)) <-> k' = k \/ In k' (keys ps).
Proof.
  induction ps as [|[k0 v0] ps IH]; simpl; [intuition congruence|].
  destruct (array_index k0) as [j|]; [destruct (j <? i)%N|]; simpl;
    rewrite ?IH; intuition congruence.
Qed.

Lemma NoDup_keys_insert_index i k v ps :
  ~ In k (keys ps) -> NoDup (keys ps) -> NoDup (keys (insert_index i k v ps)).
Proof.
  induction ps as [|[k0 v0] ps IH]; simpl; intros Hk Hnd.
  - apply NoDup_cons_2; [apply not_elem_of_nil | apply NoDup_nil_2].
  - apply NoDup_cons in Hnd as [Hk0 Hnd']. fold (keys ps) in *.
    rewrite list_elem_of_In in Hk0.
    assert (Hlast : NoDup (keys ((k, v) :: (k0, v0) :: ps))).
    { simpl. apply NoDup_cons_2; [rewrite list_elem_of_In; simpl; tauto|].
      apply NoDup_cons_2; [now rewrite list_elem_of_In | assumption]. }
    destruct (array_index k0) as [j|]; [destruct (j <? i)%N|]; try exact Hlast.
    simpl. apply NoDup_cons_2.
    + rewrite list_elem_of_In. fold (keys (insert_index i k v ps)).
      rewrite in_keys_insert_index. intros [->|?]; tauto.
    + apply IH; tauto.
Qed.

Lemma NoDup_keys_define k v ps : NoDup (keys ps) -> NoDup (keys (define k v ps)).
Proof.
  intros Hnd. unfold define. destruct (has k ps) eqn:Hk.
  - now rewrite keys_replace.
  - apply has_false_keys in Hk. unfold insert_new. destruct (array_index k).
    + now apply NoDup_keys_insert_index.
    + unfold keys in *. rewrite map_app. simpl.
      apply NoDup_app. split; [assumption|]. split.
      * intros x Hx Hx'. apply list_elem_of_In in Hx, Hx'. destruct Hx' as [<-|[]]. tauto.
      * apply NoDup_cons_2; [apply not_elem_of_nil | apply NoDup_nil_2].
Qed.

Lemma define_all_snoc (es : list (string * V)) k v ps :
  define_all (es ++ [(k, v)]) ps = define k v (define_all es ps).
Proof. unfold define_all. now rewrite fold_left_app. Qed.

Lemma NoDup_keys_define_all (es : list (string * V)) ps :
  NoDup (keys ps) -> NoDup (keys (define_all es ps)).
Proof.
  revert ps. induction es as [|[k v] es IH]; simpl; intros ps H; [assumption|].
  apply IH. now apply NoDup_keys_define.
Qed.

Lemma NoDup_keys_from_entries (es : list (string * V)) : NoDup (keys (from_entries es)).
Proof. apply NoDup_keys_define_all. constructor. Qed.

Lemma own_property_order_NoDup ps : own_property_order ps -> NoDup (keys ps).
Proof. intros H. rewrite <- H. apply NoDup_keys_from_entries. Qed.

Lemma get_from_entries k (es : list (string * V)) :
  NoDup (keys es) -> get k (from_entries es) = get k es.
Proof.
  induction es as [|[k0 v0] es IH] using rev_ind; intros Hnd; [reflexivity|].
  unfold from_entries. rewrite define_all_snoc, get_define, get_app. simpl.
  unfold keys in Hnd. rewrite map_app in Hnd. simpl in Hnd.
  apply NoDup_app in Hnd as (Hes & Hdisj & _).
  fold (from_entries es). rewrite IH by assumption.
  destruct (String.eqb_spec k0 k) as [->|Hne].
  - assert (Hk : get k es = None).
    { apply get_None_keys. intros Hin. apply (Hdisj k); apply list_elem_of_In; [assumption | now left]. }
    now rewrite Hk.
  - now destruct (get k es).
Qed.

(** Two property lists with the same keys in the same order, no key twice,
    and the same value under every key are equal. *)
Lemma property_list_ext ps qs :
  keys ps = keys qs -> NoDup (keys ps) -> (forall k, get k ps = get k qs) -> ps = qs.
Proof.
  revert qs. induction ps as [|[k v] ps IH]; intros [|[k' v'] qs]; simpl; try discriminate.
  - reflexivity.
  - intros [= <- Hkeys] Hnd Hget. apply NoDup_cons in Hnd as [Hk Hnd'].
    fold (keys ps) in *. rewrite list_elem_of_In in Hk.
    pose proof (Hget k) as Hk0. rewrite !String.eqb_refl in Hk0. injection Hk0 as <-.
    f_equal. apply IH; try assumption.
    intros k1. specialize (Hget k1).
    destruct (String.eqb_spec k k1) as [Heq|Hne]; [subst k1|assumption].
    assert (Hq : ~ In k (keys qs)) by (unfold keys in *; congruence).
    apply get_None_keys in Hk. apply get_None_keys in Hq. congruence.
Qed.

End PropertyListFacts.

Section PropertyListShape.

Context {V W : Type}.

(** Where a property is written depends on the keys alone. *)
Lemma has_same_keys k (ps : list (string * V)) (qs : list (string * W)) :
  keys ps = keys qs -> has k ps = has k qs.
Proof.
  intros H. destruct (has k qs) eqn:Hq.
  - apply has_true_keys. rewrite H. now apply has_true_keys.
  - apply has_false_keys. rewrite H. now apply has_false_keys.
Qed.

Lemma keys_insert_index_same_keys i k (v : V) (w : W) ps qs :
  keys ps = keys qs -> keys (insert_index i k v ps) = keys (insert_index i k w qs).
Proof.
  revert qs. induction ps as [|[k0 v0] ps IH]; intros [|[k1 w1] qs]; simpl; try discriminate.
  - reflexivity.
  - intros [= <- Hkeys].
    destruct (array_index k0) as [j|]; [destruct (j <? i)%N|]; simpl; f_equal;
      try (f_equal; exact Hkeys).
    now apply IH.
Qed.

Lemma keys_define_same_keys k (v : V) (w : W) ps qs :
  keys ps = keys qs -> keys (define k v ps) = keys (define k w qs).
Proof.
  intros H. unfold define. rewrite (has_same_keys k ps qs H).
  destruct (has k qs).
  - now rewrite !keys_replace.
  - unfold insert_new. destruct (array_index k).
    + now apply keys_insert_index_same_keys.
    + unfold keys in *. rewrite !map_app. simpl. now rewrite H.
Qed.

Lemma keys_define_all_same_keys (es : list (string * V)) (fs : list (string * W)) ps qs :
  keys es = keys fs -> keys ps = keys qs ->
  keys (define_all es ps) = keys (define_all fs qs).
Proof.
  revert fs ps qs. induction es as [|[k v] es IH]; intros [|[k' w] fs] ps qs; simpl; try discriminate.
  - intros _ H. exact H.
  - intros [= <- Hes] H. apply IH; [assumption|]. now apply keys_define_same_keys.
Qed.

End PropertyListShape.

(** Overwriting a value leaves an object's property order as it is. *)
Lemma own_property_order_replace {V : Type} k (v : V) ps :
  own_property_order ps -> own_property_order (replace k v ps).
Proof.
  intros H. pose proof (own_property_order_NoDup ps H) as Hnd.
  unfold own_property_order in *. apply property_list_ext.
  - unfold from_entries.
    rewrite (keys_define_all_same_keys (replace k v ps) ps [] []);
      [| apply keys_replace | reflexivity].
    fold (from_entries ps). now rewrite H, keys_replace.
  - apply NoDup_keys_from_entries.
  - intros k'. apply get_from_entries. now rewrite keys_replace.
Qed.

(** ** Decimal numerals of big integers *)

Lemma string_rev_onto_twice s a b :
  string_rev_onto (string_rev_onto s a) b = string_rev_onto a (s ++ b)%string.
Proof.
  revert a b. induction s as [|c s IH]; intros a b; simpl; [reflexivity|].
  now rewrite IH.
Qed.

Lemma string_rev_involutive s : string_rev (string_rev s) = s.
Proof.
  unfold string_rev. rewrite string_rev_onto_twice. simpl.
  induction s as [|c s IH]; [reflexivity|].
  change (String c (s ++ "")%string = String c s). now rewrite IH.
Qed.

Lemma no_whitespace_rev_onto s acc :
  no_whitespace s = true -> no_whitespace acc = true ->
  no_whitespace (string_rev_onto s acc) = true.
Proof.
  revert acc. induction s as [|c s IH]; intros acc; simpl; [auto|].
  intros [Hc Hs]%andb_prop Hacc. apply IH; [assumption|]. simpl. now rewrite Hc.
Qed.

Lemma trim_left_no_whitespace s : no_whitespace s = true -> trim_left s = s.
Proof.
  destruct s as [|c s]; simpl; [reflexivity|].
  intros [Hc _]%andb_prop. apply negb_true_iff in Hc. now rewrite Hc.
Qed.

Lemma trim_no_whitespace s : no_whitespace s = true -> trim s = s.
Proof.
  intros H. unfold trim. rewrite (trim_left_no_whitespace s H).
  rewrite trim_left_no_whitespace; [apply string_rev_involutive|].
  now apply no_whitespace_rev_onto.
Qed.

Lemma decimal_digit_no_whitespace c :
  is_decimal_digit c = true -> is_whitespace c = false.
Proof. destruct c as [[] [] [] [] [] [] [] []]; vm_compute; congruence. Qed.

Lemma all_digits_string_of_uint u : all_decimal_digits (NilEmpty.string_of_uint u) = true.
Proof. induction u; simpl; auto. Qed.

Lemma all_digits_no_whitespace s : all_decimal_digits s = true -> no_whitespace s = true.
Proof.
  induction s as [|c s IH]; simpl; [reflexivity|].
  intros [Hc Hs]%andb_prop. rewrite (decimal_digit_no_whitespace c Hc). simpl. auto.
Qed.

(** A run of decimal digits is read as a decimal literal: no prefix of it
    is a sign or a radix marker. *)
Lemma StrIntegerLiteral_digits s :
  all_decimal_digits s = true -> StrIntegerLiteral s = decimal_digits s.
Proof.
  destruct s as [|c1 s]; [reflexivity|]. simpl.
  intros [H1 Hs]%andb_prop.
  destruct c1 as [[] [] [] [] [] [] [] []]; try discriminate H1; try reflexivity.
  destruct s as [|c2 s]; [reflexivity|]. simpl in Hs.
  apply andb_prop in Hs as [H2 _].
  destruct c2 as [[] [] [] [] [] [] [] []]; try discriminate H2; reflexivity.
Qed.

Lemma decimal_digits_string_of_uint u :
  u <> Decimal.Nil ->
  decimal_digits (NilEmpty.string_of_uint u) = Some (Z.of_uint u).
Proof.
  intros Hu. unfold decimal_digits. rewrite NilEmpty.usu.
  destruct u; try reflexivity. congruence.
Qed.

Lemma to_uint_not_Nil p : Pos.to_uint p <> Decimal.Nil.
Proof.
  intros H. pose proof (DecimalPos.Unsigned.of_to p) as Hp. rewrite H in Hp. discriminate.
Qed.

Lemma of_uint_to_uint p : Z.of_uint (Pos.to_uint p) = Z.pos p.
Proof.
  unfold Z.of_uint. now rewrite DecimalPos.Unsigned.of_to.
Qed.

Lemma string_of_uint_not_empty p : NilEmpty.string_of_uint (Pos.to_uint p) <> "".
Proof.
  intros Hs. destruct (Pos.to_uint p) eqn:Hu; try discriminate Hs.
  now apply to_uint_not_Nil in Hu.
Qed.

Lemma StringToBigInt_no_whitespace s :
  no_whitespace s = true -> s <> "" -> StringToBigInt s = StrIntegerLiteral s.
Proof.
  intros H Hs. unfold StringToBigInt. rewrite (trim_no_whitespace s H).
  destruct s; [congruence | reflexivity].
Qed.

(** [BigInt(z.toString())] is [z]: the codec's two conversions are inverse. *)
Lemma StringToBigInt_toString z : StringToBigInt (BigInt_toString z) = Some z.
Proof.
  unfold BigInt_toString.
  destruct z as [|p|p]; [reflexivity| |]; simpl;
    pose proof (all_digits_string_of_uint (Pos.to_uint p)) as Hd;
    pose proof (all_digits_no_whitespace _ Hd) as Hw.
  - rewrite StringToBigInt_no_whitespace
      by (try assumption; apply string_of_uint_not_empty).
    rewrite (StrIntegerLiteral_digits _ Hd).
    rewrite decimal_digits_string_of_uint by apply to_uint_not_Nil.
    now rewrite of_uint_to_uint.
  - rewrite StringToBigInt_no_whitespace by (simpl; try rewrite Hw; easy).
    simpl.
    rewrite decimal_digits_string_of_uint by apply to_uint_not_Nil.
    now rewrite of_uint_to_uint.
Qed.

Example StringToBigInt_examples :
  StringToBigInt "1606938044258990275541962092341162602522202993782792835301376" = Some (2 ^ 200)
  /\ StringToBigInt "  -42 " = Some (-42)
  /\ StringToBigInt "" = Some 0
  /\ StringToBigInt "0x10" = Some 16
  /\ StringToBigInt "1.5" = None
  /\ StringToBigInt "12n" = None
  /\ StringToBigInt "-0x10" = None.
Proof. repeat split; vm_compute; reflexivity. Qed.

Section CodecProperties.

Import Codec.

(** ** The payment-payload codec *)

Lemma jstype_eqb_eq a b : jstype_eqb a b = true <-> a = b.
Proof. destruct a, b; simpl; split; congruence. Qed.

Lemma is_type_false v t : Codec.is_type v t = false <-> Codec.typeof v <> t.
Proof.
  unfold Codec.is_type. rewrite <- jstype_eqb_eq. now destruct (jstype_eqb _ _).
Qed.

Lemma get_prop_object props k :
  get_prop (VObject props) k = Normal (default VUndefined (get k props)).
Proof. reflexivity. Qed.

Lemma get_prop_truthy v k : ToBoolean v = true -> get_prop v k = Normal (read v k).
Proof. now destruct v. Qed.

(** Case analysis along the validator's checks. *)
Ltac validator_step H :=
  match type of H with
  | context [if ?b then _ else _] => destruct b eqn:?; try discriminate H
  | context [cbind ?m _] => destruct m eqn:?; simpl in H; try discriminate H
  end.

(** C8. Whenever [validatePaymentPayload] returns, it returns the very object
    it was given: validation checks the object and transforms nothing. *)
Theorem validatePaymentPayload_returns_input (obj result : value) :
  validatePaymentPayload obj = Normal result -> result = obj.
Proof.
  unfold validatePaymentPayload. intros H.
  repeat validator_step H. now injection H.
Qed.

(** C5 (amended).  For an object whose [payload] is an object: with an
    authorization-like [payload.type] and one of the listed defects the
    validator throws the authorization error; with any other truthy
    [payload.type] it throws the unknown-payload-type error; with a falsy
    [payload.type] (absent, empty, zero) it throws the structure error. *)
Theorem validatePaymentPayload_rejections (top inner : list (string * value)) :
  get "payload" top = Some (VObject inner) ->
  let type := read (VObject inner) "type" in
  (is_authorization_type type = true -> authorization_defect (VObject inner) ->
   validatePaymentPayload (VObject top) = Throw authorization_error)
  /\ (is_authorization_type type = false -> ToBoolean type = true ->
      validatePaymentPayload (VObject top) = Throw payload_type_error)
  /\ (ToBoolean type = false ->
      validatePaymentPayload (VObject top) = Throw structure_error).
Proof.
  intros Hpayload type.
  assert (Hread : read (VObject top) "payload" = VObject inner)
    by (unfold read; simpl; now rewrite Hpayload).
  unfold validatePaymentPayload. simpl. rewrite !Hread. simpl. fold type.
  split; [|split].
  - intros Htype Hdefect.
    assert (Htruthy : ToBoolean type = true).
    { unfold is_authorization_type, strict_equal_string in Htype.
      destruct type; try discriminate Htype. simpl.
      destruct (String.eqb_spec s "") as [->|]; [discriminate Htype | reflexivity]. }
    rewrite Htruthy, Htype. simpl.
    set (authorization := read (VObject inner) "authorization") in *.
    destruct (ToBoolean authorization) eqn:Hau; simpl;
      [| reflexivity].
    rewrite !(get_prop_truthy authorization) by assumption. simpl.
    set (signature := read (VObject inner) "signature") in *.
    repeat match goal with
           | |- context [negb (Codec.is_type ?v ?t)] =>
               destruct (Codec.is_type v t) eqn:?; simpl; [| reflexivity]
           end.
    destruct (ToBoolean signature) eqn:Hsig; simpl; [| reflexivity].
    subst authorization signature.
    destruct Hdefect as [H|H|H|H|H|H|H|s Hs Hprefix];
      try (apply is_type_false in H; congruence); try congruence.
    rewrite Hs. simpl. now rewrite Hprefix.
  - intros Htype Htruthy. now rewrite Htruthy, Htype.
  - intros Hfalsy. now rewrite Hfalsy.
Qed.

Lemma has_of_get {V : Type} k (v : V) ps : get k ps = Some v -> has k ps = true.
Proof. unfold has. now intros ->. Qed.

Lemma BigInt_string E s z : StringToBigInt s = Some z -> BigInt E (VString s) = Normal (VBigInt z).
Proof. simpl. now intros ->. Qed.

Lemma BigInt_unreadable E s : StringToBigInt s = None -> BigInt E (VString s) = Throw SyntaxError.
Proof. simpl. now intros ->. Qed.

Lemma cbind_Normal {A B : Type} (a : A) (k : A -> completion B) : cbind (Normal a) k = k a.
Proof. reflexivity. Qed.

Lemma read_get props k v : get k props = Some v -> read (VObject props) k = v.
Proof. unfold read. simpl. now intros ->. Qed.

Lemma get_prop_object' props k : get_prop (VObject props) k = Normal (read (VObject props) k).
Proof. reflexivity. Qed.

Lemma read_define_same k v props : read (VObject (define k v props)) k = v.
Proof. unfold read. cbn [own_entries]. now rewrite get_define_same. Qed.

Lemma read_define_other k v k' props :
  k <> k' -> read (VObject (define k v props)) k' = read (VObject props) k'.
Proof. intros Hne. unfold read. cbn [own_entries]. now rewrite get_define_other. Qed.

(** The object [convert_payment] builds from an authorization-like tree when
    the three conversions return. *)
Lemma convert_payment_authorization f top inner fields v1 v2 v3 :
  get "payload" top = Some (VObject inner) ->
  is_authorization_type (read (VObject inner) "type") = true ->
  get "authorization" inner = Some (VObject fields) ->
  f (read (VObject fields) "value") = Normal v1 ->
  f (read (VObject fields) "validAfter") = Normal v2 ->
  f (read (VObject fields) "validBefore") = Normal v3 ->
  convert_payment f (VObject top)
  = Normal (VObject (define "payload"
      (VObject (define "authorization"
         (VObject (define "validBefore" v3
                     (define "validAfter" v2
                        (define "value" v1 (from_entries fields)))))
         (from_entries inner)))
      (from_entries top))).
Proof.
  intros Hpayload Htype Hauth H1 H2 H3. unfold convert_payment.
  rewrite get_prop_object', (read_get _ _ _ Hpayload), cbind_Normal.
  rewrite !get_prop_object', !cbind_Normal, Htype.
  rewrite (read_get _ _ _ Hauth), !get_prop_object', !cbind_Normal.
  rewrite H1, cbind_Normal, ?get_prop_object', ?cbind_Normal.
  rewrite H2, cbind_Normal, ?get_prop_object', ?cbind_Normal.
  now rewrite H3, cbind_Normal.
Qed.

(** C2 (amended).  The decoded JSON tree is authorization-like.  When one of
    [value], [validAfter], [validBefore] holds a string that is no
    [StringIntegerLiteral] (after trimming: not empty, not optionally signed
    decimal digits, not a [0x]/[0o]/[0b] literal), decoding throws.  When the
    three hold strings that [BigInt] reads, decoding converts each to the big
    integer read and goes on to validation; [BigInt] reads the empty and the
    all-white-space string as [0n], and [0x10] as [16n]. *)
Theorem decodePaymentPayload_unreadable_numeral
    (E : Engine) (payment decoded : string) (top inner fields : list (string * value)) :
  safeBase64Decode E payment = Normal decoded ->
  JSON_parse E decoded = Normal (VObject top) ->
  get "payload" top = Some (VObject inner) ->
  is_authorization_type (read (VObject inner) "type") = true ->
  get "authorization" inner = Some (VObject fields) ->
  (unreadable_numeral fields -> exists e, decodePaymentPayload E payment = Throw e)
  /\ (forall s1 s2 s3 z1 z2 z3,
        get "value" fields = Some (VString s1) -> StringToBigInt s1 = Some z1 ->
        get "validAfter" fields = Some (VString s2) -> StringToBigInt s2 = Some z2 ->
        get "validBefore" fields = Some (VString s3) -> StringToBigInt s3 = Some z3 ->
        exists obj,
          decodePaymentPayload E payment = validatePaymentPayload obj
          /\ read (read (read obj "payload") "authorization") "value" = VBigInt z1
          /\ read (read (read obj "payload") "authorization") "validAfter" = VBigInt z2
          /\ read (read (read obj "payload") "authorization") "validBefore" = VBigInt z3)
  /\ (forall s, trim s = "" -> StringToBigInt s = Some 0)
  /\ StringToBigInt "0x10" = Some 16.
Proof.
  intros Hdecode Hparse Hpayload Htype Hauth.
  split; [|split; [|split]].
  - intros (k & s & Hk & Hget & Hbad).
    unfold decodePaymentPayload. rewrite Hdecode, cbind_Normal, Hparse, cbind_Normal.
    unfold convert_payment.
    rewrite get_prop_object', (read_get _ _ _ Hpayload), cbind_Normal.
    rewrite !get_prop_object', !cbind_Normal, Htype.
    rewrite (read_get _ _ _ Hauth), !get_prop_object', !cbind_Normal.
    pose proof (BigInt_unreadable E s Hbad) as Hthrow.
    pose proof (read_get _ _ _ Hget) as Hread.
    destruct (BigInt E (read (VObject fields) "value")) eqn:H1; cbn [cbind]; [|eauto].
    destruct (BigInt E (read (VObject fields) "validAfter")) eqn:H2; cbn [cbind]; [|eauto].
    destruct (BigInt E (read (VObject fields) "validBefore")) eqn:H3; cbn [cbind]; [|eauto].
    destruct Hk as [-> | [-> | ->]]; congruence.
  - intros s1 s2 s3 z1 z2 z3 Hv1 Hz1 Hv2 Hz2 Hv3 Hz3.
    eexists. split.
    + unfold decodePaymentPayload. rewrite Hdecode, cbind_Normal, Hparse, cbind_Normal.
      rewrite (convert_payment_authorization (BigInt E) top inner fields
                 (VBigInt z1) (VBigInt z2) (VBigInt z3) Hpayload Htype Hauth).
      * rewrite cbind_Normal. reflexivity.
      * rewrite (read_get _ _ _ Hv1). now apply BigInt_string.
      * rewrite (read_get _ _ _ Hv2). now apply BigInt_string.
      * rewrite (read_get _ _ _ Hv3). now apply BigInt_string.
    + rewrite !read_define_same.
      rewrite !(read_define_other "validBefore") by discriminate.
      rewrite (read_define_other "validAfter" _ "value") by discriminate.
      now rewrite !read_define_same.
  - intros s Hs. unfold StringToBigInt. now rewrite Hs.
  - vm_compute. reflexivity.
Qed.

Section RoundTrip.

Variable E : Engine.

Variables (top inner fields : list (string * value)).
Variables (type nonce version signature : string).
Variables (value validAfter validBefore : Z).

Hypothesis top_order : own_property_order top.
Hypothesis top_payload : get "payload" top = Some (VObject inner).
Hypothesis inner_order : own_property_order inner.
Hypothesis inner_type : get "type" inner = Some (VString type).
Hypothesis type_authorization : type = "authorization" \/ type = "authorizationEip3009".
Hypothesis inner_authorization : get "authorization" inner = Some (VObject fields).
Hypothesis fields_order : own_property_order fields.
Hypothesis fields_value : get "value" fields = Some (VBigInt value).
Hypothesis fields_validAfter : get "validAfter" fields = Some (VBigInt validAfter).
Hypothesis fields_validBefore : get "validBefore" fields = Some (VBigInt validBefore).
Hypothesis fields_nonce : get "nonce" fields = Some (VString nonce).
Hypothesis fields_version : get "version" fields = Some (VString version).
Hypothesis inner_signature : get "signature" inner = Some (VString signature).
Hypothesis signature_prefix : String.prefix "0x" signature = true.

(** The authorization record as it travels: the numeric fields as decimal
    strings. *)
Let fields_sent : list (string * Codec.value) :=
  replace "validBefore" (VString (BigInt_toString validBefore))
    (replace "validAfter" (VString (BigInt_toString validAfter))
       (replace "value" (VString (BigInt_toString value)) fields)).

Let inner_sent : list (string * Codec.value) :=
  replace "authorization" (VObject fields_sent) inner.

Let top_sent : list (string * Codec.value) :=
  replace "payload" (VObject inner_sent) top.

Lemma type_is_authorization : is_authorization_type (VString type) = true.
Proof. destruct type_authorization as [H|H]; rewrite H; reflexivity. Qed.

Lemma convert_payment_to_strings :
  convert_payment (value_toString E) (VObject top) = Normal (VObject top_sent).
Proof.
  unfold convert_payment. cbn [own_entries]. rewrite top_order.
  rewrite get_prop_object', (read_get _ _ _ top_payload), cbind_Normal.
  cbn [own_entries]. rewrite inner_order.
  rewrite !get_prop_object', !cbind_Normal.
  rewrite (read_get _ _ _ inner_type), type_is_authorization.
  rewrite (read_get _ _ _ inner_authorization), !get_prop_object', !cbind_Normal.
  cbn [own_entries]. rewrite fields_order.
  rewrite (read_get _ _ _ fields_value), (read_get _ _ _ fields_validAfter),
    (read_get _ _ _ fields_validBefore).
  cbn [value_toString toString cbind].
  unfold top_sent, inner_sent, fields_sent.
  rewrite (define_existing "value") by now apply (has_of_get _ _ _ fields_value).
  rewrite (define_existing "validAfter")
    by (rewrite has_same_keys with (qs := fields) by (now rewrite keys_replace);
        now apply (has_of_get _ _ _ fields_validAfter)).
  rewrite (define_existing "validBefore")
    by (rewrite has_same_keys with (qs := fields) by (now rewrite !keys_replace);
        now apply (has_of_get _ _ _ fields_validBefore)).
  rewrite (define_existing "authorization") by now apply (has_of_get _ _ _ inner_authorization).
  now rewrite (define_existing "payload") by now apply (has_of_get _ _ _ top_payload).
Qed.

Lemma fields_sent_restored :
  replace "validBefore" (VBigInt validBefore)
    (replace "validAfter" (VBigInt validAfter)
       (replace "value" (VBigInt value) fields_sent)) = fields.
Proof.
  unfold fields_sent.
  rewrite (replace_swap "value" _ "validBefore") by discriminate.
  rewrite (replace_swap "value" _ "validAfter") by discriminate.
  rewrite (replace_replace "value"), (replace_same_value "value") by assumption.
  rewrite (replace_swap "validAfter" _ "validBefore") by discriminate.
  rewrite (replace_replace "validAfter"), (replace_same_value "validAfter") by assumption.
  rewrite replace_replace. now apply replace_same_value.
Qed.

Lemma convert_payment_from_strings :
  convert_payment (BigInt E) (VObject top_sent) = Normal (VObject top).
Proof.
  assert (Hfs : own_property_order fields_sent)
    by (unfold fields_sent; repeat apply own_property_order_replace; assumption).
  assert (His : own_property_order inner_sent)
    by (unfold inner_sent; now apply own_property_order_replace).
  assert (Hts : own_property_order top_sent)
    by (unfold top_sent; now apply own_property_order_replace).
  assert (Hget_payload : get "payload" top_sent = Some (VObject inner_sent))
    by (unfold top_sent; apply get_replace_same; now apply (has_of_get _ _ _ top_payload)).
  assert (Hget_type : get "type" inner_sent = Some (VString type))
    by (unfold inner_sent; now rewrite get_replace_other by discriminate).
  assert (Hget_auth : get "authorization" inner_sent = Some (VObject fields_sent))
    by (unfold inner_sent; apply get_replace_same; now apply (has_of_get _ _ _ inner_authorization)).
  assert (Hget_value : get "value" fields_sent = Some (VString (BigInt_toString value))).
  { unfold fields_sent. rewrite !get_replace_other by discriminate.
    apply get_replace_same. now apply (has_of_get _ _ _ fields_value). }
  assert (Hget_after : get "validAfter" fields_sent = Some (VString (BigInt_toString validAfter))).
  { unfold fields_sent. rewrite get_replace_other by discriminate.
    apply get_replace_same. rewrite has_same_keys with (qs := fields) by apply keys_replace.
    now apply (has_of_get _ _ _ fields_validAfter). }
  assert (Hget_before : get "validBefore" fields_sent = Some (VString (BigInt_toString validBefore))).
  { unfold fields_sent. apply get_replace_same.
    rewrite has_same_keys with (qs := fields) by (now rewrite !keys_replace).
    now apply (has_of_get _ _ _ fields_validBefore). }
  unfold convert_payment. cbn [own_entries]. rewrite Hts.
  rewrite get_prop_object', (read_get _ _ _ Hget_payload), cbind_Normal.
  cbn [own_entries]. rewrite His.
  rewrite !get_prop_object', !cbind_Normal.
  rewrite (read_get _ _ _ Hget_type), type_is_authorization.
  rewrite (read_get _ _ _ Hget_auth), !get_prop_object', !cbind_Normal.
  cbn [own_entries]. rewrite Hfs.
  rewrite (read_get _ _ _ Hget_value), (read_get _ _ _ Hget_after),
    (read_get _ _ _ Hget_before).
  rewrite (BigInt_string E _ _ (StringToBigInt_toString value)), !cbind_Normal.
  rewrite (BigInt_string E _ _ (StringToBigInt_toString validAfter)), !cbind_Normal.
  rewrite (BigInt_string E _ _ (StringToBigInt_toString validBefore)), !cbind_Normal.
  assert (Hkeys : keys fields_sent = keys fields)
    by (unfold fields_sent; now rewrite !keys_replace).
  rewrite (define_existing "value")
    by (rewrite (has_same_keys _ _ fields Hkeys); now apply (has_of_get _ _ _ fields_value)).
  rewrite (define_existing "validAfter")
    by (rewrite has_same_keys with (qs := fields) by (now rewrite keys_replace);
        now apply (has_of_get _ _ _ fields_validAfter)).
  rewrite (define_existing "validBefore")
    by (rewrite has_same_keys with (qs := fields) by (now rewrite !keys_replace);
        now apply (has_of_get _ _ _ fields_validBefore)).
  rewrite fields_sent_restored.
  rewrite (define_existing "authorization") by now apply (has_of_get _ _ _ Hget_auth).
  unfold inner_sent at 1. rewrite replace_replace, (replace_same_value _ _ _ inner_authorization).
  rewrite (define_existing "payload") by now apply (has_of_get _ _ _ Hget_payload).
  unfold top_sent. now rewrite replace_replace, (replace_same_value _ _ _ top_payload).
Qed.

Lemma validatePaymentPayload_accepts :
  validatePaymentPayload (VObject top) = Normal (VObject top).
Proof.
  unfold validatePaymentPayload. cbn [ToBoolean Codec.is_type Codec.typeof jstype_eqb negb orb].
  rewrite get_prop_object', (read_get _ _ _ top_payload), cbind_Normal.
  cbn [ToBoolean Codec.is_type Codec.typeof jstype_eqb negb orb].
  rewrite !get_prop_object', !cbind_Normal.
  rewrite (read_get _ _ _ inner_type), type_is_authorization.
  assert (Htruthy : ToBoolean (VString type) = true)
    by (destruct type_authorization as [H|H]; rewrite H; reflexivity).
  rewrite Htruthy.
  rewrite (read_get _ _ _ inner_authorization), !get_prop_object', !cbind_Normal.
  rewrite (read_get _ _ _ fields_value), (read_get _ _ _ fields_validAfter),
    (read_get _ _ _ fields_validBefore), (read_get _ _ _ fields_nonce),
    (read_get _ _ _ fields_version), (read_get _ _ _ inner_signature).
  cbn [ToBoolean Codec.is_type Codec.typeof jstype_eqb negb orb startsWith cbind].
  assert (Hsig : negb (String.eqb signature "") = true).
  { pose proof signature_prefix as Hp. destruct signature; [discriminate Hp | reflexivity]. }
  now rewrite Hsig, signature_prefix.
Qed.

End RoundTrip.

(** The transport form of a well-formed payload converts back to the payload,
    which the validator accepts. *)
Lemma transport_form_converts_back (E : Engine) (p : value) :
  well_formed_authorization p ->
  exists safe,
    convert_payment (value_toString E) p = Normal safe
    /\ convert_payment (BigInt E) safe = Normal p
    /\ validatePaymentPayload p = Normal p.
Proof.
  intros Hwf.
  destruct Hwf as [top inner fields type value validAfter validBefore nonce version signature
                     Ht Hp Hi Hty Htype Ha Hf Hv _ Hva _ Hvb _ Hn Hver Hs Hpre].
  eexists. split; [|split].
  - exact (convert_payment_to_strings E top inner fields type value validAfter validBefore
             Ht Hp Hi Hty Htype Ha Hf Hv Hva Hvb).
  - exact (convert_payment_from_strings E top inner fields type value validAfter validBefore
             Ht Hp Hi Hty Htype Ha Hf Hv Hva Hvb).
  - exact (validatePaymentPayload_accepts top inner fields type nonce version signature
             value validAfter validBefore Hp Hty Htype Ha Hv Hva Hvb Hn Hver Hs Hpre).
Qed.


(** ** The reference engine *)

Lemma below_64_cases (P : N -> bool) :
  forallb (fun i => P (N.of_nat i)) (seq 0 64) = true ->
  forall n, (n < 64)%N -> P n = true.
Proof.
  intros H n Hn. rewrite forallb_forall in H.
  specialize (H (N.to_nat n)). rewrite N2Nat.id in H.
  apply H. apply in_seq. lia.
Qed.

Lemma char_sextet_sextet_char n :
  (n < 64)%N -> Reference.char_sextet (Reference.sextet_char n) = Some n.
Proof.
  intros Hn.
  pose proof (below_64_cases
    (fun n => match Reference.char_sextet (Reference.sextet_char n) with
              | Some m => N.eqb m n
              | None => false
              end) eq_refl n Hn) as H.
  cbv beta in H. destruct (Reference.char_sextet (Reference.sextet_char n)); [|discriminate].
  apply N.eqb_eq in H. now subst.
Qed.

Lemma sextet_char_not_pad n :
  (n < 64)%N -> Reference.is_pad (Reference.sextet_char n) = false.
Proof.
  intros Hn.
  pose proof (below_64_cases
    (fun n => negb (Reference.is_pad (Reference.sextet_char n))) eq_refl n Hn) as H.
  now apply negb_true_iff in H.
Qed.

Lemma sextet_below n i : (Reference.sextet n i < 64)%N.
Proof. unfold Reference.sextet. now apply N.mod_upper_bound. Qed.

Lemma N_of_ascii_below c : (N_of_ascii c < 256)%N.
Proof. apply N_ascii_bounded. Qed.

Ltac byte_is c :=
  transitivity (ascii_of_N (N_of_ascii c)); [f_equal | apply ascii_N_embedding];
  zify; Z.to_euclidean_division_equations; lia.

Ltac group_arithmetic :=
  unfold Reference.byte, Reference.sextet, Reference.group_of_sextets,
    Reference.group_of_bytes, Reference.zero_byte;
  rewrite ?N_ascii_embedding by lia;
  change (64 ^ (3 - 0))%N with 262144%N; change (64 ^ (3 - 1))%N with 4096%N;
  change (64 ^ (3 - 2))%N with 64%N; change (64 ^ (3 - 3))%N with 1%N;
  change (256 ^ (2 - 0))%N with 65536%N; change (256 ^ (2 - 1))%N with 256%N;
  change (256 ^ (2 - 2))%N with 1%N.

Lemma group_bytes a b c :
  let n := Reference.group_of_bytes a b c in
  let n' := Reference.group_of_sextets (Reference.sextet n 0) (Reference.sextet n 1)
              (Reference.sextet n 2) (Reference.sextet n 3) in
  Reference.byte n' 0 = a /\ Reference.byte n' 1 = b /\ Reference.byte n' 2 = c.
Proof.
  intros n n'.
  pose proof (N_of_ascii_below a) as Ha. pose proof (N_of_ascii_below b) as Hb.
  pose proof (N_of_ascii_below c) as Hc.
  assert (Hn : n' = n).
  { subst n n'. group_arithmetic. zify. Z.to_euclidean_division_equations. lia. }
  rewrite Hn. subst n. group_arithmetic.
  split; [byte_is a | split; [byte_is b | byte_is c]].
Qed.

Lemma group_two_bytes a b :
  let n := Reference.group_of_bytes a b Reference.zero_byte in
  let n' := Reference.group_of_sextets (Reference.sextet n 0) (Reference.sextet n 1)
              (Reference.sextet n 2) 0 in
  Reference.byte n' 0 = a /\ Reference.byte n' 1 = b.
Proof.
  intros n n'.
  pose proof (N_of_ascii_below a) as Ha. pose proof (N_of_ascii_below b) as Hb.
  assert (Hn : n' = n).
  { subst n n'. group_arithmetic. zify. Z.to_euclidean_division_equations. lia. }
  rewrite Hn. subst n. group_arithmetic.
  split; [byte_is a | byte_is b].
Qed.

Lemma group_one_byte a :
  let n := Reference.group_of_bytes a Reference.zero_byte Reference.zero_byte in
  let n' := Reference.group_of_sextets (Reference.sextet n 0) (Reference.sextet n 1) 0 0 in
  Reference.byte n' 0 = a.
Proof.
  intros n n'.
  pose proof (N_of_ascii_below a) as Ha.
  assert (Hn : n' = n).
  { subst n n'. group_arithmetic. zify. Z.to_euclidean_division_equations. lia. }
  rewrite Hn. subst n. group_arithmetic. byte_is a.
Qed.

Lemma base64_decode_encode_bounded n :
  forall s, (String.length s < n)%nat ->
            Reference.base64_decode (Reference.base64_encode s) = Some s.
Proof.
  induction n as [|n IH]; intros s Hlen; [lia|].
  destruct s as [|a [|b [|c rest]]].
  - reflexivity.
  - cbn [Reference.base64_encode Reference.base64_decode].
    rewrite !char_sextet_sextet_char by apply sextet_below.
    change (Reference.is_pad "=") with true. cbn [andb String.eqb].
    now rewrite group_one_byte.
  - cbn [Reference.base64_encode Reference.base64_decode].
    rewrite !char_sextet_sextet_char by apply sextet_below.
    rewrite sextet_char_not_pad by apply sextet_below.
    change (Reference.is_pad "=") with true. cbn [String.eqb].
    destruct (group_two_bytes a b) as [-> ->]. reflexivity.
  - cbn [Reference.base64_encode Reference.base64_decode].
    rewrite !char_sextet_sextet_char by apply sextet_below.
    rewrite !sextet_char_not_pad by apply sextet_below.
    rewrite IH by (simpl in Hlen; lia).
    destruct (group_bytes a b c) as (-> & -> & ->). reflexivity.
Qed.

(** The reference base64 decodes what it encoded. *)
Lemma base64_decode_encode s :
  Reference.base64_decode (Reference.base64_encode s) = Some s.
Proof. apply (base64_decode_encode_bounded (S (String.length s))). lia. Qed.

Lemma reference_base64_roundtrip t :
  exists c, safeBase64Encode Reference.engine t = Normal c
            /\ safeBase64Decode Reference.engine c = Normal t.
Proof.
  exists (Reference.base64_encode t). split; [reflexivity|].
  simpl. now rewrite base64_decode_encode.
Qed.

(** ** The reference JSON reads what it writes *)

Lemma append_String c a b : (String c a ++ b)%string = String c (a ++ b)%string.
Proof. reflexivity. Qed.

Lemma append_assoc (a b c : string) : ((a ++ b) ++ c = a ++ (b ++ c))%string.
Proof. induction a as [|x a IH]; [reflexivity|]. rewrite !append_String. now rewrite IH. Qed.

Lemma length_append (a b : string) :
  String.length (a ++ b) = (String.length a + String.length b)%nat.
Proof. induction a as [|x a IH]; [reflexivity|]. rewrite append_String. simpl. now rewrite IH. Qed.

Lemma substring_all s : substring 0 (String.length s) s = s.
Proof. induction s as [|c s IH]; [reflexivity|]. simpl. now rewrite IH. Qed.

Lemma value_induction (P : value -> Prop) :
  P VUndefined -> P VNull -> (forall b, P (VBool b)) -> (forall n, P (VNumber n)) ->
  (forall s, P (VString s)) -> (forall z, P (VBigInt z)) ->
  (forall items, Forall P items -> P (VArray items)) ->
  (forall props, Forall (fun kv => P (snd kv)) props -> P (VObject props)) ->
  forall v, P v.
Proof.
  intros Hu Hn Hb Hnum Hs Hz Ha Ho. fix IH 1.
  intros [| |b|n|s|z|items|props];
    [exact Hu | exact Hn | apply Hb | apply Hnum | apply Hs | apply Hz | |].
  - apply Ha. induction items as [|item items IHitems]; constructor; [apply IH | assumption].
  - apply Ho. induction props as [|[k v] props IHprops]; constructor; [apply IH | assumption].
Qed.

(** A string literal reads back as the string it quotes. *)
Lemma read_string_escape_step c s rest :
  Reference.read_string (Reference.escape_json (String c s) ++ rest)
  = option_map (fun '(text, tail) => (String c text, tail))
      (Reference.read_string (Reference.escape_json s ++ rest)).
Proof. destruct c as [[] [] [] [] [] [] [] []]; reflexivity. Qed.

Lemma read_string_escape s rest :
  Reference.read_string (Reference.escape_json s ++ String Reference.quote rest) = Some (s, rest).
Proof.
  induction s as [|c s IH]; [reflexivity|].
  now rewrite read_string_escape_step, IH.
Qed.

Lemma read_string_quote_json s rest :
  exists tail, (Reference.quote_json s ++ rest)%string = String Reference.quote tail
               /\ Reference.read_string tail = Some (s, rest).
Proof.
  exists (Reference.escape_json s ++ String Reference.quote rest)%string. split.
  - unfold Reference.quote_json. now rewrite append_String, append_assoc.
  - apply read_string_escape.
Qed.

Lemma delimited_not_digit c rest :
  Reference.delimited (String c rest) = true ->
  is_decimal_digit c = false /\ Reference.is_json_space c = false
  /\ Ascii.eqb c "." = false /\ Ascii.eqb c "e" = false /\ Ascii.eqb c "E" = false.
Proof.
  simpl. intros H. apply orb_prop in H as [H|H]; [apply orb_prop in H as [H|H]|];
    apply Ascii.eqb_eq in H; subst c; repeat split; reflexivity.
Qed.

Lemma take_digits_digits digits rest :
  all_decimal_digits digits = true -> Reference.delimited rest = true ->
  Reference.take_digits (digits ++ rest) = (digits, rest).
Proof.
  intros Hd Hrest. induction digits as [|c digits IH].
  - change ("" ++ rest)%string with rest. destruct rest as [|c rest]; [reflexivity|].
    simpl. now destruct (delimited_not_digit c rest Hrest) as [-> _].
  - simpl in Hd. apply andb_prop in Hd as [Hc Hd].
    rewrite append_String. simpl. rewrite Hc, (IH Hd). reflexivity.
Qed.

(** The decimal numeral of a positive number has no leading zero. *)
Lemma nzhead_not_D0 u u' : Decimal.nzhead u <> Decimal.D0 u'.
Proof. induction u; simpl; try discriminate; assumption. Qed.

Lemma to_uint_unorm p : Decimal.unorm (Pos.to_uint p) = Pos.to_uint p.
Proof.
  pose proof (DecimalPos.Unsigned.to_of (Pos.to_uint p)) as H.
  rewrite DecimalPos.Unsigned.of_to in H. now symmetry.
Qed.

Lemma to_uint_no_leading_zero p u : Pos.to_uint p <> Decimal.D0 u.
Proof.
  intros H. pose proof (to_uint_unorm p) as Hn. rewrite H in Hn.
  rewrite DecimalFacts.unorm_D0 in Hn. unfold Decimal.unorm in Hn.
  destruct (Decimal.nzhead u) eqn:Hz; try discriminate Hn.
  - injection Hn as <-. now apply (DecimalPos.Unsigned.to_uint_nonzero p).
  - now apply nzhead_not_D0 in Hz.
Qed.

Lemma canonical_to_uint p :
  Reference.canonical_numeral (NilEmpty.string_of_uint (Pos.to_uint p)) = true.
Proof.
  destruct (Pos.to_uint p) eqn:Hu; try reflexivity.
  - now apply to_uint_not_Nil in Hu.
  - now apply to_uint_no_leading_zero in Hu.
Qed.

Lemma digit_not_minus c (r : string) :
  is_decimal_digit c = true ->
  match String c r with
  | String "-" rest => (true, rest)
  | _ => (false, String c r)
  end%char = (false, String c r).
Proof. destruct c as [[] [] [] [] [] [] [] []]; try discriminate; reflexivity. Qed.

Lemma goes_on_delimited rest :
  Reference.delimited rest = true -> Reference.goes_on rest = false.
Proof.
  destruct rest as [|c rest]; [reflexivity|]. intros H. unfold Reference.goes_on.
  destruct (delimited_not_digit c rest H) as (_ & _ & -> & -> & ->). reflexivity.
Qed.

(** A canonical run of digits, up to a delimiter, reads as its number. *)
Lemma read_number_digits digits rest z :
  all_decimal_digits digits = true -> Reference.canonical_numeral digits = true ->
  decimal_digits digits = Some z -> Reference.is_safe_integer z = true ->
  Reference.delimited rest = true ->
  Reference.read_number (digits ++ rest)
  = Some (VNumber (Reference.number_of_integer false z), rest)
  /\ Reference.read_number (String "-" (digits ++ rest))
     = Some (VNumber (Reference.number_of_integer true z), rest).
Proof.
  intros Hd Hc Hz Hsafe Hrest.
  assert (Hrun : forall negative,
    (let '(digits0, rest0) := Reference.take_digits (digits ++ rest) in
     if Reference.canonical_numeral digits0 && negb (Reference.goes_on rest0) then
       match decimal_digits digits0 with
       | Some z => if Reference.is_safe_integer z
                   then Some (VNumber (Reference.number_of_integer negative z), rest0) else None
       | None => None
       end
     else None) = Some (VNumber (Reference.number_of_integer negative z), rest)).
  { intros negative. rewrite (take_digits_digits _ _ Hd Hrest).
    rewrite Hc, (goes_on_delimited _ Hrest). cbn [negb andb]. now rewrite Hz, Hsafe. }
  split.
  - unfold Reference.read_number.
    destruct digits as [|c digits]; [discriminate Hc|].
    simpl in Hd. apply andb_prop in Hd as [Hdc _].
    rewrite append_String, (digit_not_minus c _ Hdc), <- append_String. apply Hrun.
  - unfold Reference.read_number. apply Hrun.
Qed.

Lemma append_empty (r : string) : ("" ++ r)%string = r.
Proof. reflexivity. Qed.

Lemma NumberToBigInt_of_Z z : NumberToBigInt (number_of_Z z) = Some z.
Proof.
  destruct z as [|p|p]; [reflexivity| |]; simpl;
    change (2 ^ 0) with 1; now rewrite Z.mul_1_r.
Qed.

Lemma Number_toString_safe z :
  Reference.is_safe_integer z = true ->
  Reference.Number_toString (number_of_Z z) = BigInt_toString z.
Proof.
  intros Hsafe. unfold Reference.Number_toString.
  rewrite NumberToBigInt_of_Z, Hsafe. now destruct z.
Qed.

Lemma read_number_toString z rest :
  Reference.is_safe_integer z = true -> Reference.delimited rest = true ->
  Reference.read_number (BigInt_toString z ++ rest) = Some (VNumber (number_of_Z z), rest).
Proof.
  intros Hsafe Hrest. unfold BigInt_toString. destruct z as [|p|p]; simpl Z.to_int.
  - now apply (read_number_digits "0" rest 0).
  - cbn [NilEmpty.string_of_int].
    apply (read_number_digits (NilEmpty.string_of_uint (Pos.to_uint p)) rest (Z.pos p));
      try assumption.
    + apply all_digits_string_of_uint.
    + apply canonical_to_uint.
    + rewrite decimal_digits_string_of_uint by apply to_uint_not_Nil.
      now rewrite of_uint_to_uint.
  - cbn [NilEmpty.string_of_int]. rewrite append_String.
    apply (read_number_digits (NilEmpty.string_of_uint (Pos.to_uint p)) rest (Z.pos p));
      try assumption.
    + apply all_digits_string_of_uint.
    + apply canonical_to_uint.
    + rewrite decimal_digits_string_of_uint by apply to_uint_not_Nil.
      now rewrite of_uint_to_uint.
Qed.

(** A numeral starts with a digit or the sign. *)
Lemma numeral_head z :
  exists c tail, BigInt_toString z = String c tail
                 /\ (is_decimal_digit c = true \/ c = "-"%char).
Proof.
  unfold BigInt_toString. destruct z as [|p|p]; simpl Z.to_int; cbn [NilEmpty.string_of_int].
  - exists "0"%char, "". split; [reflexivity | now left].
  - pose proof (all_digits_string_of_uint (Pos.to_uint p)) as Hd.
    destruct (NilEmpty.string_of_uint (Pos.to_uint p)) as [|c tail] eqn:Hs;
      [now apply string_of_uint_not_empty in Hs|].
    exists c, tail. split; [reflexivity|]. left. simpl in Hd. now apply andb_prop in Hd as [? _].
  - eexists _, _. split; [reflexivity | now right].
Qed.

Lemma read_value_number fuel c tail :
  is_decimal_digit c = true \/ c = "-"%char ->
  Reference.read_value (S fuel) (String c tail) = Reference.read_number (String c tail).
Proof.
  intros [Hc| ->]; [|reflexivity].
  destruct c as [[] [] [] [] [] [] [] []]; try discriminate Hc; reflexivity.
Qed.

Lemma head_of_numeral c :
  is_decimal_digit c = true \/ c = "-"%char ->
  Reference.is_json_space c = false /\ Ascii.eqb c "]" = false /\ Ascii.eqb c "}" = false.
Proof.
  intros [Hc| ->]; [|repeat split].
  destruct c as [[] [] [] [] [] [] [] []]; try discriminate Hc; repeat split.
Qed.

(** [join_with], element by element. *)
Lemma fold_left_join sep (parts : list string) (a b : string) :
  fold_left (fun acc q => acc ++ sep ++ q)%string parts (a ++ b)%string
  = (a ++ fold_left (fun acc q => acc ++ sep ++ q) parts b)%string.
Proof.
  revert b. induction parts as [|p parts IH]; intros b; simpl; [reflexivity|].
  now rewrite append_assoc, IH.
Qed.

Lemma join_with_cons sep p q parts :
  join_with sep (p :: q :: parts) = (p ++ sep ++ join_with sep (q :: parts))%string.
Proof.
  unfold join_with. simpl.
  now rewrite <- (append_assoc p sep q), fold_left_join, append_assoc.
Qed.

Lemma omap_id_Some {A : Type} (l : list A) : omap id (map Some l) = l.
Proof. induction l as [|x l IH]; [reflexivity|]. simpl. f_equal. exact IH. Qed.

Lemma skip_space_head c tail :
  Reference.is_json_space c = false -> Reference.skip_space (String c tail) = String c tail.
Proof. intros H. simpl. now rewrite H. Qed.

(** The texts of the elements of an array, joined by commas, read back as
    the elements; likewise the members of an object. *)
Lemma read_elements_texts items parts :
  Forall2 Reference.reads_back items parts -> items <> [] ->
  forall before rest fuel,
    Reference.delimited rest = true -> (Reference.elements_needed items <= fuel)%nat ->
    Reference.read_elements fuel (join_with "," parts ++ String "]" rest) before
    = Some (VArray (rev before ++ items), rest).
Proof.
  induction 1 as [|x p items parts Hx Hrest IH]; [congruence|]. intros _ before rest fuel Hd Hfuel.
  destruct fuel as [|fuel]; [simpl in Hfuel; lia|]. simpl in Hfuel.
  destruct Hx as (_ & _ & Hread).
  destruct Hrest as [|y q items parts Hy Hrest].
  - change (join_with "," [p]) with p. cbn [Reference.read_elements].
    rewrite Hread by (try reflexivity; lia).
    cbn. reflexivity.
  - rewrite join_with_cons, !append_assoc. cbn [Reference.read_elements].
    rewrite Hread by (try reflexivity; lia).
    rewrite append_String, append_empty, skip_space_head by reflexivity.
    cbv beta iota. rewrite Ascii.eqb_refl.
    rewrite IH
      by (try assumption; try discriminate; fold (Reference.elements_needed (y :: items)); lia).
    cbn [rev]. now rewrite <- app_assoc.
Qed.

Lemma read_members_texts props members :
  Forall2 Reference.member_reads_back props members -> props <> [] ->
  forall before rest fuel,
    Reference.delimited rest = true -> (Reference.members_needed props <= fuel)%nat ->
    Reference.read_members fuel (join_with "," members ++ String "}" rest) before
    = Some (VObject (from_entries (rev before ++ props)), rest).
Proof.
  induction 1 as [|[k v] m props members Hm Hrest IH]; [congruence|].
  intros _ before rest fuel Hd Hfuel.
  destruct fuel as [|fuel]; [simpl in Hfuel; lia|]. simpl in Hfuel.
  destruct Hm as (text & -> & _ & _ & Hread). simpl fst in *. simpl snd in *.
  destruct Hrest as [|[k' v'] m' props members Hm' Hrest].
  - change (join_with "," [(Reference.quote_json k ++ ":" ++ text)%string])
      with (Reference.quote_json k ++ ":" ++ text)%string.
    rewrite !append_assoc.
    destruct (read_string_quote_json k (":" ++ text ++ String "}" rest)) as (tail & -> & Hkey).
    cbn [Reference.read_members]. rewrite skip_space_head by reflexivity.
    cbv beta iota. rewrite Ascii.eqb_refl, Hkey.
    rewrite append_String, append_empty, skip_space_head by reflexivity.
    cbv beta iota. rewrite Ascii.eqb_refl.
    rewrite Hread by (try reflexivity; lia).
    cbn. reflexivity.
  - rewrite join_with_cons, !append_assoc.
    destruct (read_string_quote_json k
                (":" ++ text ++ "," ++ join_with "," (m' :: members) ++ String "}" rest))
      as (tail & -> & Hkey).
    cbn [Reference.read_members]. rewrite skip_space_head by reflexivity.
    cbv beta iota. rewrite Ascii.eqb_refl, Hkey.
    rewrite append_String, append_empty, skip_space_head by reflexivity.
    cbv beta iota. rewrite Ascii.eqb_refl.
    rewrite Hread by (try reflexivity; lia).
    rewrite append_String, append_empty, skip_space_head by reflexivity.
    cbv beta iota. rewrite Ascii.eqb_refl.
    rewrite IH
      by (try assumption; try discriminate;
          fold (Reference.members_needed ((k', v') :: props)); lia).
    cbn [rev]. now rewrite <- app_assoc.
Qed.

Lemma join_with_head sep c tail parts :
  join_with sep (String c tail :: parts) = String c (join_with sep (tail :: parts)).
Proof.
  unfold join_with. change (String c tail) with (String c "" ++ tail)%string.
  now rewrite fold_left_join.
Qed.

(** The fuel a value needs is at most the length of its text. *)
Lemma elements_needed_bound items parts :
  Forall2 Reference.reads_back items parts ->
  (Reference.elements_needed items <= S (String.length (join_with "," parts)))%nat.
Proof.
  induction 1 as [|x p items parts Hx Hrest IH]; [simpl; lia|].
  destruct Hx as (Hlen & _). change (Reference.elements_needed (x :: items))
    with (S (Reference.fuel_needed x + Reference.elements_needed items)).
  destruct Hrest as [|y q items parts Hy Hrest].
  - change (join_with "," [p]) with p. simpl. lia.
  - rewrite join_with_cons, !length_append. change (String.length ",") with 1%nat. lia.
Qed.

Lemma members_needed_bound props members :
  Forall2 Reference.member_reads_back props members ->
  (Reference.members_needed props <= S (String.length (join_with "," members)))%nat.
Proof.
  induction 1 as [|[k v] m props members Hm Hrest IH]; [simpl; lia|].
  destruct Hm as (text & -> & Hlen & _). simpl fst in *. simpl snd in *.
  change (Reference.members_needed ((k, v) :: props))
    with (S (Reference.fuel_needed v + Reference.members_needed props)).
  destruct Hrest as [|y q props members Hy Hrest].
  - change (join_with "," [(Reference.quote_json k ++ ":" ++ text)%string])
      with (Reference.quote_json k ++ ":" ++ text)%string.
    rewrite !length_append. change (Reference.members_needed []) with 0%nat. lia.
  - rewrite join_with_cons, !length_append. change (String.length ",") with 1%nat. lia.
Qed.

Lemma serialize_elements items :
  Forall (fun v => Reference.transportable v ->
            exists text, Reference.serialize v = Normal (Some text)
                         /\ Reference.reads_back v text) items ->
  fold_right (fun item rest => Reference.transportable item /\ rest) True items ->
  exists parts,
    sequence (map (fun item => do text <- Reference.serialize item;
                               Normal (default "null" text)) items) = Normal parts
    /\ Forall2 Reference.reads_back items parts.
Proof.
  induction 1 as [|x items Hx _ IH]; simpl.
  - intros _. now exists [].
  - intros [Htx Ht]. destruct (Hx Htx) as (text & -> & Hback).
    destruct (IH Ht) as (parts & -> & Hparts).
    exists (text :: parts). split; [reflexivity|]. now constructor.
Qed.

Lemma serialize_members props :
  Forall (fun kv => Reference.transportable (snd kv) ->
            exists text, Reference.serialize (snd kv) = Normal (Some text)
                         /\ Reference.reads_back (snd kv) text) props ->
  fold_right (fun kv rest => Reference.transportable (snd kv) /\ rest) True props ->
  exists members,
    sequence (map (fun kv => do text <- Reference.serialize (snd kv);
                             Normal (option_map
                                       (fun t => Reference.quote_json (fst kv) ++ ":" ++ t)%string
                                       text)) props)
    = Normal (map Some members)
    /\ Forall2 Reference.member_reads_back props members.
Proof.
  induction 1 as [|[k v] props Hx _ IH]; simpl in *.
  - intros _. now exists [].
  - intros [Htx Ht]. destruct (Hx Htx) as (text & -> & Hback).
    destruct (IH Ht) as (members & -> & Hmembers).
    exists ((Reference.quote_json k ++ ":" ++ text)%string :: members).
    split; [reflexivity|]. constructor; [|assumption]. now exists text.
Qed.

Lemma read_literal_all literal v rest :
  Reference.read_literal literal v (literal ++ rest) = Some (v, rest).
Proof.
  unfold Reference.read_literal.
  assert (Hp : String.prefix literal (literal ++ rest) = true)
    by (induction literal as [|c l IH];
        [now destruct rest | simpl; destruct (ascii_dec c c); [exact IH | congruence]]).
  rewrite Hp, length_append. clear Hp.
  replace (String.length literal + String.length rest - String.length literal)%nat
    with (String.length rest) by lia.
  f_equal. f_equal. induction literal as [|c l IH]; [apply substring_all | exact IH].
Qed.

(** Writing then reading: the text [serialize] writes for a transportable
    value reads back as that value. *)
Lemma serialize_reads_back v :
  Reference.transportable v ->
  exists text, Reference.serialize v = Normal (Some text) /\ Reference.reads_back v text.
Proof.
  induction v as [| |b|n|s|z|items IH|props IH] using value_induction; intros Ht;
    try contradiction.
  - exists "null". split; [reflexivity|]. split; [simpl; lia|]. split; [now eexists _, _|].
    intros rest [|fuel] Hd Hfuel; [simpl in Hfuel; lia|].
    apply (read_literal_all "null" VNull rest).
  - exists (if b then "true" else "false"). split; [reflexivity|].
    split; [destruct b; simpl; lia|]. split; [destruct b; now eexists _, _|].
    intros rest [|fuel] Hd Hfuel; [simpl in Hfuel; lia|]. destruct b.
    + apply (read_literal_all "true" (VBool true) rest).
    + apply (read_literal_all "false" (VBool false) rest).
  - destruct Ht as (z & Hsafe & ->).
    exists (BigInt_toString z). split.
    { cbn [Reference.serialize]. rewrite (Number_toString_safe z Hsafe). now destruct z. }
    destruct (numeral_head z) as (c & tail & Htext & Hc).
    split; [rewrite Htext; simpl; lia|].
    split.
    { exists c, tail. split; [assumption|]. now apply head_of_numeral. }
    intros rest [|fuel] Hd Hfuel; [simpl in Hfuel; lia|].
    rewrite <- (read_number_toString z rest Hsafe Hd).
    rewrite Htext, append_String. now apply read_value_number.
  - exists (Reference.quote_json s). split; [reflexivity|].
    split; [unfold Reference.quote_json; simpl; lia|].
    split; [unfold Reference.quote_json; now eexists _, _|].
    intros rest [|fuel] Hd Hfuel; [simpl in Hfuel; lia|].
    destruct (read_string_quote_json s rest) as (tail & -> & Hread).
    cbn [Reference.read_value]. rewrite skip_space_head by reflexivity.
    cbn. now rewrite Hread.
  - destruct (serialize_elements items IH Ht) as (parts & Hparts & Hback).
    exists ("[" ++ join_with "," parts ++ "]")%string. split.
    { cbn [Reference.serialize]. now rewrite Hparts. }
    pose proof (elements_needed_bound _ _ Hback) as Hbound.
    split.
    { rewrite !append_String, append_empty. simpl String.length. rewrite length_append.
      change (Reference.fuel_needed (VArray items)) with (S (Reference.elements_needed items)).
      change (String.length "]") with 1%nat. lia. }
    split; [now eexists _, _|].
    intros rest [|fuel] Hd Hfuel; [simpl in Hfuel; lia|].
    change (Reference.fuel_needed (VArray items)) with (S (Reference.elements_needed items)) in Hfuel.
    rewrite !append_String, append_empty, append_assoc, append_String, append_empty.
    cbn [Reference.read_value]. rewrite skip_space_head by reflexivity.
    cbv beta iota. change (Ascii.eqb "[" "{") with false. change (Ascii.eqb "[" "[") with true.
    cbv iota.
    destruct Hback as [|x p items parts Hx Hback].
    + reflexivity.
    + pose proof Hx as (_ & (c & tail & -> & Hspace & Hclose & _) & _).
      rewrite join_with_head, append_String, skip_space_head by assumption.
      rewrite Hclose, <- append_String, <- join_with_head.
      assert (Hall : Forall2 Reference.reads_back (x :: items) (String c tail :: parts))
        by now constructor.
      rewrite (read_elements_texts _ _ Hall) by (try assumption; try discriminate; lia).
      reflexivity.
  - destruct Ht as [Horder Ht].
    destruct (serialize_members props IH Ht) as (members & Hmembers & Hback).
    exists ("{" ++ join_with "," members ++ "}")%string. split.
    { cbn [Reference.serialize]. rewrite Hmembers. cbn [cbind]. now rewrite omap_id_Some. }
    pose proof (members_needed_bound _ _ Hback) as Hbound.
    split.
    { rewrite !append_String, append_empty. simpl String.length. rewrite length_append.
      change (Reference.fuel_needed (VObject props)) with (S (Reference.members_needed props)).
      change (String.length "}") with 1%nat. lia. }
    split; [now eexists _, _|].
    intros rest [|fuel] Hd Hfuel; [simpl in Hfuel; lia|].
    change (Reference.fuel_needed (VObject props)) with (S (Reference.members_needed props)) in Hfuel.
    rewrite !append_String, append_empty, append_assoc, append_String, append_empty.
    cbn [Reference.read_value]. rewrite skip_space_head by reflexivity.
    cbv beta iota. change (Ascii.eqb "{" "{") with true. cbv iota.
    destruct Hback as [|[k v] m props members Hm Hback].
    + reflexivity.
    + pose proof Hm as (text & -> & _). simpl fst.
      assert (Hall : Forall2 Reference.member_reads_back ((k, v) :: props)
                       ((Reference.quote_json k ++ ":" ++ text)%string :: members))
        by now constructor.
      pose proof (read_members_texts _ _ Hall ltac:(discriminate) [] rest fuel Hd ltac:(lia))
        as Hread.
      set (document := (join_with "," ((Reference.quote_json k ++ ":" ++ text)%string :: members)
                        ++ String "}" rest)%string) in *.
      assert (Hdoc : exists tail, document = String Reference.quote tail).
      { unfold document, Reference.quote_json.
        rewrite !append_String, join_with_head, append_String. eauto. }
      destruct Hdoc as (tail & Hdoc).
      assert (Hskip : Reference.skip_space document = document)
        by (rewrite Hdoc; now apply skip_space_head).
      rewrite Hskip, Hread. rewrite Hdoc.
      change (Ascii.eqb Reference.quote "}") with false. cbv iota.
      cbn [rev app]. now rewrite Horder.
Qed.

Lemma append_empty_r (s : string) : (s ++ "")%string = s.
Proof. induction s as [|c s IH]; [reflexivity|]. rewrite append_String. now rewrite IH. Qed.

(** [JSON.parse(JSON.stringify(v))] is [v] for a transportable [v]. *)
Lemma parse_stringify v :
  Reference.transportable v ->
  exists text, Reference.stringify v = Normal text /\ Reference.parse text = Normal v.
Proof.
  intros Ht. destruct (serialize_reads_back v Ht) as (text & Hwrite & Hlen & _ & Hread).
  exists text. split; [unfold Reference.stringify; now rewrite Hwrite|].
  unfold Reference.parse. rewrite <- (append_empty_r text) at 2.
  rewrite Hread by (try reflexivity; lia). reflexivity.
Qed.

(** With the reference JSON text the round trip needs the base64 law alone,
    for a payload whose transport form the text carries. *)
Corollary reference_json_roundtrip
    (encode decode : string -> completion string) (p : value) :
  well_formed_authorization p ->
  (forall t, exists c, encode t = Normal c /\ decode c = Normal t) ->
  (forall safe,
     convert_payment (value_toString (Reference.engine_with encode decode)) p = Normal safe ->
     Reference.transportable safe) ->
  exists encoded,
    encodePaymentPayload (Reference.engine_with encode decode) p = Normal encoded
    /\ decodePaymentPayload (Reference.engine_with encode decode) encoded = Normal p.
Proof.
  intros Hwf Hbase64 Hcarried.
  destruct (transport_form_converts_back (Reference.engine_with encode decode) p Hwf)
    as (safe & Hsent & Hback & Hvalid).
  destruct (parse_stringify safe (Hcarried _ Hsent)) as (text & Hwrite & Hparse).
  destruct (Hbase64 text) as (encoded & Hencode & Hdecode).
  exists encoded. unfold encodePaymentPayload, decodePaymentPayload.
  cbn [JSON_stringify JSON_parse safeBase64Encode safeBase64Decode Reference.engine_with].
  rewrite Hsent, cbind_Normal, Hwrite, cbind_Normal. split; [exact Hencode|].
  now rewrite Hdecode, cbind_Normal, Hparse, cbind_Normal, Hback, cbind_Normal.
Qed.

End CodecProperties.

Section SanitizerProperties.

Import Sanitizer.

(** ** The sanitizer *)

Lemma bind_inv {A B : Type} (m : M A) (k : A -> M B) s r s' :
  bind m k s = Some (r, s') ->
  (exists a s1, m s = Some (Normal a, s1) /\ k a s1 = Some (r, s'))
  \/ (exists e, m s = Some (Throw e, s') /\ r = Throw e).
Proof.
  unfold bind. destruct (m s) as [[[a|e] s1]|]; intros H.
  - left. eauto.
  - right. injection H as <- <-. eauto.
  - discriminate.
Qed.

Lemma bind_Normal_inv {A B : Type} (m : M A) (k : A -> M B) s b s' :
  bind m k s = Some (Normal b, s') ->
  exists a s1, m s = Some (Normal a, s1) /\ k a s1 = Some (Normal b, s').
Proof.
  intros H. apply bind_inv in H as [H|(e & _ & He)]; [assumption | discriminate].
Qed.

Lemma extends_refl s : extends s s.
Proof. split; reflexivity. Qed.

Lemma extends_trans s1 s2 s3 : extends s1 s2 -> extends s2 s3 -> extends s1 s3.
Proof. intros [H1 H2] [H3 H4]. split; etrans; eassumption. Qed.

Lemma extends_lookup s s' l o : extends s s' -> heap s !! l = Some o -> heap s' !! l = Some o.
Proof. intros [Hp _] Hl. now apply (prefix_lookup_Some _ _ _ _ Hl Hp). Qed.

Lemma deref_inv l s r s' :
  deref l s = Some (r, s') -> exists o, heap s !! l = Some o /\ r = Normal o /\ s' = s.
Proof.
  unfold deref. destruct (heap s !! l) as [o|]; [|discriminate].
  intros [= <- <-]. eauto.
Qed.

Lemma toISOString_inv iso s r s' :
  toISOString iso s = Some (r, s') ->
  s' = s /\ match iso with Some text => r = Normal text | None => r = Throw RangeError end.
Proof. destruct iso; intros [= <- <-]; auto. Qed.

Lemma extends_alloc o s : extends s (State (heap s ++ [o]) (seen s)).
Proof. split; simpl; [now apply prefix_app_r | reflexivity]. Qed.

Lemma extends_seen_add l s : extends s (State (heap s) ({[ l ]} ∪ seen s)).
Proof. split; simpl; [reflexivity | set_solver]. Qed.

Section Monotone.

Variable self : value -> M tree.
Hypothesis self_extends : forall data s r s', self data s = Some (r, s') -> extends s s'.

Lemma convert_item_extends item s r s' :
  convert_item self item s = Some (r, s') -> extends s s'.
Proof.
  unfold convert_item. destruct (_ && _).
  - apply self_extends.
  - intros [= <- <-]. apply extends_refl.
Qed.

Lemma map_items_extends items s r s' :
  map_items (convert_item self) items s = Some (r, s') -> extends s s'.
Proof.
  revert s r s'. induction items as [|item items IH]; simpl; intros s r s' H.
  - injection H as <- <-. apply extends_refl.
  - apply bind_inv in H as [(t & s1 & H1 & H)|(e & H1 & _)];
      [|now apply convert_item_extends in H1].
    apply convert_item_extends in H1.
    apply bind_inv in H as [(ts & s2 & H2 & H)|(e & H2 & _)];
      [|apply IH in H2; now apply (extends_trans _ _ _ H1)].
    apply IH in H2. injection H as <- <-. now apply (extends_trans _ _ _ H1).
Qed.

Lemma sanitize_entry_extends result key value s r s' :
  sanitize_entry self result key value s = Some (r, s') -> extends s s'.
Proof.
  destruct value; simpl; try (intros [= <- <-]; apply extends_refl).
  intros H. apply bind_inv in H as [(o & s1 & H1 & H)|(e & H1 & _)];
    apply deref_inv in H1 as (o' & Hl & Ho & ->); [|discriminate].
  injection Ho as ->. destruct o'.
  - apply bind_inv in H as [(t & s1 & H1 & H)|(e & H1 & _)].
    + apply self_extends in H1. now injection H as <- <-.
    + now apply self_extends in H1.
  - apply bind_inv in H as [(t & s1 & H1 & H)|(e & H1 & _)].
    + apply map_items_extends in H1. now injection H as <- <-.
    + now apply map_items_extends in H1.
  - apply bind_inv in H as [(t & s1 & H1 & H)|(e & H1 & _)];
      apply toISOString_inv in H1 as [-> _].
    + injection H as <- <-. apply extends_refl.
    + apply extends_refl.
  - injection H as <- <-. apply extends_refl.
  - injection H as <- <-. apply extends_refl.
Qed.

Lemma reduce_extends entries result s r s' :
  reduce (sanitize_entry self) entries result s = Some (r, s') -> extends s s'.
Proof.
  revert result s. induction entries as [|[key value] entries IH]; simpl; intros result s H.
  - injection H as <- <-. apply extends_refl.
  - apply bind_inv in H as [(t & s1 & H1 & H)|(e & H1 & _)];
      apply sanitize_entry_extends in H1; [|assumption].
    apply IH in H. now apply (extends_trans _ _ _ H1).
Qed.

Lemma convert_object_extends o s r s' :
  convert_object self o s = Some (r, s') -> extends s s'.
Proof.
  intros H. destruct o; simpl in H.
  - apply bind_inv in H as [(t & s3 & H1 & H)|(e & H1 & _)].
    + apply reduce_extends in H1. now injection H as <- <-.
    + now apply reduce_extends in H1.
  - apply bind_inv in H as [(t & s3 & H1 & H)|(e & H1 & _)].
    + apply reduce_extends in H1. now injection H as <- <-.
    + now apply reduce_extends in H1.
  - apply bind_inv in H as [(t & s3 & H1 & H)|(e & H1 & _)];
      apply toISOString_inv in H1 as [-> _].
    + injection H as <- <-. apply extends_refl.
    + apply extends_refl.
  - apply bind_inv in H as [(a & s3 & H1 & H)|(e & H1 & _)]; [|discriminate].
    injection H1 as <- <-. apply self_extends in H.
    eapply extends_trans; [apply extends_alloc | exact H].
  - apply bind_inv in H as [(a & s3 & H1 & H)|(e & H1 & _)]; [|discriminate].
    injection H1 as <- <-. apply self_extends in H.
    eapply extends_trans; [apply extends_alloc | exact H].
Qed.

Lemma toJsonSafe_body_extends data s r s' :
  toJsonSafe_body self data s = Some (r, s') -> extends s s'.
Proof.
  unfold toJsonSafe_body. destruct (_ || _); [intros [= <- <-]; apply extends_refl|].
  destruct data; try (intros [= <- <-]; apply extends_refl).
  unfold bind at 1. simpl.
  destruct (bool_decide (l ∈ seen s)); [intros [= <- <-]; apply extends_refl|].
  unfold bind at 1. simpl. set (s1 := State (heap s) ({[ l ]} ∪ seen s)).
  assert (H01 : extends s s1) by apply extends_seen_add.
  unfold try_catch.
  match goal with |- context [bind ?m ?k s1] => destruct (bind m k s1) as [[r1 s2]|] eqn:Hrun end;
    [|discriminate].
  assert (H12 : extends s1 s2).
  { apply bind_inv in Hrun as [(o & s1' & H1 & H)|(e & H1 & _)];
      apply deref_inv in H1 as (o' & Hl & Ho & ->); [|discriminate].
    injection Ho as ->. now apply convert_object_extends in H. }
  destruct r1; intros [= <- <-]; now apply (extends_trans _ _ _ H01).
Qed.

End Monotone.

Lemma toJsonSafe_extends fuel data s r s' :
  toJsonSafe fuel data s = Some (r, s') -> extends s s'.
Proof.
  revert data s r s'. induction fuel as [|fuel IH]; simpl; intros data s r s' H.
  - discriminate.
  - now apply (toJsonSafe_body_extends (toJsonSafe fuel) IH) in H.
Qed.

Lemma entry_outcome_extends s s1 v t :
  extends s s1 -> entry_outcome (heap s1) (seen s1) v t -> entry_outcome (heap s) (seen s) v t.
Proof.
  intros Hext. destruct v; simpl; try (intros H; exact H).
  destruct (heap s !! l) as [o|] eqn:Hl; [|trivial].
  rewrite (extends_lookup _ _ _ _ Hext Hl).
  destruct o; try (intros H; exact H).
  intros [Hsome Hseen]. split; [assumption|].
  intros Hin. apply Hseen. destruct Hext as [_ Hsub]. now apply Hsub.
Qed.

Lemma entry_outcome_visited h (visited visited' : gset loc) v t :
  visited' ⊆ visited -> entry_outcome h visited v t -> entry_outcome h visited' v t.
Proof.
  intros Hsub. destruct v; simpl; try (intros H; exact H).
  destruct (h !! l) as [[]|]; try (intros H; exact H).
  intros [Hsome Hseen]. split; [assumption|]. intros Hin. apply Hseen. now apply Hsub.
Qed.

(** An object that is in [seen] is answered with the marker, the store
    untouched. *)
Lemma toJsonSafe_seen fuel l s r s' :
  toJsonSafe fuel (VRef l) s = Some (r, s') -> l ∈ seen s ->
  r = Normal circular_marker /\ s' = s.
Proof.
  destruct fuel as [|fuel]; [discriminate|]. simpl. unfold toJsonSafe_body. simpl.
  unfold bind at 1. simpl. intros H Hin.
  rewrite bool_decide_eq_true_2 in H by assumption.
  now injection H as <- <-.
Qed.

Lemma map_items_length f items s ts s' :
  map_items f items s = Some (Normal ts, s') -> length ts = length items.
Proof.
  revert s ts s'. induction items as [|item items IH]; simpl; intros s ts s' H.
  - now injection H as <- <-.
  - apply bind_Normal_inv in H as (t & s1 & _ & H).
    apply bind_Normal_inv in H as (ts' & s2 & H2 & H).
    injection H as <- <-. simpl. f_equal. now apply IH in H2.
Qed.

Lemma sanitize_entry_outcome fuel result key value s result' s' :
  sanitize_entry (toJsonSafe fuel) result key value s = Some (Normal result', s') ->
  (forall k, k <> key -> get k result' = get k result)
  /\ (get key result = None -> entry_outcome (heap s) (seen s) value (get key result')).
Proof.
  assert (Hdefine : forall t, (forall k, k <> key -> get k (define key t result) = get k result)
                              /\ get key (define key t result) = Some t).
  { intros t. split; [|apply get_define_same].
    intros k Hk. now apply get_define_other. }
  destruct value; simpl;
    try (intros [= <- <-]; split; [easy | tauto]);
    try (intros [= <- <-]; destruct (Hdefine (Stored (VString (BigInt_toString z)))); now split);
    try (intros [= <- <-]; split; [apply Hdefine | intros _; now rewrite (proj2 (Hdefine _))]).
  intros H. apply bind_Normal_inv in H as (o & s1 & H1 & H).
  apply deref_inv in H1 as (o' & Hl & Ho & ->). injection Ho as ->. rewrite Hl.
  destruct o'.
  - apply bind_Normal_inv in H as (t & s1 & H1 & H). injection H as <- <-.
    split; [apply Hdefine|]. intros _. rewrite (proj2 (Hdefine _)).
    split; [eauto|]. intros Hin.
    now destruct (toJsonSafe_seen _ _ _ _ _ H1 Hin) as [[= ->] _].
  - apply bind_Normal_inv in H as (ts & s1 & H1 & H). injection H as <- <-.
    split; [apply Hdefine|]. intros _. rewrite (proj2 (Hdefine _)).
    exists ts. split; [reflexivity|]. now apply map_items_length in H1.
  - apply bind_Normal_inv in H as (text & s1 & H1 & H). injection H as <- <-.
    apply toISOString_inv in H1 as [_ H1].
    split; [apply Hdefine|]. intros _. rewrite (proj2 (Hdefine _)).
    destruct iso; [injection H1 as -> | discriminate]. eauto.
  - injection H as <- <-. split; [apply Hdefine|]. intros _. now rewrite (proj2 (Hdefine _)).
  - injection H as <- <-. split; [apply Hdefine|]. intros _. now rewrite (proj2 (Hdefine _)).
Qed.

(** The walk over the entries of an object, entry by entry. *)
Lemma reduce_outcome fuel entries result s out s' :
  reduce (sanitize_entry (toJsonSafe fuel)) entries result s = Some (Normal out, s') ->
  NoDup (keys entries) ->
  (forall k, In k (keys entries) -> get k result = None) ->
  forall k,
    match get k entries with
    | Some v => entry_outcome (heap s) (seen s) v (get k out)
    | None => get k out = get k result
    end.
Proof.
  revert result s. induction entries as [|[key value] entries IH]; simpl; intros result s H Hnd Hfree k.
  - now injection H as <- <-.
  - apply bind_Normal_inv in H as (result1 & s1 & H1 & H).
    pose proof (sanitize_entry_extends _ (toJsonSafe_extends fuel) _ _ _ _ _ _ H1) as Hext.
    apply sanitize_entry_outcome in H1 as [Hother Hkey].
    apply NoDup_cons in Hnd as [Hfresh Hnd]. rewrite list_elem_of_In in Hfresh.
    assert (Hfree1 : forall k', In k' (keys entries) -> get k' result1 = None).
    { intros k' Hin. rewrite Hother by (intros ->; contradiction). apply Hfree. now right. }
    specialize (IH result1 s1 H Hnd Hfree1).
    destruct (String.eqb_spec key k) as [->|Hne].
    + specialize (IH k). apply get_None_keys in Hfresh. rewrite Hfresh in IH.
      rewrite IH. apply Hkey. apply Hfree. now left.
    + specialize (IH k). destruct (get k entries) as [v|].
      * now apply (entry_outcome_extends _ _ _ _ Hext).
      * rewrite IH. apply Hother. congruence.
Qed.

(** The keys of an array's entries. *)
Lemma index_key_inj i j : index_key i = index_key j -> i = j.
Proof.
  unfold index_key. intros H.
  assert (Hu : N.to_uint (N.of_nat i) = N.to_uint (N.of_nat j)).
  { pose proof (NilEmpty.usu (N.to_uint (N.of_nat i))) as Hi.
    pose proof (NilEmpty.usu (N.to_uint (N.of_nat j))) as Hj. congruence. }
  apply DecimalN.Unsigned.to_uint_inj in Hu. lia.
Qed.

Lemma keys_index_entries_from {V : Type} i (items : list V) :
  keys (index_entries_from i items) = map index_key (seq i (length items)).
Proof.
  revert i. induction items as [|x items IH]; intros i; simpl; [reflexivity|].
  f_equal. apply IH.
Qed.

Lemma NoDup_keys_index_entries {V : Type} (items : list V) : NoDup (keys (index_entries items)).
Proof.
  unfold index_entries. rewrite keys_index_entries_from.
  apply (NoDup_fmap_2_strong index_key); [|apply NoDup_seq].
  intros i j _ _. apply index_key_inj.
Qed.

Lemma get_index_entries_from {V : Type} i j (items : list V) :
  get (index_key (i + j)) (index_entries_from i items) = items !! j.
Proof.
  revert i j. induction items as [|x items IH]; intros i j; simpl; [reflexivity|].
  destruct j as [|j].
  - rewrite Nat.add_0_r, String.eqb_refl. reflexivity.
  - destruct (String.eqb_spec (index_key i) (index_key (i + S j))) as [Heq|_].
    + apply index_key_inj in Heq. lia.
    + replace (i + S j)%nat with (S i + j)%nat by lia. apply IH.
Qed.

Lemma get_index_entries {V : Type} j (items : list V) :
  get (index_key j) (index_entries items) = items !! j.
Proof. apply (get_index_entries_from 0 j). Qed.

Lemma in_keys_index_entries {V : Type} k (items : list V) :
  In k (keys (index_entries items)) -> exists i, k = index_key i /\ (i < length items)%nat.
Proof.
  unfold index_entries. rewrite keys_index_entries_from, in_map_iff.
  intros (i & <- & Hin). apply in_seq in Hin. exists i. split; [reflexivity | lia].
Qed.

Lemma try_catch_Normal_inv {A : Type} (m : M A) (handler : error -> M A) s a s' :
  (forall e s0, exists e', handler e s0 = Some (Throw e', s0)) ->
  try_catch m handler s = Some (Normal a, s') -> m s = Some (Normal a, s').
Proof.
  intros Hh. unfold try_catch. destruct (m s) as [[[a'|e] s1]|]; try easy.
  destruct (Hh e s1) as [e' ->]. discriminate.
Qed.

Lemma catch_rethrows e s0 : exists e', rethrow e s0 = Some (Throw e', s0).
Proof. now exists (conversion_error e). Qed.

(** A call on an object not yet seen runs the [try] block on it, with the
    object added to [seen]. *)
Lemma toJsonSafe_unseen_inv fuel l s result s' :
  toJsonSafe fuel (VRef l) s = Some (Normal result, s') ->
  l ∉ seen s ->
  exists n o,
    fuel = S n /\ heap s !! l = Some o /\
    convert_object (toJsonSafe n) o (State (heap s) ({[ l ]} ∪ seen s))
      = Some (Normal result, s').
Proof.
  destruct fuel as [|n]; [discriminate|]. simpl. unfold toJsonSafe_body. simpl.
  unfold bind at 1. simpl. intros H Hnew.
  rewrite bool_decide_eq_false_2 in H by assumption.
  unfold bind at 1 in H. simpl in H.
  apply try_catch_Normal_inv in H; [|apply catch_rethrows].
  apply bind_Normal_inv in H as (o & s1 & H1 & H).
  apply deref_inv in H1 as (o' & Hl & Ho & ->). simpl in Hl. injection Ho as ->.
  exists n, o'. auto.
Qed.

(** A call on an object not yet seen, whose own entries are walked. *)
Lemma toJsonSafe_walk_inv fuel l s result s' entries :
  toJsonSafe fuel (VRef l) s = Some (Normal result, s') ->
  l ∉ seen s ->
  heap s !! l = Some (OPlain entries)
  \/ (exists items, heap s !! l = Some (OArray items) /\ entries = index_entries items) ->
  exists n out,
    fuel = S n /\ result = NewObject out /\
    reduce (sanitize_entry (toJsonSafe n)) entries [] (State (heap s) ({[ l ]} ∪ seen s))
      = Some (Normal out, s').
Proof.
  intros H Hnew Hobj.
  apply toJsonSafe_unseen_inv in H as (n & o & -> & Hl & H); [|assumption].
  exists n. destruct Hobj as [Hobj|(items & Hobj & ->)]; rewrite Hobj in Hl; injection Hl as <-;
    simpl in H; apply bind_Normal_inv in H as (out & s1 & H1 & H); injection H as <- <-; eauto.
Qed.

(** A call on a [Set] not yet seen: its elements are copied to a new array
    and that array is walked. *)
Lemma toJsonSafe_set_inv fuel l s result s' elements :
  toJsonSafe fuel (VRef l) s = Some (Normal result, s') ->
  l ∉ seen s -> length (heap s) ∉ seen s ->
  heap s !! l = Some (OSet elements) ->
  exists n out,
    fuel = S (S n) /\ result = NewObject out /\
    reduce (sanitize_entry (toJsonSafe n)) (index_entries elements) []
      (State (heap s ++ [OArray elements]) ({[ length (heap s) ]} ∪ ({[ l ]} ∪ seen s)))
      = Some (Normal out, s').
Proof.
  intros H Hnew Hfresh Hobj.
  apply toJsonSafe_unseen_inv in H as (n & o & -> & Hl & H); [|assumption].
  rewrite Hobj in Hl. injection Hl as <-. simpl in H.
  apply bind_Normal_inv in H as (a & s1 & H1 & H). injection H1 as <- <-.
  apply toJsonSafe_walk_inv with (entries := index_entries elements) in H.
  - destruct H as (n' & out & -> & -> & H). exists n', out. auto.
  - simpl. apply lookup_lt_Some in Hobj.
    intros [Heq%elem_of_singleton|Hin]%elem_of_union; [lia | contradiction].
  - right. exists elements. split; [|reflexivity]. simpl. apply list_lookup_middle. reflexivity.
Qed.

Lemma sanitize_inv fuel h data result :
  sanitize fuel h data = Some (Normal result) ->
  exists s', toJsonSafe fuel data (State h ∅) = Some (Normal result, s').
Proof.
  unfold sanitize. destruct (toJsonSafe fuel data (State h ∅)) as [[r s']|]; [|discriminate].
  simpl. intros [= ->]. eauto.
Qed.


Lemma extends_initial h s : h `prefix_of` heap s -> extends (State h ∅) s.
Proof. intros H. split; simpl; [assumption | set_solver]. Qed.

(** The walk over the elements of an array, element by element. *)
Lemma walk_index_entries fuel items s out s' h :
  reduce (sanitize_entry (toJsonSafe fuel)) (index_entries items) [] s = Some (Normal out, s') ->
  h `prefix_of` heap s ->
  (forall k, get k out <> None -> exists i, k = index_key i /\ (i < length items)%nat)
  /\ (forall i v, items !! i = Some v -> entry_outcome h ∅ v (get (index_key i) out)).
Proof.
  intros Hwalk Hprefix.
  pose proof (reduce_outcome _ _ _ _ _ _ Hwalk (NoDup_keys_index_entries items)
                (fun _ _ => eq_refl)) as Hout.
  split.
  - intros k Hk. specialize (Hout k).
    destruct (get k (index_entries items)) as [v|] eqn:Hget; [|contradiction].
    apply in_keys_index_entries. apply has_true_keys. unfold has. now rewrite Hget.
  - intros i v Hi. specialize (Hout (index_key i)). rewrite get_index_entries, Hi in Hout.
    now apply (entry_outcome_extends (State h ∅) s _ _ (extends_initial h s Hprefix)).
Qed.


(** A self-referential field of a sanitized object holds the marker. *)
Lemma self_reference_marked fuel h l props result :
  h !! l = Some (OPlain props) ->
  NoDup (keys props) ->
  get "self" props = Some (VRef l) ->
  sanitize fuel h (VRef l) = Some (Normal result) ->
  exists out, result = NewObject out /\ get "self" out = Some circular_marker.
Proof.
  intros Hl Hnd Hself Hrun. apply sanitize_inv in Hrun as (s' & Hrun).
  apply toJsonSafe_walk_inv with (entries := props) in Hrun as (n & out & -> & -> & Hwalk);
    [| set_solver | now left].
  exists out. split; [reflexivity|].
  pose proof (reduce_outcome _ _ _ _ _ _ Hwalk Hnd (fun _ _ => eq_refl) "self") as Hout.
  rewrite Hself in Hout. simpl in Hout. rewrite Hl in Hout.
  apply Hout. simpl. apply elem_of_union_l. now apply elem_of_singleton.
Qed.

(** A [Set] or a [Map] met as the value of a field is copied, and what it
    holds is stored as it is, not sanitized. *)
Lemma sanitize_field_collection_stored fuel h l props result :
  h !! l = Some (OPlain props) ->
  NoDup (keys props) ->
  sanitize fuel h (VRef l) = Some (Normal result) ->
  exists out,
    result = NewObject out
    /\ (forall k a elements,
          get k props = Some (VRef a) -> h !! a = Some (OSet elements) ->
          get k out = Some (NewArray (map Stored elements)))
    /\ (forall k a entries,
          get k props = Some (VRef a) -> h !! a = Some (OMap entries) ->
          get k out = Some (NewObject (from_entries (raw_entries entries)))).
Proof.
  intros Hl Hnd Hrun. apply sanitize_inv in Hrun as (s' & Hrun).
  apply toJsonSafe_walk_inv with (entries := props) in Hrun as (n & out & -> & -> & Hwalk);
    [| set_solver | now left].
  exists out. split; [reflexivity|].
  split; intros k a content Hk Ha;
    pose proof (reduce_outcome _ _ _ _ _ _ Hwalk Hnd (fun _ _ => eq_refl) k) as Hout;
    rewrite Hk in Hout; simpl in Hout; now rewrite Ha in Hout.
Qed.

Lemma json_native_field k t out :
  get k out = Some t -> json_native t = false -> json_native (NewObject out) = false.
Proof.
  simpl. induction out as [|[k' t'] out IH]; simpl; [discriminate|].
  destruct (String.eqb k' k).
  - intros [= ->] ->. reflexivity.
  - intros Hk Ht. rewrite (IH Hk Ht). apply andb_false_r.
Qed.

Lemma json_native_stored_bigint z elements :
  In (VBigInt z) elements -> json_native (NewArray (map Stored elements)) = false.
Proof.
  simpl. induction elements as [|v elements IH]; simpl; [contradiction|].
  intros [->|Hin]; [reflexivity|]. rewrite (IH Hin). apply andb_false_r.
Qed.

(** So a big integer in a [Set] under a field is a big integer in the
    output. *)
Lemma sanitize_set_field_not_native fuel h l props k a elements z result :
  h !! l = Some (OPlain props) ->
  NoDup (keys props) ->
  get k props = Some (VRef a) ->
  h !! a = Some (OSet elements) ->
  In (VBigInt z) elements ->
  sanitize fuel h (VRef l) = Some (Normal result) ->
  json_native result = false.
Proof.
  intros Hl Hnd Hk Ha Hz Hrun.
  destruct (sanitize_field_collection_stored _ _ _ _ _ Hl Hnd Hrun) as (out & -> & Hset & _).
  apply (json_native_field k _ _ (Hset _ _ _ Hk Ha)).
  now apply (json_native_stored_bigint z).
Qed.

(** A call that returns leaves its object in [seen]: nothing takes an object
    out of the set again. *)
Lemma toJsonSafe_leaves_seen fuel l s result s' :
  toJsonSafe fuel (VRef l) s = Some (Normal result, s') -> l ∈ seen s'.
Proof.
  intros H. destruct (decide (l ∈ seen s)) as [Hin|Hnew].
  - now destruct (toJsonSafe_seen _ _ _ _ _ H Hin) as [_ ->].
  - apply toJsonSafe_unseen_inv in H as (n & o & -> & Hl & H); [|assumption].
    apply (convert_object_extends _ (toJsonSafe_extends n)) in H as [_ Hsub].
    apply Hsub. simpl. apply elem_of_union_l. now apply elem_of_singleton.
Qed.

(** So of two fields that hold one and the same plain object the second
    comes back as the marker, cycle or no cycle. *)
Lemma shared_reference_marked fuel h l ka kb y props_y result :
  h !! l = Some (OPlain [(ka, VRef y); (kb, VRef y)]) ->
  h !! y = Some (OPlain props_y) ->
  sanitize fuel h (VRef l) = Some (Normal result) ->
  exists t, result = NewObject (define kb circular_marker (define ka t [])).
Proof.
  intros Hl Hy Hrun. apply sanitize_inv in Hrun as (s' & Hrun).
  apply toJsonSafe_walk_inv with (entries := [(ka, VRef y); (kb, VRef y)])
    in Hrun as (n & out & -> & -> & Hwalk); [| set_solver | now left].
  cbn [reduce] in Hwalk.
  apply bind_Normal_inv in Hwalk as (out1 & s1 & Hfirst & Hwalk).
  apply bind_Normal_inv in Hwalk as (out2 & s2 & Hsecond & Hwalk).
  injection Hwalk as <- <-.
  cbn [sanitize_entry] in Hfirst, Hsecond.
  apply bind_Normal_inv in Hfirst as (o & s0 & Hderef & Hfirst).
  apply deref_inv in Hderef as (o' & Ho & [= <-] & ->). cbn [heap] in Ho.
  rewrite Hy in Ho. injection Ho as <-.
  apply bind_Normal_inv in Hfirst as (t & s1' & Hcall & Hfirst).
  injection Hfirst as <- <-.
  pose proof (toJsonSafe_leaves_seen _ _ _ _ _ Hcall) as Hseen.
  pose proof (extends_lookup _ _ _ _ (toJsonSafe_extends _ _ _ _ _ Hcall) Hy) as Hy1.
  apply bind_Normal_inv in Hsecond as (o & s0 & Hderef & Hsecond).
  apply deref_inv in Hderef as (o' & Ho & [= <-] & ->).
  rewrite Hy1 in Ho. injection Ho as <-.
  apply bind_Normal_inv in Hsecond as (t2 & s2' & Hcall2 & Hsecond).
  injection Hsecond as <- <-.
  destruct (toJsonSafe_seen _ _ _ _ _ Hcall2 Hseen) as [[= ->] _].
  now exists t.
Qed.

(** ** Termination of the sanitizer *)

Lemma finishes_ret {A : Type} (a : A) s : state_closed s -> finishes (fun _ => ret a) s.
Proof.
  intros Hc. exists 0%nat, (Normal a), s. repeat split; auto using extends_refl; apply Hc.
Qed.

Lemma finishes_throw {A : Type} (e : error) s :
  state_closed s -> finishes (fun _ => throw (A := A) e) s.
Proof.
  intros Hc. exists 0%nat, (Throw e), s. repeat split; auto using extends_refl; apply Hc.
Qed.

Lemma finishes_bind {A B : Type} (run : nat -> M A) (k : nat -> A -> M B) s :
  finishes run s ->
  (forall a s1, state_closed s1 -> extends s s1 -> (unseen s1 <= unseen s)%nat ->
                finishes (fun fuel => k fuel a) s1) ->
  finishes (fun fuel => bind (run fuel) (k fuel)) s.
Proof.
  intros (n1 & r1 & s1 & Hrun1 & Hc1 & He1 & Hu1) Hk.
  destruct r1 as [a|e].
  - destruct (Hk a s1 Hc1 He1 Hu1) as (n2 & r2 & s2 & Hrun2 & Hc2 & He2 & Hu2).
    exists (Nat.max n1 n2), r2, s2. repeat split; try apply Hc2.
    + intros fuel Hfuel. unfold bind. rewrite Hrun1 by lia. apply Hrun2. lia.
    + apply (extends_trans _ _ _ He1 He2).
    + apply (extends_trans _ _ _ He1 He2).
    + lia.
  - exists n1, (Throw e), s1. repeat split; try apply Hc1; try apply He1; [|assumption].
    intros fuel Hfuel. unfold bind. now rewrite Hrun1.
Qed.

Lemma finishes_step {A B : Type} (m : M A) (k : nat -> A -> M B) s a :
  m s = Some (Normal a, s) ->
  finishes (fun fuel => k fuel a) s ->
  finishes (fun fuel => bind m (k fuel)) s.
Proof.
  intros Hm (n & r & s' & Hrun & Hpost). exists n, r, s'. split; [|exact Hpost].
  intros fuel Hfuel. unfold bind. rewrite Hm. now apply Hrun.
Qed.

Lemma finishes_try_catch {A : Type} (run : nat -> M A) (handler : error -> M A) s :
  finishes run s ->
  (forall e s1, exists e', handler e s1 = Some (Throw e', s1)) ->
  finishes (fun fuel => try_catch (run fuel) handler) s.
Proof.
  intros (n & r & s' & Hrun & Hpost) Hh.
  destruct r as [a|e].
  - exists n, (Normal a), s'. split; [|exact Hpost].
    intros fuel Hfuel. unfold try_catch. now rewrite Hrun.
  - destruct (Hh e s') as [e' He'].
    exists n, (Throw e'), s'. split; [|exact Hpost].
    intros fuel Hfuel. unfold try_catch. now rewrite Hrun.
Qed.

Lemma value_closed_mono n n' v : (n <= n')%nat -> value_closed n v -> value_closed n' v.
Proof. destruct v; simpl; auto. lia. Qed.

Lemma extends_length s s' : extends s s' -> (length (heap s) <= length (heap s'))%nat.
Proof. intros [H _]. now apply prefix_length. Qed.

Lemma Forall_value_closed_mono n n' vs :
  (n <= n')%nat -> Forall (value_closed n) vs -> Forall (value_closed n') vs.
Proof.
  intros Hn H. eapply Forall_impl; [exact H|]. intros v. now apply value_closed_mono.
Qed.

Lemma heap_object_closed s l o :
  state_closed s -> heap s !! l = Some o ->
  Forall (value_closed (length (heap s))) (object_values o).
Proof.
  intros [Hh _] Hl. unfold heap_closed in Hh. rewrite Forall_lookup in Hh. exact (Hh l o Hl).
Qed.

Section Bounded.

Variable m : nat.

Hypothesis IH : forall s data,
  (unseen s <= m)%nat -> state_closed s -> value_closed (length (heap s)) data ->
  finishes (fun fuel => toJsonSafe fuel data) s.

Lemma convert_item_finishes item s :
  (unseen s <= m)%nat -> state_closed s -> value_closed (length (heap s)) item ->
  finishes (fun fuel => convert_item (toJsonSafe fuel) item) s.
Proof.
  intros Hu Hc Hv. unfold convert_item.
  destruct (is_type item TObject && negb (is_null item)).
  - now apply IH.
  - now apply finishes_ret.
Qed.

Lemma map_items_finishes items s :
  (unseen s <= m)%nat -> state_closed s -> Forall (value_closed (length (heap s))) items ->
  finishes (fun fuel => map_items (convert_item (toJsonSafe fuel)) items) s.
Proof.
  revert s. induction items as [|item items IHitems]; intros s Hu Hc Hvs; simpl.
  - now apply finishes_ret.
  - apply Forall_cons in Hvs as [Hv Hvs].
    apply (finishes_bind (fun fuel => convert_item (toJsonSafe fuel) item)
             (fun fuel t => bind (map_items (convert_item (toJsonSafe fuel)) items)
                              (fun ts => ret (t :: ts)))).
    + now apply convert_item_finishes.
    + intros t s1 Hc1 He1 Hu1.
      apply (finishes_bind (fun fuel => map_items (convert_item (toJsonSafe fuel)) items)
               (fun _ ts => ret (t :: ts))).
      * apply IHitems; [lia | assumption |].
        eapply Forall_value_closed_mono; [apply (extends_length _ _ He1) | assumption].
      * intros ts s2 Hc2 _ _. now apply finishes_ret.
Qed.

Lemma sanitize_entry_finishes result key value s :
  (unseen s <= m)%nat -> state_closed s -> value_closed (length (heap s)) value ->
  finishes (fun fuel => sanitize_entry (toJsonSafe fuel) result key value) s.
Proof.
  intros Hu Hc Hv. destruct value; simpl; try now apply finishes_ret.
  simpl in Hv. destruct (lookup_lt_is_Some_2 (heap s) l Hv) as [o Ho].
  apply finishes_step with (a := o); [unfold deref; now rewrite Ho|].
  pose proof (heap_object_closed s l o Hc Ho) as Hvalues.
  destruct o; simpl in *.
  - apply (finishes_bind (fun fuel => toJsonSafe fuel (VRef l))
             (fun _ t => ret (define key t result))).
    + now apply IH.
    + intros t s1 Hc1 _ _. now apply finishes_ret.
  - apply (finishes_bind (fun fuel => map_items (convert_item (toJsonSafe fuel)) items)
             (fun _ ts => ret (define key (NewArray ts) result))).
    + now apply map_items_finishes.
    + intros t s1 Hc1 _ _. now apply finishes_ret.
  - destruct iso; simpl.
    + apply (finishes_bind (fun _ => ret s0) (fun _ text => ret (define key (Stored (VString text)) result))).
      * now apply finishes_ret.
      * intros t s1 Hc1 _ _. now apply finishes_ret.
    + apply (finishes_bind (fun _ => throw RangeError)
               (fun _ text => ret (define key (Stored (VString text)) result))).
      * now apply finishes_throw.
      * intros t s1 Hc1 _ _. now apply finishes_ret.
  - now apply finishes_ret.
  - now apply finishes_ret.
Qed.

Lemma reduce_finishes entries result s :
  (unseen s <= m)%nat -> state_closed s ->
  Forall (value_closed (length (heap s))) (map snd entries) ->
  finishes (fun fuel => reduce (sanitize_entry (toJsonSafe fuel)) entries result) s.
Proof.
  revert result s. induction entries as [|[key value] entries IHentries];
    intros result s Hu Hc Hvs; simpl.
  - now apply finishes_ret.
  - simpl in Hvs. apply Forall_cons in Hvs as [Hv Hvs].
    apply (finishes_bind (fun fuel => sanitize_entry (toJsonSafe fuel) result key value)
             (fun fuel result' => reduce (sanitize_entry (toJsonSafe fuel)) entries result')).
    + now apply sanitize_entry_finishes.
    + intros result' s1 Hc1 He1 Hu1. apply IHentries; [lia | assumption |].
      eapply Forall_value_closed_mono; [apply (extends_length _ _ He1) | assumption].
Qed.

(** The guarded walk of [toJsonSafe] over the entries of an object. *)
Lemma walk_finishes entries s :
  (unseen s <= m)%nat -> state_closed s ->
  Forall (value_closed (length (heap s))) (map snd entries) ->
  finishes (fun fuel =>
              bind (reduce (sanitize_entry (toJsonSafe fuel)) entries [])
                   (fun props => ret (NewObject props))) s.
Proof.
  intros Hu Hc Hvs.
  apply (finishes_bind (fun fuel => reduce (sanitize_entry (toJsonSafe fuel)) entries [])
           (fun _ props => ret (NewObject props))).
  - now apply reduce_finishes.
  - intros props s1 Hc1 _ _. now apply finishes_ret.
Qed.

End Bounded.

Lemma toJsonSafe_not_reference fuel data s :
  (forall l, data <> VRef l) -> toJsonSafe (S fuel) data s = Some (Throw input_error, s).
Proof.
  intros H. destruct data as [| | | | | | | |l];
    try (simpl; unfold toJsonSafe_body; destruct (_ || _); reflexivity).
  now destruct (H l).
Qed.

Lemma toJsonSafe_visited fuel l s :
  l ∈ seen s -> toJsonSafe (S fuel) (VRef l) s = Some (Normal circular_marker, s).
Proof.
  intros H. simpl. unfold toJsonSafe_body. simpl. unfold bind at 1. simpl.
  now rewrite bool_decide_eq_true_2 by assumption.
Qed.

Lemma toJsonSafe_unvisited fuel l s o :
  l ∉ seen s -> heap s !! l = Some o ->
  toJsonSafe (S fuel) (VRef l) s
  = try_catch (convert_object (toJsonSafe fuel) o) rethrow (State (heap s) ({[ l ]} ∪ seen s)).
Proof.
  intros Hnew Hl. simpl. unfold toJsonSafe_body. simpl. unfold bind at 1. simpl.
  rewrite bool_decide_eq_false_2 by assumption.
  unfold bind at 1. simpl. unfold try_catch, bind at 1, deref. simpl. now rewrite Hl.
Qed.

Lemma finishes_from {A : Type} (run run' : nat -> M A) s s1 :
  (forall fuel, run (S fuel) s = run' fuel s1) ->
  finishes run' s1 -> extends s s1 -> (unseen s1 <= unseen s)%nat ->
  finishes run s.
Proof.
  intros Heq (n & r & s' & Hrun & Hc & He & Hu) He1 Hu1.
  exists (S n), r, s'. repeat split; try apply Hc.
  - intros fuel Hfuel. destruct fuel as [|fuel]; [lia|]. rewrite Heq. apply Hrun. lia.
  - apply (extends_trans _ _ _ He1 He).
  - apply (extends_trans _ _ _ He1 He).
  - lia.
Qed.

Lemma seen_bounded s : state_closed s -> (size (seen s) <= length (heap s))%nat.
Proof.
  intros [_ Hs].
  rewrite <- (size_set_seq (C := gset nat) 0 (length (heap s))).
  apply subseteq_size. intros l Hl. apply elem_of_set_seq. specialize (Hs l Hl). lia.
Qed.

Lemma state_closed_seen_add l s :
  state_closed s -> (l < length (heap s))%nat ->
  state_closed (State (heap s) ({[ l ]} ∪ seen s)).
Proof.
  intros [Hh Hs] Hl. split; [exact Hh|]. simpl.
  intros l' [->%elem_of_singleton|Hin]%elem_of_union; auto.
Qed.

Lemma unseen_seen_add l s :
  state_closed s -> (l < length (heap s))%nat -> l ∉ seen s ->
  (S (unseen (State (heap s) ({[ l ]} ∪ seen s))) = unseen s)%nat.
Proof.
  intros Hc Hl Hnew.
  pose proof (seen_bounded _ (state_closed_seen_add l s Hc Hl)) as Hb. simpl in Hb.
  unfold unseen. simpl.
  rewrite size_union in * by (apply disjoint_singleton_l; exact Hnew).
  rewrite size_singleton in *. lia.
Qed.

Lemma heap_closed_app h o :
  heap_closed h -> Forall (value_closed (length h)) (object_values o) -> heap_closed (h ++ [o]).
Proof.
  intros Hh Ho. unfold heap_closed. rewrite length_app. simpl.
  apply Forall_app. split.
  - eapply Forall_impl; [exact Hh|]. intros o' Ho'. simpl in Ho'.
    eapply Forall_value_closed_mono; [|exact Ho']. lia.
  - apply Forall_singleton. eapply Forall_value_closed_mono; [|exact Ho]. lia.
Qed.

Lemma state_closed_alloc o s :
  state_closed s -> Forall (value_closed (length (heap s))) (object_values o) ->
  state_closed (State (heap s ++ [o]) (seen s)).
Proof.
  intros [Hh Hs] Ho. split; simpl.
  - now apply heap_closed_app.
  - intros l Hl. rewrite length_app. simpl. specialize (Hs l Hl). lia.
Qed.

Section PropertyValues.

Context {V : Type} (P : V -> Prop).

Lemma Forall_values_replace k v (ps : list (string * V)) :
  P v -> Forall P (map snd ps) -> Forall P (map snd (replace k v ps)).
Proof.
  intros Hv. induction ps as [|[k' v'] ps IHps]; simpl; [trivial|].
  intros [Hv' Hps]%Forall_cons. destruct (String.eqb k' k); simpl; apply Forall_cons; auto.
Qed.

Lemma Forall_values_insert_index i k v (ps : list (string * V)) :
  P v -> Forall P (map snd ps) -> Forall P (map snd (insert_index i k v ps)).
Proof.
  intros Hv. induction ps as [|[k' v'] ps IHps]; simpl.
  - intros _. now apply Forall_singleton.
  - intros Hall. pose proof Hall as [Hv' Hps]%Forall_cons.
    destruct (array_index k') as [j|]; [destruct (j <? i)%N|]; simpl;
      repeat (apply Forall_cons; split); auto.
Qed.

Lemma Forall_values_define k v (ps : list (string * V)) :
  P v -> Forall P (map snd ps) -> Forall P (map snd (define k v ps)).
Proof.
  intros Hv Hps. unfold define. destruct (has k ps).
  - now apply Forall_values_replace.
  - unfold insert_new. destruct (array_index k).
    + now apply Forall_values_insert_index.
    + rewrite map_app. apply Forall_app. split; [assumption|]. now apply Forall_singleton.
Qed.

Lemma Forall_values_define_all (es ps : list (string * V)) :
  Forall P (map snd es) -> Forall P (map snd ps) -> Forall P (map snd (define_all es ps)).
Proof.
  revert ps. induction es as [|[k v] es IHes]; simpl; intros ps Hes Hps; [assumption|].
  apply Forall_cons in Hes as [Hv Hes]. apply IHes; [assumption|].
  now apply Forall_values_define.
Qed.

End PropertyValues.

Lemma values_index_entries_from {V : Type} i (items : list V) :
  map snd (index_entries_from i items) = items.
Proof.
  revert i. induction items as [|x items IH]; intros i; simpl; [reflexivity|]. now rewrite IH.
Qed.

Lemma finishes_at_once {A : Type} (run : nat -> M A) s r :
  (forall fuel, run (S fuel) s = Some (r, s)) -> state_closed s -> finishes run s.
Proof.
  intros Hrun Hc. exists 1%nat, r, s. repeat split; try apply Hc; auto using extends_refl.
  intros fuel Hfuel. destruct fuel as [|fuel]; [lia | apply Hrun].
Qed.

Section Walked.

Variable m : nat.

Hypothesis IH : forall s data,
  (unseen s <= m)%nat -> state_closed s -> value_closed (length (heap s)) data ->
  finishes (fun fuel => toJsonSafe fuel data) s.

(** A call on an object not yet seen that is walked in place (a plain
    object, an array, a date). *)
Lemma toJsonSafe_walked_finishes s l o :
  state_closed s -> heap s !! l = Some o -> l ∉ seen s ->
  (unseen (State (heap s) ({[ l ]} ∪ seen s)) <= m)%nat ->
  match o with OSet _ | OMap _ => False | _ => True end ->
  finishes (fun fuel => toJsonSafe fuel (VRef l)) s.
Proof.
  intros Hc Hl Hnew Hm Hkind.
  pose proof (lookup_lt_Some _ _ _ Hl) as Hlt.
  pose proof (state_closed_seen_add l s Hc Hlt) as Hc1.
  pose proof (unseen_seen_add l s Hc Hlt Hnew) as Hu1.
  pose proof (heap_object_closed s l o Hc Hl) as Hvalues.
  apply (finishes_from _ (fun fuel => try_catch (convert_object (toJsonSafe fuel) o) rethrow)
           s (State (heap s) ({[ l ]} ∪ seen s))).
  - intros fuel. now apply toJsonSafe_unvisited.
  - apply finishes_try_catch; [|apply catch_rethrows].
    destruct o as [props|items|iso| |]; try contradiction; simpl.
    + now apply (walk_finishes m IH).
    + apply (walk_finishes m IH); try assumption.
      unfold index_entries. now rewrite values_index_entries_from.
    + destruct iso as [text|]; simpl.
      * apply (finishes_bind (fun _ => ret text) (fun _ t => ret (Stored (VString t)))).
        -- now apply finishes_ret.
        -- intros t s1 Hc' _ _. now apply finishes_ret.
      * apply (finishes_bind (fun _ => throw RangeError) (fun _ t => ret (Stored (VString t)))).
        -- now apply finishes_throw.
        -- intros t s1 Hc' _ _. now apply finishes_ret.
  - apply extends_seen_add.
  - lia.
Qed.

(** A call on a [Set] or [Map] not yet seen: the copy [o'] is allocated and
    walked. *)
Lemma toJsonSafe_copied_finishes s l o o' :
  state_closed s -> heap s !! l = Some o -> l ∉ seen s ->
  (unseen (State (heap s) ({[ l ]} ∪ seen s)) <= m)%nat ->
  (forall self, convert_object self o = bind (alloc o') (fun a => self (VRef a))) ->
  match o' with OSet _ | OMap _ => False | _ => True end ->
  Forall (value_closed (length (heap s))) (object_values o') ->
  finishes (fun fuel => toJsonSafe fuel (VRef l)) s.
Proof.
  intros Hc Hl Hnew Hm Hcopy Hkind Hvalues.
  pose proof (lookup_lt_Some _ _ _ Hl) as Hlt.
  pose proof (state_closed_seen_add l s Hc Hlt) as Hc1.
  pose proof (unseen_seen_add l s Hc Hlt Hnew) as Hu1.
  pose proof (seen_bounded _ Hc1) as Hb1. simpl in Hb1.
  set (s2 := State (heap s ++ [o']) ({[ l ]} ∪ seen s)).
  assert (Hc2 : state_closed s2)
    by (apply (state_closed_alloc o' (State (heap s) ({[ l ]} ∪ seen s))); assumption).
  assert (Hfresh : length (heap s) ∉ seen s2).
  { simpl. intros Hin. destruct Hc1 as [_ Hs]. specialize (Hs _ Hin). simpl in Hs. lia. }
  assert (Hu2 : unseen s2 = S (unseen (State (heap s) ({[ l ]} ∪ seen s)))).
  { unfold unseen, s2. simpl. rewrite length_app. simpl. lia. }
  apply (finishes_from _ (fun fuel => try_catch (toJsonSafe fuel (VRef (length (heap s)))) rethrow)
           s s2).
  - intros fuel. rewrite (toJsonSafe_unvisited fuel l s o Hnew Hl), Hcopy. reflexivity.
  - apply finishes_try_catch; [|apply catch_rethrows].
    apply (toJsonSafe_walked_finishes s2 (length (heap s)) o'); try assumption.
    + simpl. apply list_lookup_middle. reflexivity.
    + assert (Hlt2 : (length (heap s) < length (heap s2))%nat)
        by (simpl; rewrite length_app; simpl; lia).
      pose proof (unseen_seen_add _ s2 Hc2 Hlt2 Hfresh). lia.
  - split; simpl; [now apply prefix_app_r | apply union_subseteq_r].
  - lia.
Qed.

End Walked.

Lemma toJsonSafe_finishes_by_unseen k :
  forall s data,
    unseen s = k -> state_closed s -> value_closed (length (heap s)) data ->
    finishes (fun fuel => toJsonSafe fuel data) s.
Proof.
  induction k as [k IHk] using lt_wf_ind. intros s data Hk Hc Hv.
  destruct data as [| | | | | | | |l];
    try (apply finishes_at_once with (r := Throw input_error); [|assumption];
         intros fuel; now apply toJsonSafe_not_reference).
  destruct (decide (l ∈ seen s)) as [Hseen|Hnew].
  { apply finishes_at_once with (r := Normal circular_marker); [|assumption].
    intros fuel. now apply toJsonSafe_visited. }
  simpl in Hv. destruct (lookup_lt_is_Some_2 (heap s) l Hv) as [o Hl].
  pose proof (unseen_seen_add l s Hc Hv Hnew) as Hu1.
  set (m := unseen (State (heap s) ({[ l ]} ∪ seen s))) in *.
  assert (IH : forall s' data',
    (unseen s' <= m)%nat -> state_closed s' -> value_closed (length (heap s')) data' ->
    finishes (fun fuel => toJsonSafe fuel data') s').
  { intros s' data' Hu' Hc' Hv'. apply (IHk (unseen s')); [lia | reflexivity | assumption..]. }
  pose proof (heap_object_closed s l o Hc Hl) as Hvalues.
  destruct o as [props|items|iso|elements|entries].
  - now apply (toJsonSafe_walked_finishes m IH s l (OPlain props)).
  - now apply (toJsonSafe_walked_finishes m IH s l (OArray items)).
  - now apply (toJsonSafe_walked_finishes m IH s l (ODate iso)).
  - now apply (toJsonSafe_copied_finishes m IH s l (OSet elements) (OArray elements)).
  - apply (toJsonSafe_copied_finishes m IH s l (OMap entries) (OPlain (from_entries entries)));
      try easy.
    simpl in *. apply Forall_values_define_all; [assumption | constructor].
Qed.

Lemma initial_state_closed h : heap_closed h -> state_closed (State h ∅).
Proof. intros Hh. split; [exact Hh|]. simpl. intros l Hl. now apply not_elem_of_empty in Hl. Qed.

(** A self-referential object with no other field. *)
Lemma sanitize_self_loop h l fuel :
  h !! l = Some (OPlain [("self", VRef l)]) ->
  sanitize (S (S fuel)) h (VRef l)
  = Some (Normal (NewObject [("self", circular_marker)])).
Proof.
  intros Hl. unfold sanitize.
  rewrite (toJsonSafe_unvisited _ l (State h ∅) _ (not_elem_of_empty l) Hl).
  set (s1 := State (heap (State h ∅)) ({[ l ]} ∪ seen (State h ∅))).
  assert (Hentry : sanitize_entry (toJsonSafe (S fuel)) [] "self" (VRef l) s1
                   = Some (Normal [("self", circular_marker)], s1)).
  { unfold sanitize_entry, bind, deref. cbn [heap s1]. rewrite Hl.
    rewrite toJsonSafe_visited
      by (cbn [seen s1]; apply elem_of_union_l; now apply elem_of_singleton).
    reflexivity. }
  unfold try_catch. cbn [convert_object reduce]. unfold bind. now rewrite Hentry.
Qed.

(** C7.  [toJsonSafe] terminates on every object graph, cyclic or not: from
    some fuel on the top-level call gives one and the same outcome.  For an
    object [x] with [x.self = x], a returned result is an object whose
    [self] field is the marker [{"[Circular]": true}]; when [self] is the
    only field the call returns exactly [{self: {"[Circular]": true}}]. *)
Theorem toJsonSafe_terminates (h : list object) (data : value) :
  heap_closed h ->
  value_closed (length h) data ->
  (exists fuel outcome, forall fuel', (fuel <= fuel')%nat -> sanitize fuel' h data = Some outcome)
  /\ (forall l props fuel result,
        data = VRef l -> h !! l = Some (OPlain props) -> NoDup (keys props) ->
        get "self" props = Some (VRef l) ->
        sanitize fuel h data = Some (Normal result) ->
        exists out, result = NewObject out /\ get "self" out = Some circular_marker)
  /\ (forall l fuel,
        data = VRef l -> h !! l = Some (OPlain [("self", VRef l)]) -> (2 <= fuel)%nat ->
        sanitize fuel h data = Some (Normal (NewObject [("self", circular_marker)]))).
Proof.
  intros Hh Hv. split; [|split].
  - destruct (toJsonSafe_finishes_by_unseen _ (State h ∅) data eq_refl
                (initial_state_closed h Hh) Hv) as (n & r & s' & Hrun & _).
    exists n, r. intros fuel Hfuel. unfold sanitize. now rewrite Hrun.
  - intros l props fuel result -> Hl Hnd Hself Hrun.
    now apply (self_reference_marked fuel h l props).
  - intros l fuel -> Hl Hfuel.
    destruct fuel as [|[|fuel]]; try lia. now apply sanitize_self_loop.
Qed.

End SanitizerProperties.

Section FacilitatorProperties.

Import Codec Facilitator.

(** ** [verify]'s answer to a response that is not a 200 *)

(** C9 (amended).  On a response whose status is not 200, [verify] returns
    [{isValid: false, errorMessage}] and does not throw: [errorMessage] is the
    [error] field of the JSON body when the body parses and that field is
    truthy, and the generic message with the status text otherwise (no JSON
    body, no [error] field, or a falsy one such as the empty string). *)
Theorem verify_response_not_200 (res : response) :
  status res <> 200 ->
  (forall body, json res = Normal body -> ToBoolean (read body "error") = true ->
     verify_response res = Normal (verify_failure (read body "error")))
  /\ ((forall body, json res = Normal body -> ToBoolean (read body "error") = false) ->
      verify_response res
      = Normal (verify_failure (VString ("Failed to verify payment: " ++ statusText res)))).
Proof.
  intros Hstatus. unfold verify_response.
  destruct (Z.eqb_spec (status res) 200) as [|_]; [contradiction|]. cbn [negb].
  split.
  - intros body Hbody Htruthy. rewrite Hbody, cbind_Normal.
    destruct body; try discriminate Htruthy; cbn [get_prop]; now rewrite Htruthy.
  - intros Hfalsy. destruct (json res) as [body|e]; [|reflexivity].
    rewrite cbind_Normal. specialize (Hfalsy body eq_refl).
    destruct body; try reflexivity; cbn [get_prop]; now rewrite Hfalsy.
Qed.

End FacilitatorProperties.

Section CodecSamples.

Import Codec.

(** ** The codec on sample payloads *)

Lemma sample_payment_well_formed : well_formed_authorization Samples.payment.
Proof.
  apply (well_formed_payment Samples.payment_fields Samples.payload_fields
           Samples.authorization_fields "authorization" (2 ^ 200) 0 1893456000
           "0xf3746613c2d920b5fdabc0856f2aeb2d4f88ee6037b8cc5d04a71a4462f13480" "1"
           Samples.signature);
    try (vm_compute; reflexivity); try (vm_compute; discriminate).
  now left.
Defined.

Example encode_sample_payment :
  encodePaymentPayload Reference.engine Samples.payment = Normal Samples.payment_encoded.
Proof. vm_compute. reflexivity. Qed.


(** The sample payload through the reference engine, by the general facts:
    its transport form is one the JSON text carries. *)
Example sample_payment_transportable :
  forall safe,
    convert_payment (value_toString Reference.engine) Samples.payment = Normal safe ->
    Reference.transportable safe.
Proof.
  intros safe Hsafe. vm_compute in Hsafe. injection Hsafe as <-.
  cbn [Reference.transportable fold_right snd].
  repeat match goal with
         | |- _ /\ _ => split
         | |- True => exact I
         | |- own_property_order _ => vm_compute; reflexivity
         | |- exists z, _ => exists 1; split; reflexivity
         end.
Qed.

Example sample_payment_roundtrip :
  exists encoded,
    encodePaymentPayload Reference.engine Samples.payment = Normal encoded
    /\ decodePaymentPayload Reference.engine encoded = Normal Samples.payment.
Proof.
  apply (reference_json_roundtrip _ _ Samples.payment sample_payment_well_formed).
  - intros t. exists (Reference.base64_encode t). split; [reflexivity|].
    now rewrite base64_decode_encode.
  - apply sample_payment_transportable.
Qed.

(** C2 as stated fails: an empty [value] decodes to [0n] and a hexadecimal
    [validAfter] to [16n]; neither is a base-10 numeral. *)
Lemma decodePaymentPayload_lenient_numerals :
  (do decoded <- safeBase64Decode Reference.engine Samples.lenient_encoded;
   JSON_parse Reference.engine decoded)
  = Normal (VObject [("payload", VObject (Samples.received "" "0x10" "2" (VString "0xabc")))])
  /\ decimal_digits "" = None
  /\ decimal_digits "0x10" = None
  /\ decodePaymentPayload Reference.engine Samples.lenient_encoded
     = Normal (VObject
         [("payload",
           VObject [("type", VString "authorization");
                    ("signature", VString "0xabc");
                    ("authorization",
                     VObject [("value", VBigInt 0);
                              ("validAfter", VBigInt 16);
                              ("validBefore", VBigInt 2);
                              ("nonce", VString "n");
                              ("version", VString "1")])])]).
Proof. repeat split; vm_compute; reflexivity. Qed.

Lemma decodePaymentPayload_unreadable_numeral_witness :
  StringToBigInt "1.5" = None
  /\ exists e, decodePaymentPayload Reference.engine Samples.fractional_encoded = Throw e.
Proof.
  split; [vm_compute; reflexivity|].
  eapply (fun decoded Hdecode Hparse =>
            proj1 (decodePaymentPayload_unreadable_numeral
                     Reference.engine Samples.fractional_encoded decoded
                     [("payload", VObject (Samples.received "1.5" "1" "2" (VString "0xabc")))]
                     (Samples.received "1.5" "1" "2" (VString "0xabc"))
                     [("value", VString "1.5"); ("validAfter", VString "1");
                      ("validBefore", VString "2"); ("nonce", VString "n");
                      ("version", VString "1")]
                     Hdecode Hparse eq_refl eq_refl eq_refl)).
  - vm_compute. reflexivity.
  - vm_compute. reflexivity.
  - exists "value", "1.5". split; [now left|]. split; vm_compute; reflexivity.
Defined.

Lemma validatePaymentPayload_returns_input_witness :
  exists result,
    validatePaymentPayload Samples.payment = Normal result /\ result = Samples.payment.
Proof.
  exists Samples.payment. split; [vm_compute; reflexivity|].
  apply (validatePaymentPayload_returns_input Samples.payment Samples.payment).
  vm_compute. reflexivity.
Defined.

(** C5 as stated fails: a [payload.type] that is the empty string is none of
    the two authorization tags, and the validator throws the structure
    error, not the unknown-payload-type error. *)
Lemma validatePaymentPayload_empty_type :
  read (VObject [("type", VString "")]) "type" = VString ""
  /\ is_authorization_type (VString "") = false
  /\ validatePaymentPayload (VObject [("payload", VObject [("type", VString "")])])
     = Throw structure_error
  /\ structure_error <> payload_type_error.
Proof. repeat split; try (vm_compute; reflexivity). discriminate. Qed.

(** Left out of C5 as amended: a signature that is present and is no string
    has no [startsWith], and the validator throws a [TypeError]. *)
Lemma validatePaymentPayload_signature_not_string :
  validatePaymentPayload
    (VObject [("payload", VObject (Samples.received "1" "1" "2" (VNumber (number_of_Z 5))))])
  = Throw authorization_error
  /\ validatePaymentPayload
       (VObject [("payload",
                  VObject [("type", VString "authorization");
                           ("signature", VNumber (number_of_Z 5));
                           ("authorization", VObject Samples.authorization_fields)])])
     = Throw TypeError.
Proof. split; vm_compute; reflexivity. Qed.

Lemma validatePaymentPayload_rejections_witness :
  validatePaymentPayload
    (VObject [("payload", VObject [("type", VString "authorization");
                                   ("signature", VString "abc");
                                   ("authorization", VObject Samples.authorization_fields)])])
  = Throw authorization_error
  /\ validatePaymentPayload (VObject [("payload", VObject [("type", VString "foo")])])
     = Throw payload_type_error.
Proof.
  split.
  - apply (validatePaymentPayload_rejections
             [("payload", VObject [("type", VString "authorization");
                                   ("signature", VString "abc");
                                   ("authorization", VObject Samples.authorization_fields)])]
             [("type", VString "authorization"); ("signature", VString "abc");
              ("authorization", VObject Samples.authorization_fields)] eq_refl).
    + reflexivity.
    + apply signature_without_prefix with (s := "abc"); reflexivity.
  - apply (validatePaymentPayload_rejections
             [("payload", VObject [("type", VString "foo")])] [("type", VString "foo")] eq_refl);
      reflexivity.
Defined.

End CodecSamples.

Section FacilitatorSamples.

Import Codec Facilitator.

(** ** [verify] on sample responses *)

(** C9 as stated fails: the body has an [error] field, the empty string, and
    [errorMessage] is the generic message instead. *)
Lemma verify_response_empty_error :
  status Samples.empty_error <> 200
  /\ json Samples.empty_error = Normal (VObject [("error", VString "")])
  /\ get "error" [("error", VString "")] = Some (VString "")
  /\ verify_response Samples.empty_error
     = Normal (verify_failure (VString "Failed to verify payment: Internal Server Error"))
  /\ VString "Failed to verify payment: Internal Server Error" <> VString "".
Proof. repeat split; try (vm_compute; reflexivity); discriminate. Qed.

Lemma verify_response_not_200_witness :
  verify_response Samples.payment_required
  = Normal (verify_failure (VString "insufficient funds")).
Proof.
  apply (proj1 (verify_response_not_200 Samples.payment_required ltac:(discriminate))
           (VObject [("error", VString "insufficient funds")]));
    reflexivity.
Defined.

End FacilitatorSamples.

Section SanitizerSamples.

Import Sanitizer.

(** ** The sanitizer on sample graphs *)

Lemma sample_keys_NoDup (ks : list string) : bool_decide (NoDup ks) = true -> NoDup ks.
Proof. apply bool_decide_eq_true_1. Qed.


Example sanitize_sparse_object :
  sanitize 2 Samples.sparse_heap (VRef 0)
  = Some (Normal (NewObject [("c", Stored (VNumber (number_of_Z 1)))])).
Proof. vm_compute. reflexivity. Qed.

Lemma self_heap_closed : heap_closed Samples.self_heap.
Proof. repeat constructor. Defined.

Lemma toJsonSafe_terminates_witness :
  (exists fuel outcome,
      forall fuel', (fuel <= fuel')%nat -> sanitize fuel' Samples.self_heap (VRef 0) = Some outcome)
  /\ sanitize 2 Samples.self_heap (VRef 0)
     = Some (Normal (NewObject [("self", circular_marker)])).
Proof.
  destruct (toJsonSafe_terminates Samples.self_heap (VRef 0) self_heap_closed)
    as (Hends & _ & Hself).
  - simpl. lia.
  - split; [exact Hends|]. apply (Hself 0%nat 2%nat eq_refl eq_refl). lia.
Defined.

Example sanitize_array :
  sanitize 2 Samples.array_heap (VRef 0)
  = Some (Normal (NewObject [("0", Stored (VNumber (number_of_Z 1)));
                             ("1", Stored (VNumber (number_of_Z 2)));
                             ("2", Stored (VNumber (number_of_Z 3)))])).
Proof. vm_compute. reflexivity. Qed.


(** C3 fails on the code: the [Set] under a field is copied element by
    element, and the big integer in it stays a big integer, which a JSON
    serializer rejects. *)
Lemma nested_set_keeps_bigint :
  sanitize 2 Samples.nested_set_heap (VRef 0)
  = Some (Normal (NewObject
       [("s", NewArray [Stored (VBigInt 123456789012345678901234567890)])]))
  /\ json_native (NewObject
       [("s", NewArray [Stored (VBigInt 123456789012345678901234567890)])]) = false
  /\ sanitize 3 Samples.nested_set_heap (VRef 1)
     = Some (Normal (NewObject
          [("0", Stored (VString "123456789012345678901234567890"))])).
Proof. repeat split; vm_compute; reflexivity. Qed.

(** The same for a [Map] under a field, and for a big integer that is an
    element of an array under a field. *)
Example nested_map_keeps_bigint :
  sanitize 2 Samples.nested_map_heap (VRef 0)
  = Some (Normal (NewObject [("m", NewObject [("k", Stored (VBigInt 1))])])).
Proof. vm_compute. reflexivity. Qed.

Example array_field_keeps_bigint :
  sanitize 2 Samples.bigint_array_heap (VRef 0)
  = Some (Normal (NewObject [("xs", NewArray [Stored (VBigInt 1)])])).
Proof. vm_compute. reflexivity. Qed.

(** C4 fails on the code: [seen] keeps every object of the traversal, so the
    second occurrence of a shared object is answered with the marker though
    nothing is cyclic. *)
Lemma shared_object_marked_circular :
  sanitize 3 Samples.shared_heap (VRef 0)
  = Some (Normal (NewObject
       [("a", NewObject [("k", Stored (VNumber (number_of_Z 1)))]);
        ("b", circular_marker)])).
Proof. vm_compute. reflexivity. Qed.

End SanitizerSamples.

(** * Further properties of the code *)

Section CodecCoverage.

Import Codec.

(** ** What the codec accepts, refuses and passes through *)

Lemma is_type_true v t : Codec.is_type v t = true <-> Codec.typeof v = t.
Proof. unfold Codec.is_type. apply jstype_eqb_eq. Qed.

(** The validator, check by check. *)
Lemma validatePaymentPayload_accepts_accepted obj :
  accepted obj -> validatePaymentPayload obj = Normal obj.
Proof.
  intros (Hobj & Tobj & Hpayload & Tpayload & Htype & Hauth & Tv & Ta & Tb & Tn & Tver
          & s & Hsig & Hprefix).
  unfold validatePaymentPayload.
  rewrite Hobj, (proj2 (is_type_true _ _) Tobj). cbn [negb orb].
  rewrite (get_prop_truthy _ _ Hobj), cbind_Normal.
  rewrite Hpayload, (proj2 (is_type_true _ _) Tpayload). cbn [negb orb].
  rewrite !(get_prop_truthy _ _ Hpayload), !cbind_Normal.
  assert (Htruthy : Codec.ToBoolean (read (read obj "payload") "type") = true).
  { unfold is_authorization_type, strict_equal_string in Htype.
    destruct (read (read obj "payload") "type"); try discriminate Htype. simpl.
    destruct (String.eqb_spec s0 "") as [->|]; [discriminate Htype | reflexivity]. }
  rewrite Htruthy, Htype, Hauth. cbn [negb].
  rewrite !(get_prop_truthy _ _ Hauth), !cbind_Normal.
  rewrite (proj2 (is_type_true _ _) Tv), (proj2 (is_type_true _ _) Ta),
    (proj2 (is_type_true _ _) Tb), (proj2 (is_type_true _ _) Tn),
    (proj2 (is_type_true _ _) Tver).
  cbn [negb]. rewrite Hsig. cbn [Codec.ToBoolean startsWith cbind].
  assert (Hnonempty : negb (String.eqb s "") = true)
    by (destruct s; [discriminate Hprefix | reflexivity]).
  now rewrite Hnonempty, Hprefix.
Qed.

Lemma validatePaymentPayload_returns_accepted obj result :
  validatePaymentPayload obj = Normal result -> accepted obj.
Proof.
  unfold validatePaymentPayload, accepted. intros H.
  destruct (Codec.ToBoolean obj) eqn:Hobj; [|discriminate H].
  destruct (Codec.is_type obj TObject) eqn:Tobj; [|discriminate H]. cbn [negb orb] in H.
  rewrite (get_prop_truthy _ _ Hobj), cbind_Normal in H.
  destruct (Codec.ToBoolean (read obj "payload")) eqn:Hpayload; [|discriminate H].
  destruct (Codec.is_type (read obj "payload") TObject) eqn:Tpayload; [|discriminate H].
  cbn [negb orb] in H.
  rewrite !(get_prop_truthy _ _ Hpayload), !cbind_Normal in H.
  destruct (Codec.ToBoolean (read (read obj "payload") "type")) eqn:Htruthy; [|discriminate H].
  cbn [negb] in H.
  destruct (is_authorization_type (read (read obj "payload") "type")) eqn:Htype;
    [|discriminate H].
  destruct (Codec.ToBoolean (read (read obj "payload") "authorization")) eqn:Hauth;
    [|discriminate H].
  cbn [negb] in H. rewrite !(get_prop_truthy _ _ Hauth), !cbind_Normal in H.
  repeat match type of H with
         | context [negb (Codec.is_type ?v ?t)] =>
             destruct (Codec.is_type v t) eqn:?; cbn [negb] in H; [|discriminate H]
         end.
  destruct (Codec.ToBoolean (read (read obj "payload") "signature")) eqn:Hsig; [|discriminate H].
  cbn [negb] in H.
  destruct (read (read obj "payload") "signature") as [| | | |s| | |] eqn:Hs;
    try discriminate H.
  cbn [startsWith cbind] in H.
  destruct (String.prefix "0x" s) eqn:Hprefix; [|discriminate H].
  repeat match goal with
         | Ht : Codec.is_type _ _ = true |- _ => apply is_type_true in Ht
         end.
  repeat split; try assumption. now exists s.
Qed.

(** X1.  The validator returns its input exactly when the input is of the
    accepted shape; on every other input it throws. *)
Theorem validatePaymentPayload_accepts_exactly (obj : value) :
  validatePaymentPayload obj = Normal obj <-> accepted obj.
Proof.
  split.
  - apply validatePaymentPayload_returns_accepted.
  - apply validatePaymentPayload_accepts_accepted.
Qed.

Lemma validatePaymentPayload_returns_same obj result :
  validatePaymentPayload obj = Normal result -> result = obj.
Proof.
  intros H. pose proof (validatePaymentPayload_returns_accepted _ _ H) as Hacc.
  rewrite (validatePaymentPayload_accepts_accepted _ Hacc) in H. now injection H.
Qed.

(** X2.  Whatever string it is given and whatever the engine, a payload that
    [decodePaymentPayload] returns is of the accepted shape: its type is
    authorization-like and its three numeric fields are big integers. *)
Theorem decodePaymentPayload_returns_accepted (E : Engine) (payment : string) (result : value) :
  decodePaymentPayload E payment = Normal result -> accepted result.
Proof.
  unfold decodePaymentPayload. intros H.
  destruct (safeBase64Decode E payment) as [decoded|]; [|discriminate H].
  rewrite cbind_Normal in H.
  destruct (JSON_parse E decoded) as [parsed|]; [|discriminate H].
  rewrite cbind_Normal in H.
  destruct (convert_payment (BigInt E) parsed) as [obj|]; [|discriminate H].
  rewrite cbind_Normal in H.
  rewrite (validatePaymentPayload_returns_same _ _ H).
  now apply (validatePaymentPayload_returns_accepted obj result).
Qed.

(** A payload whose type is not authorization-like is copied as it is. *)
Lemma convert_payment_other_type f top inner :
  own_property_order top ->
  get "payload" top = Some (VObject inner) ->
  own_property_order inner ->
  is_authorization_type (read (VObject inner) "type") = false ->
  convert_payment f (VObject top) = Normal (VObject top).
Proof.
  intros Htop Hpayload Hinner Htype. unfold convert_payment.
  cbn [own_entries]. rewrite Htop.
  rewrite get_prop_object', (read_get _ _ _ Hpayload), cbind_Normal.
  cbn [own_entries]. rewrite Hinner.
  rewrite get_prop_object', cbind_Normal, Htype, cbind_Normal.
  rewrite (define_existing "payload") by now apply (has_of_get _ _ _ Hpayload).
  now rewrite (replace_same_value _ _ _ Hpayload).
Qed.

(** X3.  A payment whose payload is of another type is encoded as it is, no
    field converted and nothing checked; decoding what was encoded throws:
    the unknown-payload-type error, or the structure error for a falsy
    type. *)
Theorem encodePaymentPayload_other_type_not_decodable
    (E : Engine) (top inner : list (string * value)) :
  own_property_order top ->
  get "payload" top = Some (VObject inner) ->
  own_property_order inner ->
  is_authorization_type (read (VObject inner) "type") = false ->
  (forall t, exists c, safeBase64Encode E t = Normal c /\ safeBase64Decode E c = Normal t) ->
  (exists text, JSON_stringify E (VObject top) = Normal text
                /\ JSON_parse E text = Normal (VObject top)) ->
  convert_payment (value_toString E) (VObject top) = Normal (VObject top)
  /\ exists encoded,
       encodePaymentPayload E (VObject top) = Normal encoded
       /\ decodePaymentPayload E encoded
          = Throw (if Codec.ToBoolean (read (VObject inner) "type")
                   then payload_type_error else structure_error).
Proof.
  intros Htop Hpayload Hinner Htype Hbase64 (text & Hwrite & Hparse).
  pose proof (convert_payment_other_type (value_toString E) _ _ Htop Hpayload Hinner Htype)
    as Hsent.
  pose proof (convert_payment_other_type (BigInt E) _ _ Htop Hpayload Hinner Htype) as Hback.
  split; [exact Hsent|].
  destruct (Hbase64 text) as (encoded & Hencode & Hdecode).
  exists encoded. unfold encodePaymentPayload, decodePaymentPayload.
  rewrite Hsent, cbind_Normal, Hwrite, cbind_Normal. split; [exact Hencode|].
  rewrite Hdecode, cbind_Normal, Hparse, cbind_Normal, Hback, cbind_Normal.
  unfold validatePaymentPayload. cbn [Codec.ToBoolean Codec.is_type Codec.typeof jstype_eqb negb orb].
  rewrite get_prop_object', (read_get _ _ _ Hpayload), cbind_Normal.
  cbn [Codec.ToBoolean Codec.is_type Codec.typeof jstype_eqb negb orb].
  rewrite get_prop_object', cbind_Normal, Htype.
  now destruct (Codec.ToBoolean (read (VObject inner) "type")).
Qed.

(** [toString] throws nothing but a [TypeError]. *)
Lemma toString_throws E v e : toString E v = Throw e -> e = TypeError.
Proof.
  revert e. induction v as [| |b|n|s|z|items IH|props IH] using value_induction;
    intros e; simpl; try congruence.
  - induction IH as [|item items Hitem _ IHitems]; simpl; [discriminate|].
    destruct item; simpl;
      try (destruct (sequence _) as [parts|e'] eqn:Hparts; simpl;
           [discriminate | intros [= <-]; now apply IHitems]).
    all: match goal with
         | |- context [cbind (cbind ?m _) _] => destruct m as [text|e'] eqn:Htext
         end; simpl;
      [ destruct (sequence _) as [parts|e''] eqn:Hparts; simpl;
        [discriminate | intros [= <-]; now apply IHitems]
      | intros [= <-]; now apply Hitem ].
  - destruct (has "toString" props); congruence.
Qed.

Lemma value_toString_throws E v e : value_toString E v = Throw e -> e = TypeError.
Proof.
  unfold value_toString. destruct (toString E v) as [s|e'] eqn:Hs; simpl; [discriminate|].
  intros [= <-]. now apply (toString_throws E v).
Qed.

Lemma value_toString_nullish E v : is_nullish v = true -> value_toString E v = Throw TypeError.
Proof. now destruct v. Qed.

Lemma get_prop_nullish v k : is_nullish v = true -> get_prop v k = Throw TypeError.
Proof. now destruct v. Qed.

Lemma get_prop_read v k : is_nullish v = false -> get_prop v k = Normal (read v k).
Proof. now destruct v. Qed.

Lemma read_nullish v k : is_nullish v = true -> read v k = VUndefined.
Proof. now destruct v. Qed.

(** X4.  The encoder checks nothing and reads straight through the payment:
    when the payment, its payload, or (for an authorization-like type) the
    authorization or one of its three numeric fields is [undefined] or
    [null], encoding throws a [TypeError]. *)
Theorem encodePaymentPayload_unreadable (E : Engine) (payment : value) :
  unreadable_payment payment -> encodePaymentPayload E payment = Throw TypeError.
Proof.
  intros Hbad. unfold encodePaymentPayload.
  assert (Hconvert : convert_payment (value_toString E) payment = Throw TypeError);
    [|now rewrite Hconvert].
  unfold convert_payment.
  destruct (is_nullish payment) eqn:Hpayment;
    [now rewrite (get_prop_nullish _ _ Hpayment)|].
  rewrite (get_prop_read _ _ Hpayment), cbind_Normal.
  destruct (is_nullish (read payment "payload")) eqn:Hpayload;
    [now rewrite (get_prop_nullish _ _ Hpayload)|].
  rewrite (get_prop_read _ _ Hpayload), cbind_Normal.
  destruct Hbad as [H|H|Htype H|k Htype Hk H]; try congruence.
  - rewrite Htype, (get_prop_read _ _ Hpayload), cbind_Normal.
    now rewrite (get_prop_nullish _ _ H).
  - rewrite Htype, (get_prop_read _ _ Hpayload), cbind_Normal.
    destruct (is_nullish (read (read payment "payload") "authorization")) eqn:Hauthorization;
      [now rewrite (get_prop_nullish _ _ Hauthorization)|].
    rewrite !(get_prop_read _ _ Hauthorization), !cbind_Normal.
    destruct (value_toString E (read (read (read payment "payload") "authorization") "value"))
      as [v1|e1] eqn:H1.
    2: { now rewrite (value_toString_throws _ _ _ H1). }
    rewrite cbind_Normal, ?(get_prop_read _ _ Hauthorization), ?cbind_Normal.
    destruct (value_toString E (read (read (read payment "payload") "authorization") "validAfter"))
      as [v2|e2] eqn:H2.
    2: { now rewrite (value_toString_throws _ _ _ H2). }
    rewrite cbind_Normal, ?(get_prop_read _ _ Hauthorization), ?cbind_Normal.
    destruct (value_toString E (read (read (read payment "payload") "authorization") "validBefore"))
      as [v3|e3] eqn:H3.
    2: { now rewrite (value_toString_throws _ _ _ H3). }
    destruct Hk as [-> | [-> | ->]];
      rewrite (value_toString_nullish E _ H) in *; discriminate.
Qed.

(** A defect of the authorization makes the validator throw its
    authorization error. *)
Lemma authorization_defect_rejected top inner :
  get "payload" top = Some (VObject inner) ->
  is_authorization_type (read (VObject inner) "type") = true ->
  authorization_defect (VObject inner) ->
  validatePaymentPayload (VObject top) = Throw authorization_error.
Proof.
  intros Hpayload Htype Hdefect.
  unfold validatePaymentPayload.
  cbn [Codec.ToBoolean Codec.is_type Codec.typeof jstype_eqb negb orb].
  rewrite get_prop_object', (read_get _ _ _ Hpayload), cbind_Normal.
  cbn [Codec.ToBoolean Codec.is_type Codec.typeof jstype_eqb negb orb].
  rewrite !get_prop_object', !cbind_Normal, Htype.
  assert (Htruthy : Codec.ToBoolean (read (VObject inner) "type") = true).
  { unfold is_authorization_type, strict_equal_string in Htype.
    destruct (read (VObject inner) "type"); try discriminate Htype. simpl.
    destruct (String.eqb_spec s "") as [->|]; [discriminate Htype | reflexivity]. }
  rewrite Htruthy. cbn [negb].
  destruct (Codec.ToBoolean (read (VObject inner) "authorization")) eqn:Hauth; cbn [negb];
    [| reflexivity].
  rewrite !(get_prop_truthy _ _ Hauth), !cbind_Normal.
  repeat match goal with
         | |- context [negb (Codec.is_type ?v ?t)] =>
             destruct (Codec.is_type v t) eqn:?; cbn [negb]; [| reflexivity]
         end.
  destruct (Codec.ToBoolean (read (VObject inner) "signature")) eqn:Hsig; cbn [negb];
    [| reflexivity].
  destruct Hdefect as [H|H|H|H|H|H|H|s Hs Hprefix];
    try (apply is_type_false in H; congruence); try congruence.
  rewrite Hs. cbn [startsWith cbind]. now rewrite Hprefix.
Qed.

(** X5.  The encoder does not validate: a payment with well-formed numeric
    fields and a defect the validator refuses (a [nonce] or [version] that is
    no string, a missing signature or one without the [0x] prefix) is encoded
    all the same, and it is decoding that throws the authorization error. *)
Theorem encodePaymentPayload_does_not_validate
    (E : Engine) (top inner fields : list (string * value)) (type : string)
    (value validAfter validBefore : Z) :
  own_property_order top ->
  get "payload" top = Some (VObject inner) ->
  own_property_order inner ->
  get "type" inner = Some (VString type) ->
  type = "authorization" \/ type = "authorizationEip3009" ->
  get "authorization" inner = Some (VObject fields) ->
  own_property_order fields ->
  get "value" fields = Some (VBigInt value) ->
  get "validAfter" fields = Some (VBigInt validAfter) ->
  get "validBefore" fields = Some (VBigInt validBefore) ->
  authorization_defect (VObject inner) ->
  (forall t, exists c, safeBase64Encode E t = Normal c /\ safeBase64Decode E c = Normal t) ->
  (forall safe, convert_payment (value_toString E) (VObject top) = Normal safe ->
     exists text, JSON_stringify E safe = Normal text /\ JSON_parse E text = Normal safe) ->
  exists encoded,
    encodePaymentPayload E (VObject top) = Normal encoded
    /\ decodePaymentPayload E encoded = Throw authorization_error.
Proof.
  intros Ht Hp Hi Hty Htype Ha Hf Hv Hva Hvb Hdefect Hbase64 Hjson.
  pose proof (convert_payment_to_strings E top inner fields type value validAfter validBefore
                Ht Hp Hi Hty Htype Ha Hf Hv Hva Hvb) as Hsent.
  pose proof (convert_payment_from_strings E top inner fields type value validAfter validBefore
                Ht Hp Hi Hty Htype Ha Hf Hv Hva Hvb) as Hback.
  destruct (Hjson _ Hsent) as (text & Hwrite & Hparse).
  destruct (Hbase64 text) as (encoded & Hencode & Hdecode).
  exists encoded. unfold encodePaymentPayload, decodePaymentPayload.
  rewrite Hsent, cbind_Normal, Hwrite, cbind_Normal. split; [exact Hencode|].
  rewrite Hdecode, cbind_Normal, Hparse, cbind_Normal, Hback, cbind_Normal.
  apply (authorization_defect_rejected top inner Hp); [|exact Hdefect].
  rewrite (read_get _ _ _ Hty). destruct Htype as [-> | ->]; reflexivity.
Qed.

(** What [BigInt] throws, by the kind of its argument. *)
Lemma BigInt_throws E v e :
  BigInt E v = Throw e ->
  match v with
  | VUndefined | VNull => e = TypeError
  | VNumber n => e = RangeError /\ NumberToBigInt n = None
  | VString s => e = SyntaxError /\ StringToBigInt s = None
  | VArray _ | VObject _ => e = TypeError \/ e = SyntaxError
  | VBool _ | VBigInt _ => False
  end.
Proof.
  destruct v as [| |b|n|s|z|items|props]; cbn [BigInt]; try congruence.
  - destruct (NumberToBigInt n); [discriminate | now intros [= <-]].
  - destruct (StringToBigInt s); [discriminate | now intros [= <-]].
  - destruct (toString E (VArray items)) as [s|e'] eqn:Hs; cbn [cbind].
    + destruct (StringToBigInt s); [discriminate | intros [= <-]; now right].
    + intros [= <-]. left. now apply (toString_throws E (VArray items)).
  - destruct (toString E (VObject props)) as [s|e'] eqn:Hs; cbn [cbind].
    + destruct (StringToBigInt s); [discriminate | intros [= <-]; now right].
    + intros [= <-]. left. now apply (toString_throws E (VObject props)).
Qed.

(** X6.  Decoding converts [value], [validAfter], [validBefore] in this
    order and throws exactly what [BigInt] throws on the first it cannot
    convert, unwrapped: a [TypeError] for a missing or [null] field, a
    [RangeError] for a number with a fraction, a [SyntaxError] for a string
    that is no integer literal. *)
Theorem decodePaymentPayload_conversion_error
    (E : Engine) (payment decoded : string) (top inner fields : list (string * value)) :
  safeBase64Decode E payment = Normal decoded ->
  JSON_parse E decoded = Normal (VObject top) ->
  get "payload" top = Some (VObject inner) ->
  is_authorization_type (read (VObject inner) "type") = true ->
  get "authorization" inner = Some (VObject fields) ->
  (forall e, BigInt E (read (VObject fields) "value") = Throw e ->
             decodePaymentPayload E payment = Throw e)
  /\ (forall b e, BigInt E (read (VObject fields) "value") = Normal b ->
                  BigInt E (read (VObject fields) "validAfter") = Throw e ->
                  decodePaymentPayload E payment = Throw e)
  /\ (forall b b' e, BigInt E (read (VObject fields) "value") = Normal b ->
                     BigInt E (read (VObject fields) "validAfter") = Normal b' ->
                     BigInt E (read (VObject fields) "validBefore") = Throw e ->
                     decodePaymentPayload E payment = Throw e)
  /\ (forall v e, BigInt E v = Throw e ->
        match v with
        | VUndefined | VNull => e = TypeError
        | VNumber n => e = RangeError /\ NumberToBigInt n = None
        | VString s => e = SyntaxError /\ StringToBigInt s = None
        | VArray _ | VObject _ => e = TypeError \/ e = SyntaxError
        | VBool _ | VBigInt _ => False
        end).
Proof.
  intros Hdecode Hparse Hpayload Htype Hauth.
  assert (Hrun : decodePaymentPayload E payment
                 = do obj <-
                     (do value' <- BigInt E (read (VObject fields) "value");
                      do validAfter' <- BigInt E (read (VObject fields) "validAfter");
                      do validBefore' <- BigInt E (read (VObject fields) "validBefore");
                      Normal (VObject (define "payload"
                        (VObject (define "authorization"
                           (VObject (define "validBefore" validBefore'
                                       (define "validAfter" validAfter'
                                          (define "value" value' (from_entries fields)))))
                           (from_entries inner)))
                        (from_entries top))));
                   validatePaymentPayload obj).
  { unfold decodePaymentPayload. rewrite Hdecode, cbind_Normal, Hparse, cbind_Normal.
    f_equal. unfold convert_payment.
    rewrite get_prop_object', (read_get _ _ _ Hpayload), cbind_Normal.
    rewrite !get_prop_object', !cbind_Normal, Htype.
    rewrite (read_get _ _ _ Hauth), !get_prop_object', !cbind_Normal.
    destruct (BigInt E (read (VObject fields) "value")); [|reflexivity].
    rewrite !cbind_Normal, ?get_prop_object', ?cbind_Normal.
    destruct (BigInt E (read (VObject fields) "validAfter")); [|reflexivity].
    rewrite !cbind_Normal, ?get_prop_object', ?cbind_Normal.
    destruct (BigInt E (read (VObject fields) "validBefore")); reflexivity. }
  rewrite Hrun. repeat split.
  - intros e ->. reflexivity.
  - intros b e -> ->. reflexivity.
  - intros b b' e -> -> ->. reflexivity.
  - apply BigInt_throws.
Qed.

(** X7.  The numeric fields need not arrive as strings: whatever [BigInt]
    converts is taken, so a JSON number that is an integer, or a boolean, in
    place of a decimal string is turned into a big integer and handed to the
    validator like one. *)
Theorem decodePaymentPayload_coerces
    (E : Engine) (payment decoded : string) (top inner fields : list (string * value))
    (b1 b2 b3 : value) :
  safeBase64Decode E payment = Normal decoded ->
  JSON_parse E decoded = Normal (VObject top) ->
  get "payload" top = Some (VObject inner) ->
  is_authorization_type (read (VObject inner) "type") = true ->
  get "authorization" inner = Some (VObject fields) ->
  BigInt E (read (VObject fields) "value") = Normal b1 ->
  BigInt E (read (VObject fields) "validAfter") = Normal b2 ->
  BigInt E (read (VObject fields) "validBefore") = Normal b3 ->
  (exists obj,
     decodePaymentPayload E payment = validatePaymentPayload obj
     /\ read (read (read obj "payload") "authorization") "value" = b1
     /\ read (read (read obj "payload") "authorization") "validAfter" = b2
     /\ read (read (read obj "payload") "authorization") "validBefore" = b3)
  /\ (forall z, BigInt E (VNumber (number_of_Z z)) = Normal (VBigInt z))
  /\ (forall b, BigInt E (VBool b) = Normal (VBigInt (if b then 1 else 0))).
Proof.
  intros Hdecode Hparse Hpayload Htype Hauth H1 H2 H3. split; [|split].
  - eexists. split.
    + unfold decodePaymentPayload. rewrite Hdecode, cbind_Normal, Hparse, cbind_Normal.
      rewrite (convert_payment_authorization (BigInt E) top inner fields b1 b2 b3
                 Hpayload Htype Hauth H1 H2 H3).
      rewrite cbind_Normal. reflexivity.
    + rewrite !read_define_same.
      rewrite !(read_define_other "validBefore") by discriminate.
      rewrite (read_define_other "validAfter" _ "value") by discriminate.
      now rewrite !read_define_same.
  - intros z. cbn [BigInt]. now rewrite NumberToBigInt_of_Z.
  - reflexivity.
Qed.

End CodecCoverage.

Section SanitizerCoverage.

Import Sanitizer.

(** A call on an object reference: the marker for an object already seen,
    else the [try] block on the object, an error caught and rethrown. *)
Lemma toJsonSafe_reference_inv fuel l s r s' :
  toJsonSafe fuel (VRef l) s = Some (r, s') ->
  ((l ∈ seen s) /\ r = Normal circular_marker /\ s' = s)
  \/ ((l ∉ seen s) /\ exists n o r0,
        fuel = S n /\ heap s !! l = Some o
        /\ convert_object (toJsonSafe n) o (State (heap s) ({[ l ]} ∪ seen s)) = Some (r0, s')
        /\ r = match r0 with
               | Normal t => Normal t
               | Throw e => Throw (conversion_error e)
               end).
Proof.
  intros H. destruct (decide (l ∈ seen s)) as [Hin|Hnew].
  - left. destruct (toJsonSafe_seen _ _ _ _ _ H Hin) as [-> ->]. auto.
  - right. split; [assumption|].
    destruct fuel as [|n]; [discriminate|].
    destruct (heap s !! l) as [o|] eqn:Hl.
    + rewrite (toJsonSafe_unvisited n l s o Hnew Hl) in H.
      unfold try_catch in H.
      destruct (convert_object (toJsonSafe n) o (State (heap s) ({[ l ]} ∪ seen s)))
        as [[[t|e] s1]|] eqn:Hrun; [| |discriminate].
      * injection H as <- <-. exists n, o, (Normal t). auto.
      * injection H as <- <-. exists n, o, (Throw e). auto.
    + exfalso. revert H. simpl. unfold toJsonSafe_body. simpl. unfold bind at 1. simpl.
      rewrite bool_decide_eq_false_2 by assumption.
      unfold bind at 1. simpl. unfold try_catch, bind at 1, deref. simpl. now rewrite Hl.
Qed.

(** ** No error without an invalid [Date] *)

Section DatesValid.

Variable self : value -> M tree.

Hypothesis self_returns : forall l s r s',
  dates_valid (heap s) -> self (VRef l) s = Some (r, s') ->
  (exists t, r = Normal t) /\ dates_valid (heap s').

Lemma convert_item_returns item s r s' :
  dates_valid (heap s) -> convert_item self item s = Some (r, s') ->
  (exists t, r = Normal t) /\ dates_valid (heap s').
Proof.
  intros Hs. unfold convert_item.
  destruct item; simpl; try (intros [= <- <-]; eauto).
  now apply self_returns.
Qed.

Lemma map_items_returns items s r s' :
  dates_valid (heap s) -> map_items (convert_item self) items s = Some (r, s') ->
  (exists ts, r = Normal ts) /\ dates_valid (heap s').
Proof.
  revert s r s'. induction items as [|item items IH]; simpl; intros s r s' Hs H.
  - injection H as <- <-. eauto.
  - apply bind_inv in H as [(t & s1 & H1 & H)|(e & H1 & _)].
    + apply convert_item_returns in H1 as [_ Hs1]; [|assumption].
      apply bind_inv in H as [(ts & s2 & H2 & H)|(e & H2 & _)].
      * apply IH in H2 as [_ Hs2]; [|assumption]. injection H as <- <-. eauto.
      * apply IH in H2 as [[ts [=]] _]; assumption.
    + apply convert_item_returns in H1 as [[t [=]] _]; assumption.
Qed.

Lemma dates_valid_lookup h l : dates_valid h -> h !! l <> Some (ODate None).
Proof.
  intros Hh Hl. unfold dates_valid in Hh. rewrite Forall_lookup in Hh.
  now apply (Hh l _ Hl).
Qed.

Lemma sanitize_entry_returns result key value s r s' :
  dates_valid (heap s) -> sanitize_entry self result key value s = Some (r, s') ->
  (exists out, r = Normal out) /\ dates_valid (heap s').
Proof.
  intros Hs. destruct value; simpl; try (intros [= <- <-]; eauto).
  intros H. apply bind_inv in H as [(o & s1 & H1 & H)|(e & H1 & _)];
    apply deref_inv in H1 as (o' & Hl & Ho & ->); [|discriminate].
  injection Ho as ->. destruct o'.
  - apply bind_inv in H as [(t & s1 & H1 & H)|(e & H1 & _)].
    + apply self_returns in H1 as [_ Hs1]; [|assumption]. injection H as <- <-. eauto.
    + apply self_returns in H1 as [[t [=]] _]; assumption.
  - apply bind_inv in H as [(t & s1 & H1 & H)|(e & H1 & _)].
    + apply map_items_returns in H1 as [_ Hs1]; [|assumption]. injection H as <- <-. eauto.
    + apply map_items_returns in H1 as [[t [=]] _]; assumption.
  - destruct iso as [text|]; [|now apply dates_valid_lookup in Hl].
    injection H as <- <-. eauto.
  - injection H as <- <-. eauto.
  - injection H as <- <-. eauto.
Qed.

Lemma reduce_returns entries result s r s' :
  dates_valid (heap s) -> reduce (sanitize_entry self) entries result s = Some (r, s') ->
  (exists out, r = Normal out) /\ dates_valid (heap s').
Proof.
  revert result s. induction entries as [|[key value] entries IH]; simpl; intros result s Hs H.
  - injection H as <- <-. eauto.
  - apply bind_inv in H as [(t & s1 & H1 & H)|(e & H1 & _)].
    + apply sanitize_entry_returns in H1 as [_ Hs1]; [|assumption]. now apply IH in H.
    + apply sanitize_entry_returns in H1 as [[t [=]] _]; assumption.
Qed.

Lemma dates_valid_alloc h o : dates_valid h -> o <> ODate None -> dates_valid (h ++ [o]).
Proof. intros Hh Ho. apply Forall_app. split; [assumption|]. now apply Forall_singleton. Qed.

Lemma convert_object_returns o s r s' :
  dates_valid (heap s) -> o <> ODate None ->
  convert_object self o s = Some (r, s') ->
  (exists t, r = Normal t) /\ dates_valid (heap s').
Proof.
  intros Hs Ho H. destruct o; simpl in H.
  - apply bind_inv in H as [(t & s3 & H1 & H)|(e & H1 & _)].
    + apply reduce_returns in H1 as [_ Hs1]; [|assumption]. injection H as <- <-. eauto.
    + apply reduce_returns in H1 as [[t [=]] _]; assumption.
  - apply bind_inv in H as [(t & s3 & H1 & H)|(e & H1 & _)].
    + apply reduce_returns in H1 as [_ Hs1]; [|assumption]. injection H as <- <-. eauto.
    + apply reduce_returns in H1 as [[t [=]] _]; assumption.
  - destruct iso as [text|]; [|congruence]. injection H as <- <-. eauto.
  - apply bind_inv in H as [(a & s3 & H1 & H)|(e & H1 & _)]; [|discriminate].
    injection H1 as <- <-. apply self_returns in H; [assumption|].
    simpl. now apply dates_valid_alloc.
  - apply bind_inv in H as [(a & s3 & H1 & H)|(e & H1 & _)]; [|discriminate].
    injection H1 as <- <-. apply self_returns in H; [assumption|].
    simpl. now apply dates_valid_alloc.
Qed.

End DatesValid.

Lemma toJsonSafe_returns fuel :
  forall l s r s',
    dates_valid (heap s) -> toJsonSafe fuel (VRef l) s = Some (r, s') ->
    (exists t, r = Normal t) /\ dates_valid (heap s').
Proof.
  induction fuel as [|fuel IH]; intros l s r s' Hs H; [discriminate|].
  apply toJsonSafe_reference_inv in H
    as [(_ & -> & ->)|(_ & n & o & r0 & [= <-] & Hl & Hrun & ->)]; [eauto|].
  apply (convert_object_returns (toJsonSafe fuel) IH) in Hrun as [[t ->] Hs'].
  - eauto.
  - assumption.
  - intros ->. now apply dates_valid_lookup in Hl.
Qed.

(** ** The errors the sanitizer throws *)

Section ErrorShape.

Variable self : value -> M tree.

Hypothesis self_throws : forall l s e s',
  self (VRef l) s = Some (Throw e, s') -> exists n, e = wrapped (S n).

Lemma convert_item_throws item s e s' :
  convert_item self item s = Some (Throw e, s') -> exists n, e = wrapped n.
Proof.
  unfold convert_item. destruct item; simpl; try discriminate.
  intros H. apply self_throws in H as [n ->]. eauto.
Qed.

Lemma map_items_throws items s e s' :
  map_items (convert_item self) items s = Some (Throw e, s') -> exists n, e = wrapped n.
Proof.
  revert s. induction items as [|item items IH]; simpl; intros s H; [discriminate|].
  apply bind_inv in H as [(t & s1 & H1 & H)|(e' & H1 & [= <-])].
  - apply bind_inv in H as [(ts & s2 & H2 & H)|(e' & H2 & [= <-])]; [discriminate|].
    now apply IH in H2.
  - now apply convert_item_throws in H1.
Qed.

Lemma sanitize_entry_throws result key value s e s' :
  sanitize_entry self result key value s = Some (Throw e, s') -> exists n, e = wrapped n.
Proof.
  destruct value; simpl; try discriminate.
  intros H. apply bind_inv in H as [(o & s1 & H1 & H)|(e' & H1 & _)];
    apply deref_inv in H1 as (o' & Hl & Ho & ->); [|discriminate].
  injection Ho as ->. destruct o'.
  - apply bind_inv in H as [(t & s1 & H1 & H)|(e' & H1 & [= <-])]; [discriminate|].
    apply self_throws in H1 as [n ->]. eauto.
  - apply bind_inv in H as [(t & s1 & H1 & H)|(e' & H1 & [= <-])]; [discriminate|].
    now apply map_items_throws in H1.
  - apply bind_inv in H as [(t & s1 & H1 & H)|(e' & H1 & [= <-])]; [discriminate|].
    apply toISOString_inv in H1 as [_ H1]. destruct iso; [discriminate|].
    injection H1 as ->. now exists 0%nat.
  - discriminate.
  - discriminate.
Qed.

Lemma reduce_throws entries result s e s' :
  reduce (sanitize_entry self) entries result s = Some (Throw e, s') ->
  exists n, e = wrapped n.
Proof.
  revert result s. induction entries as [|[key value] entries IH]; simpl; intros result s H;
    [discriminate|].
  apply bind_inv in H as [(t & s1 & H1 & H)|(e' & H1 & [= <-])].
  - now apply IH in H.
  - now apply sanitize_entry_throws in H1.
Qed.

Lemma convert_object_throws o s e s' :
  convert_object self o s = Some (Throw e, s') -> exists n, e = wrapped n.
Proof.
  intros H. destruct o; simpl in H.
  - apply bind_inv in H as [(t & s3 & H1 & H)|(e' & H1 & [= <-])]; [discriminate|].
    now apply reduce_throws in H1.
  - apply bind_inv in H as [(t & s3 & H1 & H)|(e' & H1 & [= <-])]; [discriminate|].
    now apply reduce_throws in H1.
  - apply bind_inv in H as [(t & s3 & H1 & H)|(e' & H1 & [= <-])]; [discriminate|].
    apply toISOString_inv in H1 as [_ H1]. destruct iso; [discriminate|].
    injection H1 as ->. now exists 0%nat.
  - apply bind_inv in H as [(a & s3 & H1 & H)|(e' & H1 & _)]; [|discriminate].
    apply self_throws in H as [n ->]. eauto.
  - apply bind_inv in H as [(a & s3 & H1 & H)|(e' & H1 & _)]; [|discriminate].
    apply self_throws in H as [n ->]. eauto.
Qed.

End ErrorShape.

Lemma toJsonSafe_throws fuel :
  forall l s e s',
    toJsonSafe fuel (VRef l) s = Some (Throw e, s') -> exists n, e = wrapped (S n).
Proof.
  induction fuel as [|fuel IH]; intros l s e s' H; [discriminate|].
  apply toJsonSafe_reference_inv in H
    as [(_ & [=] & _)|(_ & n & o & r0 & [= <-] & Hl & Hrun & Hr)].
  destruct r0 as [t|e0]; [discriminate|]. injection Hr as ->.
  apply (convert_object_throws (toJsonSafe fuel) IH) in Hrun as [n ->].
  now exists n.
Qed.

(** ** JSON-native output *)

Lemma json_native_object props :
  json_native (NewObject props) = true <-> Forall (fun t => json_native t = true) (map snd props).
Proof.
  simpl. rewrite forallb_forall, Forall_forall. split.
  - intros H t Hin. apply list_elem_of_In, in_map_iff in Hin as ((k & t') & <- & Hin).
    now apply (H (k, t')).
  - intros H [k t] Hin. apply H. apply list_elem_of_In, in_map_iff. now exists (k, t).
Qed.

Lemma json_native_array items :
  json_native (NewArray items) = true <-> Forall (fun t => json_native t = true) items.
Proof.
  simpl. rewrite forallb_forall, Forall_forall. split.
  - intros H t Hin. apply H. now apply list_elem_of_In.
  - intros H t Hin. apply H. now apply list_elem_of_In.
Qed.

Lemma json_native_plain v : is_plain v = true -> json_native (Stored v) = true.
Proof. now destruct v. Qed.

Lemma json_native_stored_plain vs :
  forallb is_plain vs = true -> json_native (NewArray (map Stored vs)) = true.
Proof.
  intros H. apply json_native_array. rewrite forallb_forall in H.
  apply Forall_forall. intros t Hin.
  apply list_elem_of_In, in_map_iff in Hin as (v & <- & Hin).
  apply json_native_plain. now apply H.
Qed.

Lemma heap_tame_lookup h l o : heap_tame h -> h !! l = Some o -> tame o = true.
Proof. intros Hh Hl. unfold heap_tame in Hh. rewrite Forall_lookup in Hh. now apply (Hh l). Qed.

Lemma heap_tame_alloc h o : heap_tame h -> tame o = true -> heap_tame (h ++ [o]).
Proof. intros Hh Ho. apply Forall_app. split; [assumption|]. now apply Forall_singleton. Qed.

Section Native.

Variable self : value -> M tree.

Hypothesis self_native : forall l s t s',
  heap_tame (heap s) -> self (VRef l) s = Some (Normal t, s') ->
  json_native t = true /\ heap_tame (heap s').

Lemma convert_item_native item s t s' :
  heap_tame (heap s) -> is_plain item || is_reference item = true ->
  convert_item self item s = Some (Normal t, s') ->
  json_native t = true /\ heap_tame (heap s').
Proof.
  intros Hs Hitem. unfold convert_item.
  destruct item; try discriminate Hitem; simpl; try (intros [= <- <-]; auto).
  now apply self_native.
Qed.

Lemma map_items_native items s ts s' :
  heap_tame (heap s) -> forallb (fun item => is_plain item || is_reference item) items = true ->
  map_items (convert_item self) items s = Some (Normal ts, s') ->
  Forall (fun t => json_native t = true) ts /\ heap_tame (heap s').
Proof.
  revert s ts s'. induction items as [|item items IH]; simpl; intros s ts s' Hs Hitems H.
  - injection H as <- <-. auto.
  - apply andb_prop in Hitems as [Hitem Hitems].
    apply bind_Normal_inv in H as (t & s1 & H1 & H).
    apply bind_Normal_inv in H as (ts' & s2 & H2 & H). injection H as <- <-.
    apply convert_item_native in H1 as [Ht Hs1]; [|assumption..].
    apply IH in H2 as [Hts Hs2]; [|assumption..]. split; [|assumption].
    now apply Forall_cons.
Qed.

Lemma sanitize_entry_native result key value s result' s' :
  heap_tame (heap s) -> Forall (fun t => json_native t = true) (map snd result) ->
  sanitize_entry self result key value s = Some (Normal result', s') ->
  Forall (fun t => json_native t = true) (map snd result') /\ heap_tame (heap s').
Proof.
  intros Hs Hresult.
  destruct value; simpl;
    try (intros [= <- <-]; split; [|assumption]; try assumption;
         now apply Forall_values_define).
  intros H. apply bind_Normal_inv in H as (o & s1 & H1 & H).
  apply deref_inv in H1 as (o' & Hl & Ho & ->). injection Ho as ->.
  pose proof (heap_tame_lookup _ _ _ Hs Hl) as Htame.
  destruct o'.
  - apply bind_Normal_inv in H as (t & s1 & H1 & H). injection H as <- <-.
    apply self_native in H1 as [Ht Hs1]; [|assumption]. split; [|assumption].
    now apply Forall_values_define.
  - apply bind_Normal_inv in H as (ts & s1 & H1 & H). injection H as <- <-.
    apply map_items_native in H1 as [Hts Hs1]; [|assumption..]. split; [|assumption].
    apply Forall_values_define; [|assumption]. now apply json_native_array.
  - apply bind_Normal_inv in H as (text & s1 & H1 & H). injection H as <- <-.
    apply toISOString_inv in H1 as [-> _]. split; [|assumption].
    now apply Forall_values_define.
  - injection H as <- <-. split; [|assumption].
    apply Forall_values_define; [|assumption]. now apply json_native_stored_plain.
  - injection H as <- <-. split; [|assumption].
    apply Forall_values_define; [|assumption].
    apply json_native_object. apply Forall_values_define_all; [|constructor].
    simpl in Htame. rewrite forallb_forall in Htame. unfold raw_entries.
    rewrite map_map. apply Forall_forall. intros t Hin.
    apply list_elem_of_In, in_map_iff in Hin as (kv & <- & Hin).
    apply json_native_plain. now apply Htame.
Qed.

Lemma reduce_native entries result s out s' :
  heap_tame (heap s) -> Forall (fun t => json_native t = true) (map snd result) ->
  reduce (sanitize_entry self) entries result s = Some (Normal out, s') ->
  Forall (fun t => json_native t = true) (map snd out) /\ heap_tame (heap s').
Proof.
  revert result s. induction entries as [|[key value] entries IH]; simpl;
    intros result s Hs Hresult H.
  - injection H as <- <-. auto.
  - apply bind_Normal_inv in H as (result1 & s1 & H1 & H).
    apply sanitize_entry_native in H1 as [Hresult1 Hs1]; [|assumption..].
    now apply IH in H.
Qed.

Lemma convert_object_native o s t s' :
  heap_tame (heap s) -> tame o = true ->
  convert_object self o s = Some (Normal t, s') ->
  json_native t = true /\ heap_tame (heap s').
Proof.
  intros Hs Ho H. destruct o; simpl in H.
  - apply bind_Normal_inv in H as (out & s1 & H1 & H). injection H as <- <-.
    apply reduce_native in H1 as [Hout Hs1]; [|assumption|constructor].
    split; [|assumption]. now apply json_native_object.
  - apply bind_Normal_inv in H as (out & s1 & H1 & H). injection H as <- <-.
    apply reduce_native in H1 as [Hout Hs1]; [|assumption|constructor].
    split; [|assumption]. now apply json_native_object.
  - apply bind_Normal_inv in H as (text & s1 & H1 & H). injection H as <- <-.
    apply toISOString_inv in H1 as [-> _]. auto.
  - apply bind_Normal_inv in H as (a & s1 & H1 & H). injection H1 as <- <-.
    apply self_native in H; [assumption|]. simpl. apply heap_tame_alloc; [assumption|].
    simpl in *. rewrite forallb_forall in *. intros v Hin. now rewrite (Ho v Hin).
  - apply bind_Normal_inv in H as (a & s1 & H1 & H). injection H1 as <- <-.
    apply self_native in H; [assumption|]. simpl. now apply heap_tame_alloc.
Qed.

End Native.

Lemma toJsonSafe_native fuel :
  forall l s t s',
    heap_tame (heap s) -> toJsonSafe fuel (VRef l) s = Some (Normal t, s') ->
    json_native t = true /\ heap_tame (heap s').
Proof.
  induction fuel as [|fuel IH]; intros l s t s' Hs H; [discriminate|].
  apply toJsonSafe_reference_inv in H
    as [(_ & [= ->] & ->)|(_ & n & o & r0 & [= <-] & Hl & Hrun & Hr)]; [auto|].
  destruct r0 as [t0|e0]; [|discriminate]. injection Hr as ->.
  apply (convert_object_native (toJsonSafe fuel) IH) in Hrun; [assumption..|].
  now apply (heap_tame_lookup _ _ _ Hs Hl).
Qed.

(** ** Errors, dates, maps and non-native fields at the top level *)



(** X10.  A [Date] given as the input itself comes back as its ISO string,
    not as an object; an invalid one makes the call throw the conversion
    error that names the [RangeError]'s message. *)
Theorem sanitize_top_level_date (fuel : nat) (h : list object) (l : loc) (iso : option string) :
  h !! l = Some (ODate iso) ->
  sanitize (S fuel) h (VRef l)
  = Some (match iso with
          | Some text => Normal (Stored (VString text))
          | None => Throw (Error "Failed to convert to JSON-safe format: Invalid time value")
          end).
Proof.
  intros Hl. unfold sanitize.
  rewrite (toJsonSafe_unvisited fuel l (State h ∅) (ODate iso) (not_elem_of_empty l) Hl).
  now destruct iso.
Qed.


(** A call on a [Map] not yet seen: [Object.fromEntries] makes a new object
    of its entries, and that object is walked. *)
Lemma toJsonSafe_map_inv fuel l s result s' entries :
  toJsonSafe fuel (VRef l) s = Some (Normal result, s') ->
  l ∉ seen s -> length (heap s) ∉ seen s ->
  heap s !! l = Some (OMap entries) ->
  exists n out,
    fuel = S (S n) /\ result = NewObject out /\
    reduce (sanitize_entry (toJsonSafe n)) (from_entries entries) []
      (State (heap s ++ [OPlain (from_entries entries)])
             ({[ length (heap s) ]} ∪ ({[ l ]} ∪ seen s)))
      = Some (Normal out, s').
Proof.
  intros H Hnew Hfresh Hobj.
  apply toJsonSafe_unseen_inv in H as (n & o & -> & Hl & H); [|assumption].
  rewrite Hobj in Hl. injection Hl as <-. simpl in H.
  apply bind_Normal_inv in H as (a & s1 & H1 & H). injection H1 as <- <-.
  apply toJsonSafe_walk_inv with (entries := from_entries entries) in H.
  - destruct H as (n' & out & -> & -> & H). exists n', out. auto.
  - simpl. apply lookup_lt_Some in Hobj.
    intros [Heq%elem_of_singleton|Hin]%elem_of_union; [lia | contradiction].
  - left. simpl. apply list_lookup_middle. reflexivity.
Qed.

Lemma get_define_all_keys {V : Type} k (es ps : list (string * V)) :
  get k (define_all es ps) <> None -> get k ps <> None \/ In k (keys es).
Proof.
  revert ps. induction es as [|[k0 v0] es IH]; simpl; intros ps H; [now left|].
  apply IH in H as [H|H]; [|right; now right].
  destruct (String.eqb_spec k0 k) as [->|Hne]; [right; now left|].
  left. now rewrite get_define_other in H.
Qed.


(** X13.  When no object of the graph is one a branch copies raw (an array
    under a field holds plain values and objects only, a [Set] or a [Map]
    plain values only), everything the sanitizer returns is JSON-native at
    every depth: objects, arrays, strings, numbers and booleans. *)
Theorem sanitize_tame_is_native (fuel : nat) (h : list object) (l : loc) (result : tree) :
  heap_tame h ->
  sanitize fuel h (VRef l) = Some (Normal result) ->
  json_native result = true.
Proof.
  intros Hh Hrun. apply sanitize_inv in Hrun as (s' & Hrun).
  now apply toJsonSafe_native in Hrun as [Hnative _].
Qed.

(** ** An array under a field *)

Lemma convert_item_stored (self : value -> M tree) item s :
  is_reference item = false -> convert_item self item s = Some (Normal (Stored item), s).
Proof. now destruct item. Qed.

(** [map] keeps every element that is no object as it is, in its place. *)
Lemma map_items_elements (self : value -> M tree) items s ts s' :
  map_items (convert_item self) items s = Some (Normal ts, s') ->
  forall i item, items !! i = Some item -> is_reference item = false ->
                 ts !! i = Some (Stored item).
Proof.
  revert s ts. induction items as [|x items IH]; simpl; intros s ts H i item Hi Hitem;
    [discriminate|].
  apply bind_Normal_inv in H as (t & s1 & H1 & H).
  apply bind_Normal_inv in H as (ts' & s2 & H2 & H). injection H as <- <-.
  destruct i as [|i]; simpl in *.
  - injection Hi as ->. rewrite (convert_item_stored self item s Hitem) in H1.
    now injection H1 as <- <-.
  - now apply (IH _ _ H2).
Qed.

(** The value the walk leaves under a key is the one the step of that key's
    entry stored. *)
Lemma reduce_entry_step fuel entries result s out s' k v :
  reduce (sanitize_entry (toJsonSafe fuel)) entries result s = Some (Normal out, s') ->
  NoDup (keys entries) ->
  (forall k', In k' (keys entries) -> get k' result = None) ->
  get k entries = Some v ->
  exists before s1 after s2,
    sanitize_entry (toJsonSafe fuel) before k v s1 = Some (Normal after, s2)
    /\ get k out = get k after /\ extends s s1.
Proof.
  revert result s. induction entries as [|[key value] entries IH]; simpl;
    intros result s H Hnd Hfree Hk; [discriminate|].
  apply bind_Normal_inv in H as (result1 & s1 & H1 & H).
  apply NoDup_cons in Hnd as [Hfresh Hnd]. rewrite list_elem_of_In in Hfresh.
  pose proof (sanitize_entry_extends _ (toJsonSafe_extends fuel) _ _ _ _ _ _ H1) as Hext.
  pose proof (sanitize_entry_outcome _ _ _ _ _ _ _ H1) as [Hother _].
  assert (Hfree1 : forall k', In k' (keys entries) -> get k' result1 = None).
  { intros k' Hin. rewrite Hother by (intros ->; contradiction). apply Hfree. now right. }
  destruct (String.eqb_spec key k) as [->|Hne].
  - injection Hk as ->. exists result, s, result1, s1.
    split; [assumption|]. split; [|apply extends_refl].
    pose proof (reduce_outcome _ _ _ _ _ _ H Hnd Hfree1 k) as Hout.
    apply get_None_keys in Hfresh. now rewrite Hfresh in Hout.
  - destruct (IH result1 s1 H Hnd Hfree1 Hk) as (before & s2 & after & s3 & Hstep & Hget & Hext2).
    exists before, s2, after, s3. split; [assumption|]. split; [assumption|].
    now apply (extends_trans _ _ _ Hext).
Qed.


End SanitizerCoverage.

Section FacilitatorCoverage.

Import Codec Facilitator.

(** ** The requests of [verify] and [settle] *)

(** A spread over a base object: the spread entries win, the later of two
    with the same key first. *)
Lemma get_define_all {V : Type} k (es ps : list (string * V)) :
  get k (define_all es ps)
  = match get k (from_entries es) with
    | Some v => Some v
    | None => get k ps
    end.
Proof.
  induction es as [|[k0 v0] es IH] using rev_ind; [reflexivity|].
  unfold from_entries. rewrite !define_all_snoc.
  destruct (String.eqb_spec k0 k) as [->|Hne].
  - now rewrite !get_define_same.
  - rewrite !get_define_other by assumption. exact IH.
Qed.

(** X14.  The headers of a request.  Without [createAuthHeaders] they are
    the one default header.  With it, the headers it gives for the operation
    are laid over the default: each of them is sent, a [Content-Type] among
    them replaces [application/json], and without one the default stays.
    When awaiting [createAuthHeaders] throws, or gives [undefined] or [null],
    no headers are built and the error is thrown. *)
Theorem request_headers_merge (c : config) (operation : string) :
  (createAuthHeaders c = None ->
   request_headers (Some c) operation = Normal default_headers)
  /\ (forall authHeaders, createAuthHeaders c = Some (Normal authHeaders) ->
        is_nullish authHeaders = false ->
        exists headers,
          request_headers (Some c) operation = Normal headers
          /\ forall k,
               get k headers
               = match get k (from_entries (own_entries (read authHeaders operation))) with
                 | Some v => Some v
                 | None => get k default_headers
                 end)
  /\ (forall authHeaders, createAuthHeaders c = Some (Normal authHeaders) ->
        is_nullish authHeaders = true ->
        request_headers (Some c) operation = Throw TypeError)
  /\ (forall e, createAuthHeaders c = Some (Throw e) ->
        request_headers (Some c) operation = Throw e).
Proof.
  unfold request_headers. repeat split.
  - now intros ->.
  - intros authHeaders -> Hauth. rewrite cbind_Normal, (get_prop_read _ _ Hauth), cbind_Normal.
    eexists. split; [reflexivity|]. intros k. now rewrite get_define_all.
  - intros authHeaders -> Hauth. now rewrite cbind_Normal, (get_prop_nullish _ _ Hauth).
  - now intros e ->.
Qed.

Section Client.

Variable E : Engine.
Variable JSON_stringify_request :
  value -> list Sanitizer.object -> Sanitizer.tree -> completion string.
Variable fetch : request -> completion response.
Variable facilitator : option config.

(** X15.  Nothing is sent unless the requirements were sanitized: when the
    sanitizer throws (the requirements are no object, or hold an invalid
    [Date]), [verify] and [settle] throw that error and no request is
    made. *)
Theorem no_request_without_sanitized_requirements
    (fuel : nat) (h : list Sanitizer.object) (payload : value)
    (paymentRequirements : Sanitizer.value) (e : error)
    (headers headers' : list (string * value)) (target : string) :
  request_headers facilitator "verify" = Normal headers ->
  request_headers facilitator "settle" = Normal headers' ->
  ToString E (facilitator_url facilitator) = Normal target ->
  Sanitizer.sanitize fuel h paymentRequirements = Some (Throw e) ->
  verify E JSON_stringify_request fetch facilitator fuel h payload paymentRequirements
  = Some ([], Throw e)
  /\ settle E JSON_stringify_request fetch facilitator fuel h payload paymentRequirements
     = Some ([], Throw e).
Proof.
  intros Hverify Hsettle Htarget Hrun. unfold verify, settle.
  rewrite Hverify, Hsettle, Htarget. unfold Sanitizer.sanitize in Hrun.
  destruct (Sanitizer.toJsonSafe fuel paymentRequirements (Sanitizer.State h ∅))
    as [[r s]|]; [|discriminate].
  simpl in Hrun. injection Hrun as ->. auto.
Qed.

(** X16.  When [verify] has its request together it sends exactly that one
    request, a POST to [<url>/verify] with the merged headers and the JSON
    text as body.  A rejection of [fetch] is thrown on; a response whose
    status is not 200 is answered with [{isValid: false, errorMessage}] and
    never thrown; a 200 response gives its JSON body. *)
Theorem verify_sends_one_request
    (fuel : nat) (h : list Sanitizer.object) (payload : value)
    (paymentRequirements : Sanitizer.value)
    (headers : list (string * value)) (safe : Sanitizer.tree) (s : Sanitizer.state)
    (requestBody target command : string) :
  request_headers facilitator "verify" = Normal headers ->
  Sanitizer.toJsonSafe fuel paymentRequirements (Sanitizer.State h ∅) = Some (Normal safe, s) ->
  JSON_stringify_request payload (Sanitizer.heap s) safe = Normal requestBody ->
  ToString E (facilitator_url facilitator) = Normal target ->
  curl_command E headers requestBody target = Normal command ->
  let req := Request (target ++ "/verify") "POST" headers requestBody in
  exists outcome,
    verify E JSON_stringify_request fetch facilitator fuel h payload paymentRequirements
    = Some ([req], outcome)
    /\ (forall e, fetch req = Throw e -> outcome = Throw e)
    /\ (forall res, fetch req = Normal res -> status res <> 200 ->
          exists errorMessage, outcome = Normal (verify_failure errorMessage))
    /\ (forall res, fetch req = Normal res -> status res = 200 -> outcome = json res).
Proof.
  intros Hheaders Hsafe Hbody Htarget Hcurl req. unfold verify.
  rewrite Hheaders, Hsafe, Hbody, cbind_Normal, Htarget, cbind_Normal, Hcurl, cbind_Normal.
  eexists. split; [reflexivity|]. fold req. repeat split.
  - now intros e ->.
  - intros res -> Hstatus. rewrite cbind_Normal. unfold verify_response.
    destruct (Z.eqb_spec (status res) 200) as [|_]; [contradiction|]. cbn [negb]. eauto.
  - intros res -> Hstatus. rewrite cbind_Normal. unfold verify_response.
    now rewrite Hstatus.
Qed.

(** X17.  When [settle] has its request together it sends exactly that one
    request, a POST to [<url>/settle].  Unlike [verify] it throws on every
    response whose status is not 200, whatever the body: the error names the
    status and the status text.  A 200 response gives its JSON body. *)
Theorem settle_sends_one_request
    (fuel : nat) (h : list Sanitizer.object) (payload : value)
    (paymentRequirements : Sanitizer.value)
    (headers : list (string * value)) (safe : Sanitizer.tree) (s : Sanitizer.state)
    (requestBody target : string) :
  request_headers facilitator "settle" = Normal headers ->
  ToString E (facilitator_url facilitator) = Normal target ->
  Sanitizer.toJsonSafe fuel paymentRequirements (Sanitizer.State h ∅) = Some (Normal safe, s) ->
  JSON_stringify_request payload (Sanitizer.heap s) safe = Normal requestBody ->
  let req := Request (target ++ "/settle") "POST" headers requestBody in
  exists outcome,
    settle E JSON_stringify_request fetch facilitator fuel h payload paymentRequirements
    = Some ([req], outcome)
    /\ (forall e, fetch req = Throw e -> outcome = Throw e)
    /\ (forall res, fetch req = Normal res -> status res <> 200 ->
          outcome = Throw (Error ("Failed to settle payment: "
                                  ++ Number_toString E (number_of_Z (status res))
                                  ++ " " ++ statusText res)))
    /\ (forall res, fetch req = Normal res -> status res = 200 -> outcome = json res).
Proof.
  intros Hheaders Htarget Hsafe Hbody req. unfold settle.
  rewrite Hheaders, Htarget, Hsafe, Hbody.
  eexists. split; [reflexivity|]. fold req. repeat split.
  - now intros e ->.
  - intros res -> Hstatus. rewrite cbind_Normal. unfold settle_response.
    destruct (Z.eqb_spec (status res) 200) as [|_]; [contradiction|]. reflexivity.
  - intros res -> Hstatus. rewrite cbind_Normal. unfold settle_response.
    now rewrite Hstatus.
Qed.

End Client.

(** ** The smoke test *)

Section SmokeTestFlow.

Variable E : Engine.
Variable JSON_stringify_request :
  value -> list Sanitizer.object -> Sanitizer.tree -> completion string.
Variable fetch : request -> completion response.

(** The sanitizer copies the smoke test's requirements as they are, from
    three nested calls on. *)
Lemma smoke_test_sanitized fuel :
  exists s,
    Sanitizer.toJsonSafe (S (S (S fuel))) SmokeTest.paymentRequirements
      (Sanitizer.State SmokeTest.requirements_heap ∅)
    = Some (Normal SmokeTest.sanitized_requirements, s)
    /\ Sanitizer.heap s = SmokeTest.requirements_heap.
Proof. eexists. split; [vm_compute; reflexivity | reflexivity]. Qed.

Lemma smoke_test_verify fuel paymentPayload requestBody :
  JSON_stringify_request paymentPayload SmokeTest.requirements_heap
    SmokeTest.sanitized_requirements = Normal requestBody ->
  verify E JSON_stringify_request fetch SmokeTest.facilitator (S (S (S fuel)))
    SmokeTest.requirements_heap paymentPayload SmokeTest.paymentRequirements
  = Some ([Request (SmokeTest.facilitatorUrl ++ "/verify") "POST" default_headers requestBody],
          do res <- fetch (Request (SmokeTest.facilitatorUrl ++ "/verify") "POST"
                             default_headers requestBody);
          verify_response res).
Proof.
  intros Hbody. unfold verify.
  destruct (smoke_test_sanitized fuel) as (s & -> & Hheap).
  change (request_headers SmokeTest.facilitator "verify") with (Normal default_headers).
  rewrite Hheap, Hbody. reflexivity.
Qed.

Lemma smoke_test_settle fuel paymentPayload requestBody :
  JSON_stringify_request paymentPayload SmokeTest.requirements_heap
    SmokeTest.sanitized_requirements = Normal requestBody ->
  settle E JSON_stringify_request fetch SmokeTest.facilitator (S (S (S fuel)))
    SmokeTest.requirements_heap paymentPayload SmokeTest.paymentRequirements
  = Some ([Request (SmokeTest.facilitatorUrl ++ "/settle") "POST" default_headers requestBody],
          do res <- fetch (Request (SmokeTest.facilitatorUrl ++ "/settle") "POST"
                             default_headers requestBody);
          settle_response E res).
Proof.
  intros Hbody. unfold settle.
  destruct (smoke_test_sanitized fuel) as (s & -> & Hheap).
  change (request_headers SmokeTest.facilitator "settle") with (Normal default_headers).
  change (ToString E (facilitator_url SmokeTest.facilitator))
    with (Normal (A := string) SmokeTest.facilitatorUrl).
  rewrite Hheap, Hbody. reflexivity.
Qed.

(** X18.  The smoke test sends the verify request, a POST to
    [https://facilitator.aeon.xyz/verify] with the one default header, and
    after it at most the settle request, with the same headers and the same
    body.  The settle request is sent only when the facilitator answered the
    verify request and the answer's [isValid] is truthy; after an answer
    whose status is not 200 nothing more is sent and the function throws. *)
Theorem smoke_test_settles_only_after_valid
    (fuel : nat) (paymentPayload : value) (requestBody : string) :
  (3 <= fuel)%nat ->
  JSON_stringify_request paymentPayload SmokeTest.requirements_heap
    SmokeTest.sanitized_requirements = Normal requestBody ->
  let verify_request :=
    Request (SmokeTest.facilitatorUrl ++ "/verify") "POST" default_headers requestBody in
  let settle_request :=
    Request (SmokeTest.facilitatorUrl ++ "/settle") "POST" default_headers requestBody in
  exists sent outcome,
    SmokeTest.verify_then_settle E JSON_stringify_request fetch fuel paymentPayload
    = Some (sent, outcome)
    /\ (sent = [verify_request] \/ sent = [verify_request; settle_request])
    /\ (sent = [verify_request; settle_request] ->
        exists res verifyResp,
          fetch verify_request = Normal res
          /\ verify_response res = Normal verifyResp
          /\ ToBoolean (read verifyResp "isValid") = true)
    /\ (forall res, fetch verify_request = Normal res -> status res <> 200 ->
          sent = [verify_request] /\ exists e, outcome = Throw e).
Proof.
  intros Hfuel Hbody verify_request settle_request.
  destruct fuel as [|[|[|fuel]]]; try lia.
  unfold SmokeTest.verify_then_settle.
  rewrite (smoke_test_verify fuel _ _ Hbody), (smoke_test_settle fuel _ _ Hbody).
  fold verify_request settle_request.
  destruct (fetch verify_request) as [res|e] eqn:Hfetch.
  2: { eexists _, _. split; [reflexivity|]. split; [now left|].
       split; [discriminate|]. discriminate. }
  rewrite cbind_Normal.
  destruct (verify_response res) as [verifyResp|e] eqn:Hresponse.
  2: { eexists _, _. split; [reflexivity|]. split; [now left|].
       split; [discriminate|]. intros res' [= <-] Hstatus.
       unfold verify_response in Hresponse.
       destruct (Z.eqb_spec (status res) 200) as [|_]; [contradiction | discriminate]. }
  destruct (SmokeTest.check_verified E verifyResp) as [[]|e] eqn:Hcheck.
  - eexists _, _. split; [reflexivity|]. split; [now right|]. split.
    + intros _. exists res, verifyResp. split; [reflexivity|]. split; [exact Hresponse|].
      unfold SmokeTest.check_verified in Hcheck.
      destruct (is_nullish verifyResp) eqn:Hnull;
        [now rewrite (get_prop_nullish _ _ Hnull) in Hcheck|].
      rewrite (get_prop_read _ _ Hnull), cbind_Normal in Hcheck.
      destruct (ToBoolean (read verifyResp "isValid")); [reflexivity|].
      cbn [negb] in Hcheck. rewrite (get_prop_read _ _ Hnull), cbind_Normal in Hcheck.
      destruct (ToString E (read verifyResp "errorMessage")); discriminate.
    + intros res' [= <-] Hstatus. exfalso.
      unfold verify_response in Hresponse.
      destruct (Z.eqb_spec (status res) 200) as [|_]; [contradiction|].
      cbn [negb] in Hresponse. injection Hresponse as <-.
      unfold SmokeTest.check_verified, verify_failure in Hcheck.
      rewrite get_prop_object', cbind_Normal in Hcheck.
      change (ToBoolean (read (VObject _) "isValid")) with false in Hcheck.
      cbn [negb] in Hcheck. rewrite get_prop_object', cbind_Normal in Hcheck.
      match type of Hcheck with
      | context [ToString E ?v] => destruct (ToString E v); discriminate
      end.
  - eexists _, _. split; [reflexivity|]. split; [now left|]. split; [discriminate|].
    intros res' _ _. eauto.
Qed.

End SmokeTestFlow.

End FacilitatorCoverage.

Section CodecCoverageSamples.

Import Codec.

(** ** The codec on further samples *)

Lemma decodePaymentPayload_returns_accepted_witness : accepted Samples.payment.
Proof.
  apply (decodePaymentPayload_returns_accepted Reference.engine Samples.payment_encoded).
  vm_compute. reflexivity.
Defined.

Lemma encodePaymentPayload_other_type_not_decodable_witness :
  exists encoded,
    encodePaymentPayload Reference.engine (VObject Samples.other_type_fields) = Normal encoded
    /\ decodePaymentPayload Reference.engine encoded = Throw payload_type_error.
Proof.
  apply (encodePaymentPayload_other_type_not_decodable Reference.engine
           Samples.other_type_fields [("type", VString "foo")]).
  - vm_compute. reflexivity.
  - reflexivity.
  - vm_compute. reflexivity.
  - reflexivity.
  - apply reference_base64_roundtrip.
  - eexists. split; [vm_compute; reflexivity | vm_compute; reflexivity].
Defined.

Lemma encodePaymentPayload_unreadable_witness :
  encodePaymentPayload Reference.engine (VObject [("x402Version", VNumber (number_of_Z 1))])
  = Throw TypeError.
Proof.
  apply (encodePaymentPayload_unreadable Reference.engine).
  apply payload_nullish. reflexivity.
Defined.

Lemma encodePaymentPayload_does_not_validate_witness :
  exists encoded,
    encodePaymentPayload Reference.engine (VObject Samples.unsigned_fields) = Normal encoded
    /\ decodePaymentPayload Reference.engine encoded = Throw authorization_error.
Proof.
  apply (encodePaymentPayload_does_not_validate Reference.engine
           Samples.unsigned_fields Samples.unsigned_payload_fields Samples.authorization_fields
           "authorization" (2 ^ 200) 0 1893456000).
  - vm_compute. reflexivity.
  - reflexivity.
  - vm_compute. reflexivity.
  - reflexivity.
  - now left.
  - reflexivity.
  - vm_compute. reflexivity.
  - reflexivity.
  - reflexivity.
  - reflexivity.
  - apply signature_without_prefix with (s := "abc"); reflexivity.
  - apply reference_base64_roundtrip.
  - intros safe Hsafe. vm_compute in Hsafe. injection Hsafe as <-.
    eexists. split; [vm_compute; reflexivity | vm_compute; reflexivity].
Defined.

Lemma decodePaymentPayload_conversion_error_witness :
  decodePaymentPayload Reference.engine Samples.fractional_encoded = Throw SyntaxError.
Proof.
  eapply (fun decoded Hdecode Hparse =>
            proj1 (decodePaymentPayload_conversion_error
                     Reference.engine Samples.fractional_encoded decoded
                     [("payload", VObject (Samples.received "1.5" "1" "2" (VString "0xabc")))]
                     (Samples.received "1.5" "1" "2" (VString "0xabc"))
                     [("value", VString "1.5"); ("validAfter", VString "1");
                      ("validBefore", VString "2"); ("nonce", VString "n");
                      ("version", VString "1")]
                     Hdecode Hparse eq_refl eq_refl eq_refl) SyntaxError).
  - vm_compute. reflexivity.
  - vm_compute. reflexivity.
  - vm_compute. reflexivity.
Defined.

Lemma decodePaymentPayload_coerces_witness :
  exists obj,
    decodePaymentPayload Reference.engine Samples.coerced_encoded = validatePaymentPayload obj
    /\ read (read (read obj "payload") "authorization") "value" = VBigInt 5
    /\ read (read (read obj "payload") "authorization") "validAfter" = VBigInt 1
    /\ read (read (read obj "payload") "authorization") "validBefore" = VBigInt 2.
Proof.
  eapply (fun decoded Hdecode Hparse =>
            proj1 (decodePaymentPayload_coerces
                     Reference.engine Samples.coerced_encoded decoded
                     [("payload", VObject Samples.coerced_payload)]
                     Samples.coerced_payload
                     [("value", VNumber (number_of_Z 5)); ("validAfter", VBool true);
                      ("validBefore", VString "2"); ("nonce", VString "n");
                      ("version", VString "1")]
                     (VBigInt 5) (VBigInt 1) (VBigInt 2)
                     Hdecode Hparse eq_refl eq_refl eq_refl eq_refl eq_refl eq_refl)).
  - vm_compute. reflexivity.
  - vm_compute. reflexivity.
Defined.

Example decode_coerced :
  decodePaymentPayload Reference.engine Samples.coerced_encoded
  = Normal (VObject
      [("payload",
        VObject [("type", VString "authorization");
                 ("signature", VString "0xabc");
                 ("authorization",
                  VObject [("value", VBigInt 5);
                           ("validAfter", VBigInt 1);
                           ("validBefore", VBigInt 2);
                           ("nonce", VString "n");
                           ("version", VString "1")])])]).
Proof. vm_compute. reflexivity. Qed.

End CodecCoverageSamples.
Section SanitizerCoverageSamples.

Import Sanitizer.

(** ** The sanitizer on further samples *)

Lemma self_heap_dates_valid : dates_valid Samples.self_heap.
Proof. repeat constructor. discriminate. Defined.


Lemma sanitize_top_level_date_witness :
  sanitize 1 Samples.date_heap (VRef 0)
  = Some (Normal (Stored (VString "1970-01-01T00:00:00.000Z"))).
Proof.
  apply (sanitize_top_level_date 0 Samples.date_heap 0 (Some "1970-01-01T00:00:00.000Z")).
  reflexivity.
Defined.



Lemma shared_heap_tame : heap_tame Samples.shared_heap.
Proof. repeat constructor. Defined.

Lemma sanitize_tame_is_native_witness :
  json_native (NewObject [("a", NewObject [("k", Stored (VNumber (number_of_Z 1)))]);
                          ("b", circular_marker)]) = true.
Proof.
  apply (sanitize_tame_is_native 3 Samples.shared_heap 0 _ shared_heap_tame).
  vm_compute. reflexivity.
Defined.


End SanitizerCoverageSamples.

Section FacilitatorCoverageSamples.

Import Codec Facilitator.

(** ** [verify], [settle] and the smoke test on sample responses *)

Lemma no_request_without_sanitized_requirements_witness :
  verify Reference.engine Samples.empty_body Samples.answer_payment_required None 1 [] (VString "x") Sanitizer.VNull
  = Some ([], Throw Sanitizer.input_error)
  /\ settle Reference.engine Samples.empty_body Samples.answer_payment_required None 1 [] (VString "x") Sanitizer.VNull
     = Some ([], Throw Sanitizer.input_error).
Proof.
  apply (no_request_without_sanitized_requirements Reference.engine Samples.empty_body Samples.answer_payment_required
           None 1 [] (VString "x") Sanitizer.VNull Sanitizer.input_error
           default_headers default_headers DEFAULT_FACILITATOR_URL);
    reflexivity.
Defined.

Lemma verify_sends_one_request_witness :
  exists errorMessage,
    verify Reference.engine Samples.empty_body Samples.answer_payment_required None 2 Samples.sparse_heap
      (VString "x") (Sanitizer.VRef 0)
    = Some ([Request "https://facilitator.aeon.xyz/verify" "POST" default_headers "{}"],
            Normal (verify_failure errorMessage)).
Proof.
  edestruct (verify_sends_one_request Reference.engine Samples.empty_body Samples.answer_payment_required None
               2 Samples.sparse_heap (VString "x") (Sanitizer.VRef 0)
               default_headers) as (outcome & Hrun & _ & Hfailure & _).
  - reflexivity.
  - vm_compute. reflexivity.
  - reflexivity.
  - reflexivity.
  - vm_compute. reflexivity.
  - destruct (Hfailure Samples.payment_required eq_refl ltac:(discriminate))
      as [errorMessage ->].
    exists errorMessage. exact Hrun.
Defined.

Lemma settle_sends_one_request_witness :
  settle Reference.engine Samples.empty_body Samples.answer_payment_required None 2 Samples.sparse_heap
    (VString "x") (Sanitizer.VRef 0)
  = Some ([Request "https://facilitator.aeon.xyz/settle" "POST" default_headers "{}"],
          Throw (Error "Failed to settle payment: 402 Payment Required")).
Proof.
  edestruct (settle_sends_one_request Reference.engine Samples.empty_body Samples.answer_payment_required None
               2 Samples.sparse_heap (VString "x") (Sanitizer.VRef 0)
               default_headers) as (outcome & Hrun & _ & Hfailure & _).
  - reflexivity.
  - reflexivity.
  - vm_compute. reflexivity.
  - reflexivity.
  - rewrite (Hfailure Samples.payment_required eq_refl ltac:(discriminate)) in Hrun.
    exact Hrun.
Defined.

Lemma smoke_test_settles_only_after_valid_witness :
  exists outcome,
    SmokeTest.verify_then_settle Reference.engine Samples.empty_body Samples.answer_payment_required 3 (VString "x")
    = Some ([Request "https://facilitator.aeon.xyz/verify" "POST" default_headers "{}"],
            outcome)
    /\ exists e, outcome = Throw e.
Proof.
  destruct (smoke_test_settles_only_after_valid Reference.engine Samples.empty_body Samples.answer_payment_required
              3 (VString "x") "{}" (le_n 3) eq_refl)
    as (sent & outcome & Hrun & _ & _ & Hfailed).
  destruct (Hfailed Samples.payment_required eq_refl ltac:(discriminate)) as [-> Hthrows].
  exists outcome. split; [exact Hrun | exact Hthrows].
Defined.

End FacilitatorCoverageSamples.
